(** * agentbounty: the payment-gated task lifecycle

    A shallow embedding of the pricing engine ([PricingEngine]), the x402
    payment verifier ([X402PaymentHandler]), the task store and scheduler
    ([TaskQueue]) and the orchestrator ([AgentCore]), followed by the
    properties of the specification that concern them.

    Conventions.
    - A method is a function of the state it reads and of the values that its
      calls to the outside return: the clock, [randomUUID], the ledger, the
      skills, the memory store. An [async] method runs to its end before the
      next one starts; interleavings at an [await] are not modelled.
    - What a method may throw is explicit ([JS.completion]); a [try] block is
      a computation under [JS.try_catch].
    - A JavaScript [number] is an exact rational ([Qc]); every constant of the
      pricing tables is representable. Where the sources can meet a value
      that is no number they are given a [JS.value]: a number, [NaN], or one
      of the functions and objects that every object literal inherits from
      [Object.prototype]. The infinities are not modelled.
    - A string is held as the bytes of its UTF-8 encoding. The length of a
      text and a cut in it count UTF-16 code units, as JavaScript does; on
      identifiers, hashes and amounts, which are ASCII, a byte is a code
      unit.
    - A [bigint] is a [Z].
    - A [Map<string, T>] is a [gmap string T]; an object literal used as a
      table is the [gmap] of its own properties, read with [JS.get], which
      also finds what the object inherits; a [Set<string>] is a
      duplicate-free list in insertion order.
    - A [Date] is its time value in milliseconds ([Z]).
    - An optional property [f?: T] is an [option T]. *)

From Stdlib Require Import ZArith QArith Qcanon Qround Lqa String Ascii List Sorted Lia.
From stdpp Require Import base numbers option list strings pretty gmap.

Local Open Scope string_scope.

(* ===================================================================== *)
(** ** JavaScript built-ins used by the sources *)
(* ===================================================================== *)

Module JS.

(** [String.prototype.startsWith]. *)
Fixpoint startsWith (s p : string) : bool :=
  match p, s with
  | EmptyString, _ => true
  | String a p', String b s' => if Ascii.eqb a b then startsWith s' p' else false
  | String _ _, EmptyString => false
  end.

(** [s.slice(n)] for [0 <= n]. *)
Fixpoint slice_from (n : nat) (s : string) : string :=
  match n, s with
  | O, _ => s
  | S n', String _ s' => slice_from n' s'
  | S _, EmptyString => EmptyString
  end.

(** [s.slice(0, n)]. *)
Fixpoint slice_to (n : nat) (s : string) : string :=
  match n, s with
  | O, _ => EmptyString
  | S n', String c s' => String c (slice_to n' s')
  | S _, EmptyString => EmptyString
  end.

(** [s.replace(pat, rep)] with a string pattern: the first occurrence only. *)
Fixpoint replace (pat rep s : string) : string :=
  if startsWith s pat then rep +:+ slice_from (String.length pat) s
  else match s with
       | EmptyString => EmptyString
       | String c s' => String c (replace pat rep s')
       end.

Definition lower_ascii (c : ascii) : ascii :=
  let n := nat_of_ascii c in
  if (65 <=? n)%nat && (n <=? 90)%nat then ascii_of_nat (n + 32) else c.

(** [String.prototype.toLowerCase] (on the ASCII letters). *)
Fixpoint toLowerCase (s : string) : string :=
  match s with
  | EmptyString => EmptyString
  | String c s' => String (lower_ascii c) (toLowerCase s')
  end.

(** [s.padStart(n, '0')]. *)
Definition padStart0 (n : nat) (s : string) : string :=
  Nat.iter (n - String.length s) (String "0") s.

(** [s.padEnd(n, '0')]. *)
Definition padEnd0 (n : nat) (s : string) : string :=
  s +:+ Nat.iter (n - String.length s) (String "0") EmptyString.

(** [s.replace(/(0+)$/, '')]: drop the trailing zeros. *)
Fixpoint strip_trailing_zeros (s : string) : string :=
  match s with
  | EmptyString => EmptyString
  | String c s' =>
      match strip_trailing_zeros s' with
      | EmptyString => if Ascii.eqb c "0" then EmptyString else String c EmptyString
      | r => String c r
      end
  end.

(** What a [throw] carries: an [Error] with its message, one of the two
    library errors whose text the host renders, or a [TypeError] of the
    engine with its message. *)
Inductive exn :=
| Error (message : string)
| SyntaxError (input : string)
| InvalidDecimalNumberError (value : string)
| TypeError (message : string).

(** The outcome of evaluating an expression or awaiting a promise. *)
Inductive completion (A : Type) :=
| Normal (a : A)
| Throw (e : exn).
Arguments Normal {A} a.
Arguments Throw {A} e.

Definition bind {A B} (c : completion A) (k : A -> completion B) : completion B :=
  match c with
  | Normal a => k a
  | Throw e => Throw e
  end.

(** [try { body } catch (e) { handler e }]. *)
Definition try_catch {A} (body : completion A) (handler : exn -> completion A)
  : completion A :=
  match body with
  | Normal a => Normal a
  | Throw e => handler e
  end.

Definition digit_value (c : ascii) : option Z :=
  let n := Z.of_nat (nat_of_ascii c) in
  if (48 <=? n)%Z && (n <=? 57)%Z then Some (n - 48)%Z
  else if (97 <=? n)%Z && (n <=? 122)%Z then Some (n - 87)%Z
  else if (65 <=? n)%Z && (n <=? 90)%Z then Some (n - 55)%Z
  else None.

(** The digits of [s] in the given radix, most significant first. *)
Fixpoint parse_digits (radix : Z) (s : string) (acc : Z) : option Z :=
  match s with
  | EmptyString => Some acc
  | String c s' =>
      match digit_value c with
      | Some d => if (d <? radix)%Z then parse_digits radix s' (acc * radix + d)%Z else None
      | None => None
      end
  end.

Definition parse_nonempty_digits (radix : Z) (s : string) : option Z :=
  match s with
  | EmptyString => None
  | _ => parse_digits radix s 0%Z
  end.

Definition is_space (c : ascii) : bool :=
  let n := nat_of_ascii c in
  ((9 <=? n)%nat && (n <=? 13)%nat) || (n =? 32)%nat.

Fixpoint trim_start (s : string) : string :=
  match s with
  | String c s' => if is_space c then trim_start s' else s
  | EmptyString => EmptyString
  end.

Fixpoint trim_end (s : string) : string :=
  match s with
  | EmptyString => EmptyString
  | String c s' =>
      match trim_end s' with
      | EmptyString => if is_space c then EmptyString else String c EmptyString
      | r => String c r
      end
  end.

(** [StringToBigInt]: white space around an optional literal; the literal is
    a signed decimal integer, or an unsigned one with prefix [0x], [0o] or
    [0b]. *)
Definition StringToBigInt (s : string) : option Z :=
  match trim_end (trim_start s) with
  | EmptyString => Some 0%Z
  | String "0" (String "x" r) | String "0" (String "X" r) => parse_nonempty_digits 16 r
  | String "0" (String "o" r) | String "0" (String "O" r) => parse_nonempty_digits 8 r
  | String "0" (String "b" r) | String "0" (String "B" r) => parse_nonempty_digits 2 r
  | String "-" r => Z.opp <$> parse_nonempty_digits 10 r
  | String "+" r => parse_nonempty_digits 10 r
  | r => parse_nonempty_digits 10 r
  end.

(** [BigInt(s)] on a string: a [SyntaxError] when [s] is no integer literal. *)
Definition BigInt (s : string) : completion Z :=
  match StringToBigInt s with
  | Some z => Normal z
  | None => Throw (SyntaxError s)
  end.

(** [x || y] where [x] is an optional string: [undefined] and [''] are falsy. *)
Definition truthy (x : option string) : bool :=
  match x with
  | Some EmptyString | None => false
  | Some _ => true
  end.

(** [s.split(sep)] for a separator of one character. *)
Fixpoint split (sep : ascii) (s : string) : list string :=
  match s with
  | EmptyString => [EmptyString]
  | String c s' =>
      if Ascii.eqb c sep then EmptyString :: split sep s'
      else match split sep s' with
           | h :: t => String c h :: t
           | [] => [String c EmptyString]
           end
  end.

(** [Math.round]: the nearest integer, halves towards plus infinity. *)
Definition Math_round (x : Qc) : Qc :=
  Q2Qc (inject_Z (Qfloor (x + Q2Qc (1 # 2))%Qc)).

(** [Math.max] of two numbers. *)
Definition Math_max (x y : Qc) : Qc :=
  if bool_decide (x < y)%Qc then y else x.

(** [Math.ceil]. *)
Definition Math_ceil (x : Qc) : Qc := Q2Qc (inject_Z (Qceiling x)).

(** [String.prototype.includes]. *)
Fixpoint includes (s sub : string) : bool :=
  startsWith s sub
  || match s with
     | EmptyString => false
     | String _ s' => includes s' sub
     end.

(** A byte that continues a character: the second, third or fourth byte of
    its encoding. *)
Definition is_continuation (c : ascii) : bool :=
  let n := nat_of_ascii c in (128 <=? n)%nat && (n <? 192)%nat.

(** The number of code units of the character that the byte [c] starts: one,
    and two for a character beyond U+FFFF, whose encoding has four bytes. *)
Definition code_units (c : ascii) : nat :=
  let n := nat_of_ascii c in
  if is_continuation c then 0 else if (n <? 240)%nat then 1 else 2.

(** [s.length]. *)
Fixpoint str_length (s : string) : nat :=
  match s with
  | EmptyString => O
  | String c s' => code_units c + str_length s'
  end.

(** The first half of a character beyond U+FFFF, whose encoding starts with
    the byte [c] and goes on with the first three bytes of [rest]: its high
    surrogate, held as the three bytes that a code unit of that range
    takes. *)
Definition high_surrogate (c : ascii) (rest : string) : string :=
  match N_of_ascii <$> list_ascii_of_string (slice_to 3 rest) with
  | [b1; b2; b3] =>
      let cp := (N_of_ascii c mod 8 * 262144 + b1 mod 64 * 4096
                 + b2 mod 64 * 64 + b3 mod 64)%N in
      let w := ((cp - 65536) / 1024)%N in
      String (ascii_of_N 237)
        (String (ascii_of_N (160 + w / 64)) (String (ascii_of_N (128 + w mod 64)) EmptyString))
  | _ => EmptyString
  end.

(** [s.slice(0, n)] on a text: what lies within the first [n] code units. A
    cut inside a character beyond U+FFFF keeps its first half. *)
Fixpoint slice_text (n : nat) (s : string) : string :=
  match s with
  | EmptyString => EmptyString
  | String c s' =>
      if is_continuation c then String c (slice_text n s')
      else if (code_units c <=? n)%nat then String c (slice_text (n - code_units c) s')
      else if (n =? 1)%nat then high_surrogate c s'
      else EmptyString
  end.

(** The white space [\s] of the regular expressions at the head of [s]: tab
    to carriage return and space, and the encodings of U+00A0, U+1680,
    U+2000 to U+200A, U+2028, U+2029, U+202F, U+205F, U+3000 and U+FEFF. *)
Definition space_at (s : string) : bool :=
  match nat_of_ascii <$> list_ascii_of_string (slice_to 3 s) with
  | n :: rest =>
      ((9 <=? n)%nat && (n <=? 13)%nat) || (n =? 32)%nat
      || match rest with
         | [m] => (n =? 194)%nat && (m =? 160)%nat
         | [m; k] =>
             ((n =? 194)%nat && (m =? 160)%nat)
             || ((n =? 225)%nat && (m =? 154)%nat && (k =? 128)%nat)
             || ((n =? 226)%nat && (m =? 128)%nat
                 && (((128 <=? k)%nat && (k <=? 138)%nat) || (k =? 168)%nat
                     || (k =? 169)%nat || (k =? 175)%nat))
             || ((n =? 226)%nat && (m =? 129)%nat && (k =? 159)%nat)
             || ((n =? 227)%nat && (m =? 128)%nat && (k =? 128)%nat)
             || ((n =? 239)%nat && (m =? 187)%nat && (k =? 191)%nat)
         | _ => false
         end
  | [] => false
  end.

(** The number of maximal runs of white space in [s]; [in_run] tells that
    the character before [s] is white space. *)
Fixpoint whitespace_runs (in_run : bool) (s : string) : nat :=
  match s with
  | EmptyString => O
  | String c s' =>
      if is_continuation c then whitespace_runs in_run s'
      else if space_at s
      then (if in_run then O else 1%nat) + whitespace_runs true s'
      else whitespace_runs false s'
  end.

(** [s.split(/\s+/).length]: one piece more than there are runs of white
    space. *)
Definition split_whitespace_length (s : string) : nat := S (whitespace_runs false s).

(** [Array.prototype.join]. *)
Fixpoint join (sep : string) (l : list string) : string :=
  match l with
  | [] => EmptyString
  | [x] => x
  | x :: l' => x +:+ sep +:+ join sep l'
  end.

(** [Number.prototype.toString] on a number that is a whole number of
    hundredths, not negative and below ten to the twenty-first: the integer
    part, and the one or two digits of the fraction when it is not zero. The
    prices and the amounts of the breakdown are such numbers. *)
Definition Number_toString (x : Qc) : string :=
  let hundredths := Qfloor (x * Q2Qc (100 # 1))%Qc in
  let fraction := (hundredths mod 100)%Z in
  pretty (hundredths / 100)%Z
    +:+ (if (fraction =? 0)%Z then EmptyString
         else "." +:+ (if (fraction mod 10 =? 0)%Z then pretty (fraction / 10)%Z
                       else padStart0 2 (pretty fraction))).

Definition hex_digit (n : nat) : ascii :=
  default "0"%char (String.get n "0123456789ABCDEF").

(** The escape [%XX] of a byte. *)
Definition percent_byte (n : nat) : string :=
  String "%" (String (hex_digit (n / 16)) (String (hex_digit (n mod 16)) EmptyString)).

(** The characters that [encodeURIComponent] leaves as they are. *)
Definition is_uri_unreserved (c : ascii) : bool :=
  let n := nat_of_ascii c in
  ((48 <=? n)%nat && (n <=? 57)%nat) || ((65 <=? n)%nat && (n <=? 90)%nat)
  || ((97 <=? n)%nat && (n <=? 122)%nat)
  || existsb (Ascii.eqb c) ["-"; "_"; "."; "!"; "~"; "*"; "'"; "("; ")"]%char.

(** [encodeURIComponent]: every other byte of the encoding is escaped. *)
Fixpoint encodeURIComponent (s : string) : string :=
  match s with
  | EmptyString => EmptyString
  | String c s' =>
      (if is_uri_unreserved c then String c EmptyString
       else percent_byte (nat_of_ascii c))
        +:+ encodeURIComponent s'
  end.

(** *** Object literals and what they inherit *)

(** The names of the properties of [Object.prototype], which every object
    literal inherits: eleven functions, and the accessor [__proto__], which
    gives the prototype itself. *)
Definition Object_prototype : list string :=
  [ "constructor"; "hasOwnProperty"; "isPrototypeOf"; "propertyIsEnumerable";
    "toLocaleString"; "toString"; "valueOf"; "__defineGetter__";
    "__defineSetter__"; "__lookupGetter__"; "__lookupSetter__"; "__proto__" ].

(** What [o[key]] finds. *)
Inductive property (A : Type) :=
| Own (a : A)
| Inherited (key : string)
| Missing.
Arguments Own {A} a.
Arguments Inherited {A} key.
Arguments Missing {A}.

(** [o[key]] on an object literal with the own properties [o]: the own
    property, else what [Object.prototype] has under this name, else
    [undefined]. *)
Definition get {A} (o : gmap string A) (key : string) : property A :=
  match o !! key with
  | Some a => Own a
  | None => if bool_decide (key ∈ Object_prototype) then Inherited key else Missing
  end.

(** A value where the sources expect a number: a number, [NaN], or the
    function or object that [Object.prototype] has under [key]. *)
Inductive value :=
| Num (x : Qc)
| NaN
| Builtin (key : string).

(** [Number(v)]: a function or an object converts to [NaN], for which
    [None] stands. *)
Definition ToNumber (v : value) : option Qc :=
  match v with
  | Num x => Some x
  | NaN | Builtin _ => None
  end.

(** [v * w]. *)
Definition times (v w : value) : value :=
  match ToNumber v, ToNumber w with
  | Some x, Some y => Num (x * y)
  | _, _ => NaN
  end.

(** [v > y]: no comparison with [NaN] holds. *)
Definition greater (v : value) (y : Qc) : bool :=
  match ToNumber v with
  | Some x => bool_decide (y < x)%Qc
  | None => false
  end.

(** [Math.max(v, y)]. *)
Definition Math_max_value (v : value) (y : Qc) : value :=
  match ToNumber v with
  | Some x => Num (Math_max x y)
  | None => NaN
  end.

(** [String(v)] and [v.toString()]; a built-in function as the engine writes
    it. *)
Definition value_toString (v : value) : string :=
  match v with
  | Num x => Number_toString x
  | NaN => "NaN"
  | Builtin key =>
      if bool_decide (key = "__proto__") then "[object Object]"
      else "function " +:+ (if bool_decide (key = "constructor") then "Object" else key)
             +:+ "() { [native code] }"
  end.

End JS.

(** What the host supplies and the sources only call: the two directions of
    the [Date] / ISO-8601 conversion, the text of the library errors, and the
    order in which the key-value server enumerates the members of a set. *)
Class Host := {
  Date_toISOString : Z -> string;
  Date_parse : string -> Z;
  SyntaxError_message : string -> string;
  InvalidDecimalNumberError_message : string -> string;
  smembers_order : gset string -> list string
}.

(** [new Date(d.toISOString())] is [d], and no ISO string is empty. *)
Class HostLaws (H : Host) : Prop := {
  Date_parse_toISOString : forall t : Z, Date_parse (Date_toISOString t) = t;
  Date_toISOString_nonempty : forall t : Z, Date_toISOString t <> EmptyString
}.

(** [error instanceof Error ? error.message : String(error)]. *)
Definition error_message `{Host} (e : JS.exn) : string :=
  match e with
  | JS.Error m => m
  | JS.SyntaxError s => SyntaxError_message s
  | JS.InvalidDecimalNumberError v => InvalidDecimalNumberError_message v
  | JS.TypeError m => m
  end.

(* ===================================================================== *)
(** ** Pricing engine ([PricingEngine]) *)
(* ===================================================================== *)

Module Pricing.
Import JS.

Inductive Complexity := simple | medium | complex.

Definition complexity_name (c : Complexity) : string :=
  match c with
  | simple => "simple"
  | medium => "medium"
  | complex => "complex"
  end.

(** What [toolsRequired] holds at run time: an array, or the function or
    object that [inferTools] returns for a category named like a property of
    [Object.prototype]. *)
Inductive Tools :=
| Array (tools : list string)
| NotIterable (key : string).

Record TaskAnalysis := {
  category : string;
  complexity : Complexity;
  estimatedTokens : Qc;
  toolsRequired : Tools
}.

Record PriceBreakdown := { item : string; amount : value }.

Record PriceResult := { total : value; breakdown : list PriceBreakdown }.

Definition num (n d : Z) : Qc := Q2Qc (Qmake n (Z.to_pos d)).

(** The own properties of the object literal [BASE_PRICES]. *)
Definition BASE_PRICES : gmap string Qc :=
  list_to_map
    [ ("research", num 2 1); ("website", num 15 1); ("writing", num 5 1);
      ("code", num 10 1); ("design", num 20 1); ("other", num 5 1) ].

(** [BASE_PRICES.other]. *)
Definition BASE_PRICES_other : Qc := default (num 0 1) (BASE_PRICES !! "other").

Definition COMPLEXITY_MULTIPLIERS (c : Complexity) : Qc :=
  match c with
  | simple => num 1 1
  | medium => num 3 2
  | complex => num 5 2
  end.

(** The own properties of the object literal [TOOL_COSTS]. *)
Definition TOOL_COSTS : gmap string Qc :=
  list_to_map
    [ ("playwright-mcp", num 1 2); ("exa-mcp", num 1 4); ("vercel-mcp", num 1 1);
      ("github-mcp", num 1 2); ("dalle-mcp", num 2 1); ("polymarket-mcp", num 0 1) ].

(** [BASE_PRICES[analysis.category] || BASE_PRICES.other]: a price of the
    table; for a name that the table inherits, the function or object under
    that name, which is truthy; the price of [other] for any other name. *)
Definition basePrice (category : string) : value :=
  match get BASE_PRICES category with
  | Own price => if bool_decide (price = num 0 1) then Num BASE_PRICES_other else Num price
  | Inherited key => Builtin key
  | Missing => Num BASE_PRICES_other
  end.

(** The [for] loop over the tools, on an array. A cost that the table
    inherits is truthy, but is not greater than 0. *)
Fixpoint tool_lines (tools : list string) : list PriceBreakdown :=
  match tools with
  | [] => []
  | tool :: rest =>
      match get TOOL_COSTS tool with
      | Own toolCost =>
          if bool_decide (toolCost ≠ num 0 1) && bool_decide (num 0 1 < toolCost)%Qc
          then {| item := replace "-mcp" "" tool; amount := Num toolCost |}
                 :: tool_lines rest
          else tool_lines rest
      | Inherited _ | Missing => tool_lines rest
      end
  end.

Definition tokenCost (estimatedTokens : Qc) : Qc :=
  let extraTokens := (estimatedTokens - num 4000 1)%Qc in
  (Math_round (extraTokens * num 1 10000 * num 100 1) / num 100 1)%Qc.

Definition token_lines (estimatedTokens : Qc) : list PriceBreakdown :=
  if bool_decide (num 4000 1 < estimatedTokens)%Qc then
    if bool_decide (num 0 1 < tokenCost estimatedTokens)%Qc
    then [ {| item := "extended output"; amount := Num (tokenCost estimatedTokens) |} ]
    else []
  else [].

(** The value of [sum] in the [reduce] over the breakdown: a number, or,
    from the first amount on that is a function or an object, the string
    that [+] makes of the two, which is the text of no number. *)
Inductive Sum :=
| Number (x : Qc)
| NotNumeric.

(** [sum + b.amount]. *)
Definition add (sum : Sum) (amount : value) : Sum :=
  match sum, amount with
  | Number s, Num x => Number (s + x)
  | _, _ => NotNumeric
  end.

Definition sum_amounts (b : list PriceBreakdown) : Sum :=
  fold_left (fun sum b => add sum (amount b)) b (Number (num 0 1)).

(** [Math.round(sum * 100) / 100]. *)
Definition round_cents (sum : Sum) : value :=
  match sum with
  | Number s => Num (Math_round (s * num 100 1) / num 100 1)
  | NotNumeric => NaN
  end.

(** [calculate]: the loop over [analysis.toolsRequired] throws when that is
    no array; nothing is returned then. *)
Definition calculate (analysis : TaskAnalysis) : completion PriceResult :=
  let basePrice := basePrice (category analysis) in
  let base_line := [ {| item := category analysis +:+ " base"; amount := basePrice |} ] in
  let multiplier := COMPLEXITY_MULTIPLIERS (complexity analysis) in
  let complexityAdjustment := times basePrice (Num (multiplier - num 1 1)) in
  let complexity_line :=
    if greater complexityAdjustment (num 0 1)
    then [ {| item := complexity_name (complexity analysis) +:+ " complexity";
              amount := complexityAdjustment |} ]
    else [] in
  match toolsRequired analysis with
  | NotIterable _ => Throw (TypeError "analysis.toolsRequired is not iterable")
  | Array tools =>
      let breakdown :=
        (base_line ++ complexity_line ++ tool_lines tools
                   ++ token_lines (estimatedTokens analysis))%list in
      let total := round_cents (sum_amounts breakdown) in
      let finalTotal := Math_max_value total (num 1 1) in
      Normal {| total := finalTotal; breakdown := breakdown |}
  end.

(** The own properties of the object literal [CATEGORY_TOOLS]. *)
Definition CATEGORY_TOOLS : gmap string (list string) :=
  list_to_map
    [ ("research", ["exa-mcp"]); ("website", ["playwright-mcp"; "vercel-mcp"]);
      ("writing", []); ("code", ["github-mcp"]); ("design", ["dalle-mcp"]);
      ("other", []) ].

(** [CATEGORY_TOOLS[category] || []]: an array is truthy, the empty one too,
    and so is what the table inherits. *)
Definition inferTools (category : string) : Tools :=
  match get CATEGORY_TOOLS category with
  | Own tools => Array tools
  | Inherited key => NotIterable key
  | Missing => Array []
  end.

(** [estimateTokens]: about four characters per token, three output tokens
    per input token, and a thousand more. *)
Definition estimateTokens (description : string) : Qc :=
  let inputTokens := Math_ceil (num (Z.of_nat (str_length description)) 1 / num 4 1) in
  (inputTokens * num 3 1 + num 1000 1)%Qc.

(** [/api|database|integration|deploy|custom/i.test(description)]. *)
Definition hasTechnicalTerms (description : string) : bool :=
  existsb (includes (toLowerCase description))
    ["api"; "database"; "integration"; "deploy"; "custom"].

Definition analyzeComplexity (description : string) : Complexity :=
  let wordCount := split_whitespace_length description in
  let hasMultipleRequirements :=
    includes description " and " || includes description ", " in
  if (50 <? wordCount)%nat || (hasMultipleRequirements && hasTechnicalTerms description)
  then complex
  else if (20 <? wordCount)%nat || hasMultipleRequirements || hasTechnicalTerms description
  then medium
  else simple.

Definition quickEstimate (description category : string) : completion PriceResult :=
  calculate {| category := category;
               complexity := analyzeComplexity description;
               estimatedTokens := estimateTokens description;
               toolsRequired := inferTools category |}.

End Pricing.


(* ===================================================================== *)
(** ** Unit conversion of the ledger library ([viem]: [parseUnits], [formatUnits]) *)
(* ===================================================================== *)

Module Viem.
Import JS.

Fixpoint all_digits (s : string) : bool :=
  match s with
  | EmptyString => true
  | String c s' =>
      let n := nat_of_ascii c in
      (48 <=? n)%nat && (n <=? 57)%nat && all_digits s'
  end.

(** [value.split('.')], for at most one dot: the part before the first dot
    and, when there is a dot, the part after it. *)
Fixpoint split_dot (s : string) : string * option string :=
  match s with
  | EmptyString => (EmptyString, None)
  | String c s' =>
      if Ascii.eqb c "." then (EmptyString, Some s')
      else let '(i, f) := split_dot s' in (String c i, f)
  end.

(** The test against the library's pattern for decimal numbers: an optional
    minus sign, digits, an optional dot, digits; each run of digits may be
    empty. *)
Definition is_decimal_number (value : string) : bool :=
  let unsigned := if startsWith value "-" then slice_from 1 value else value in
  let '(i, f) := split_dot unsigned in
  all_digits i && from_option all_digits true f.

(** [BigInt(s)] for a string of decimal digits ([0n] for the empty one). *)
Definition digits_value (s : string) : Z := default 0%Z (StringToBigInt s).

(** [`${BigInt(integer) + 1n}`]. *)
Definition increment (integer : string) : string := pretty (digits_value integer + 1)%Z.

(** The number that the digits [right] are as a decimal fraction. *)
Definition fraction_value (right : string) : Qc :=
  Q2Qc (Qmake (digits_value right) (Z.to_pos (10 ^ Z.of_nat (String.length right)))).

(** Half the distance between [unit + 0.5] and the double before it. *)
Definition half_gap (unit : Z) : Qc :=
  let bits :=
    (if unit =? 0 then 55 else if unit <? 2 then 53
     else if unit <? 4 then 52 else if unit <? 8 then 51 else 50)%Z in
  Q2Qc (Qmake 1 (Z.to_pos (2 ^ bits))).

(** [Math.round(Number(`${unit}.${right}`))] for a digit [unit] (or none) and
    digits [right]. [Number] is the double nearest to the decimal, a tie
    going to the even one, so that a decimal below [unit + 0.5] by no more
    than half the distance to the double before is read as [unit + 0.5];
    [Math.round] takes a half upwards. *)
Definition round_digit (unit right : string) : Z :=
  (digits_value unit +
   if bool_decide (Q2Qc (1 # 2) - half_gap (digits_value unit) <= fraction_value right)%Qc
   then 1 else 0)%Z.

(** [parseUnits(value, decimals)]: the decimal string as an integer number of
    base units, rounding the digits beyond [decimals]. *)
Definition parseUnits (value : string) (decimals : nat) : completion Z :=
  if negb (is_decimal_number value) then Throw (InvalidDecimalNumberError value)
  else
    let '(integer0, fraction0) := split_dot value in
    let negative := startsWith integer0 "-" in
    let integer := if negative then slice_from 1 integer0 else integer0 in
    let fraction := strip_trailing_zeros (default "0" fraction0) in
    let '(integer, fraction) :=
      if (decimals =? 0)%nat then
        ((if (round_digit "" fraction =? 1)%Z then increment integer else integer), "")
      else if (decimals <? String.length fraction)%nat then
        let left := slice_to (decimals - 1) fraction in
        let unit := slice_to 1 (slice_from (decimals - 1) fraction) in
        let right := slice_from decimals fraction in
        let rounded := round_digit unit right in
        let fraction1 :=
          if (9 <? rounded)%Z
          then padStart0 (String.length left + 1) (increment left +:+ "0")
          else left +:+ pretty rounded in
        let '(integer1, fraction2) :=
          if (decimals <? String.length fraction1)%nat
          then (increment integer, slice_from 1 fraction1)
          else (integer, fraction1) in
        (integer1, slice_to decimals fraction2)
      else (integer, padEnd0 decimals fraction) in
    BigInt ((if negative then "-" else "") +:+ integer +:+ fraction).

(** [formatUnits(value, decimals)]: the base units as a decimal string,
    without trailing zeros in the fraction. *)
Definition formatUnits (value : Z) (decimals : nat) : string :=
  let display := pretty value in
  let negative := startsWith display "-" in
  let display := if negative then slice_from 1 display else display in
  let display := padStart0 decimals display in
  let integer := slice_to (String.length display - decimals) display in
  let fraction := slice_from (String.length display - decimals) display in
  let fraction := strip_trailing_zeros fraction in
  (if negative then "-" else "")
    +:+ (if truthy (Some integer) then integer else "0")
    +:+ (if truthy (Some fraction) then "." +:+ fraction else "").

End Viem.

(* ===================================================================== *)
(** ** Payment verifier ([X402PaymentHandler]) *)
(* ===================================================================== *)

Module X402.
Import JS.

Inductive Network := base | base_sepolia.

Definition USDC_ADDRESSES (n : Network) : string :=
  match n with
  | base => "0x833589fCD6eDb6E08f4c7C32D4f71b54bdA02913"
  | base_sepolia => "0x036CbD53842c5426634e7929541eC2318f3dCF7e"
  end.

Definition USDC_DECIMALS : nat := 6.

(** The signature hash of [Transfer(address,address,uint256)]. *)
Definition TRANSFER_EVENT_SIGNATURE : string :=
  "0xddf252ad1be2c89b69c2b068fc378daa952ba7f163c4a11628f55a4df523b3ef".

Record Log := {
  address : string;
  topics : list string;
  data : string
}.

Inductive ReceiptStatus := success | reverted.

Record TransactionReceipt := {
  status : ReceiptStatus;
  logs : list Log
}.

Record PaymentProof := {
  txHash : string;
  proof_network : Network
}.

Record PaymentVerification := {
  valid : bool;
  sender : option string;
  amount : option string;
  error : option string
}.

(** The handler: its network, the address of its account, and the ledger
    read [publicClient.getTransactionReceipt], which returns a receipt, or
    nothing, or throws. *)
Record X402PaymentHandler := {
  network : Network;
  account_address : string;
  getTransactionReceipt : string -> completion (option TransactionReceipt)
}.

Definition usdcAddress (h : X402PaymentHandler) : string :=
  USDC_ADDRESSES (network h).

(** The predicate of [receipt.logs.find]. *)
Definition is_usdc_transfer (h : X402PaymentHandler) (log : Log) : bool :=
  bool_decide (toLowerCase (address log) = toLowerCase (usdcAddress h))
  && bool_decide (topics log !! 0%nat = Some TRANSFER_EVENT_SIGNATURE).

(** [`0x${topic?.slice(26)}`]. *)
Definition topic_address (topic : option string) : string :=
  "0x" +:+ match topic with
           | Some t => slice_from 26 t
           | None => "undefined"
           end.

Definition invalid (msg : string) : PaymentVerification :=
  {| valid := false; sender := None; amount := None; error := Some msg |}.

(** The body of the [try] block of [verifyPayment]. *)
Definition verifyPayment_try (h : X402PaymentHandler) (proof : PaymentProof)
    (expectedAmount : string) (expectedSender : option string)
  : completion PaymentVerification :=
  bind (getTransactionReceipt h (txHash proof)) (fun receipt =>
  match receipt with
  | None => Normal (invalid "Transaction not found")
  | Some receipt =>
      match status receipt with
      | reverted => Normal (invalid "Transaction failed")
      | success =>
          match List.find (is_usdc_transfer h) (logs receipt) with
          | None => Normal (invalid "No USDC transfer found in transaction")
          | Some transferLog =>
              let sender := topic_address (topics transferLog !! 1%nat) in
              let recipient := topic_address (topics transferLog !! 2%nat) in
              bind (BigInt (data transferLog)) (fun amount =>
              if bool_decide (toLowerCase recipient <> toLowerCase (account_address h))
              then Normal (invalid "Payment sent to wrong address")
              else
                bind (Viem.parseUnits expectedAmount USDC_DECIMALS) (fun expectedAmountWei =>
                if (amount <? expectedAmountWei)%Z
                then Normal (invalid ("Insufficient payment: received "
                                        +:+ Viem.formatUnits amount USDC_DECIMALS
                                        +:+ " USDC, expected " +:+ expectedAmount +:+ " USDC"))
                else if truthy expectedSender
                        && bool_decide (toLowerCase sender
                                        <> toLowerCase (default "" expectedSender))
                then Normal (invalid "Payment from unexpected sender")
                else Normal {| valid := true;
                               sender := Some sender;
                               amount := Some (Viem.formatUnits amount USDC_DECIMALS);
                               error := None |}))
          end
      end
  end).

(** [verifyPayment]: the [try] block under its [catch]. *)
Definition verifyPayment `{Host} (h : X402PaymentHandler) (proof : PaymentProof)
    (expectedAmount : string) (expectedSender : option string)
  : completion PaymentVerification :=
  try_catch (verifyPayment_try h proof expectedAmount expectedSender)
    (fun e => Normal (invalid ("Verification failed: " +:+ error_message e))).

(** *** Sending a payment

    What the two clients answer to [getBalance] and [sendPayment]: the
    balance that [readContract] reads, the hash that [writeContract] returns
    for a transfer, and the receipt that [waitForTransactionReceipt]
    resolves to; each may throw. *)
Record Clients := {
  balanceOf : string -> completion Z;
  writeContract_transfer : string -> Z -> completion string;
  waitForTransactionReceipt : string -> completion TransactionReceipt
}.

Definition getBalance (h : X402PaymentHandler) (c : Clients) : string :=
  match balanceOf c (account_address h) with
  | Normal balance => Viem.formatUnits balance USDC_DECIMALS
  | Throw _ => "0"
  end.

Record SendResult := {
  send_success : bool;
  send_txHash : option string;
  send_error : option string
}.

(** A computation of [sendPayment]: what it returns or throws, with the
    transfers it has passed to [writeContract], the first one first. *)
Definition Sending (A : Type) : Type := completion A * list (string * Z).

Definition sending_bind {A B} (m : Sending A) (k : A -> Sending B) : Sending B :=
  match m with
  | (Normal a, calls) => let '(b, calls') := k a in (b, (calls ++ calls')%list)
  | (Throw e, calls) => (Throw e, calls)
  end.

(** A call that passes nothing to [writeContract]. *)
Definition quiet {A} (c : completion A) : Sending A := (c, []).

(** [walletClient.writeContract] of a transfer. *)
Definition transfer (c : Clients) (to : string) (amountWei : Z) : Sending string :=
  (writeContract_transfer c to amountWei, [(to, amountWei)]).

(** The [try] block of [sendPayment]. *)
Definition sendPayment_try (h : X402PaymentHandler) (c : Clients) (to amount : string)
  : Sending SendResult :=
  sending_bind (quiet (Viem.parseUnits amount USDC_DECIMALS)) (fun amountWei =>
  sending_bind (quiet (balanceOf c (account_address h))) (fun balance =>
  if (balance <? amountWei)%Z
  then quiet (Normal {| send_success := false; send_txHash := None;
                        send_error := Some "Insufficient balance" |})
  else
    sending_bind (transfer c to amountWei) (fun txHash =>
    sending_bind (quiet (waitForTransactionReceipt c txHash)) (fun receipt =>
    match status receipt with
    | reverted => quiet (Normal {| send_success := false; send_txHash := None;
                                   send_error := Some "Transaction failed" |})
    | success => quiet (Normal {| send_success := true; send_txHash := Some txHash;
                                  send_error := None |})
    end)))).

(** [sendPayment]: the [try] block under its [catch]. *)
Definition sendPayment `{Host} (h : X402PaymentHandler) (c : Clients) (to amount : string)
  : Sending SendResult :=
  match sendPayment_try h c to amount with
  | (Normal r, calls) => (Normal r, calls)
  | (Throw e, calls) =>
      (Normal {| send_success := false; send_txHash := None;
                 send_error := Some ("Payment failed: " +:+ error_message e) |}, calls)
  end.

(** *** Payment requests *)

(** A payment request; its currency is the constant [USDC]. *)
Record PaymentRequest := {
  req_taskId : string;
  req_amount : string;
  req_network : Network;
  req_recipient : string;
  req_validUntil : string;
  req_description : string
}.

(** [generatePaymentRequest]: [now] is the result of its [Date.now()]. *)
Definition generatePaymentRequest `{Host} (h : X402PaymentHandler)
    (taskId amount description : string) (validMinutes now : Z) : PaymentRequest :=
  {| req_taskId := taskId;
     req_amount := amount;
     req_network := network h;
     req_recipient := account_address h;
     req_validUntil := Date_toISOString (now + validMinutes * 60 * 1000);
     req_description := description |}.

(** The link that [generatePaymentDeepLink] wraps. *)
Definition universalLink (h : X402PaymentHandler) (recipient : string) (amountWei : Z)
  : string :=
  "ethereum:" +:+ usdcAddress h +:+ "/transfer?address=" +:+ recipient
    +:+ "&uint256=" +:+ pretty amountWei.

Definition generatePaymentDeepLink (h : X402PaymentHandler) (request : PaymentRequest)
  : completion string :=
  bind (Viem.parseUnits (req_amount request) USDC_DECIMALS) (fun amountWei =>
  Normal ("https://go.cb-w.com/dapp?cb_url="
            +:+ encodeURIComponent (universalLink h (req_recipient request) amountWei)
            +:+ "&chain=base")).

End X402.

(* ===================================================================== *)
(** ** Task store and scheduler ([TaskQueue]) *)
(* ===================================================================== *)

Module Queue.
Import JS.

Inductive Status := pending_payment | paid | in_progress | completed | failed.

(** The string a status is at run time. *)
Definition status_name (s : Status) : string :=
  match s with
  | pending_payment => "pending_payment"
  | paid => "paid"
  | in_progress => "in_progress"
  | completed => "completed"
  | failed => "failed"
  end.

#[global] Instance Status_eq_dec : EqDecision Status.
Proof. solve_decision. Defined.

Inductive Channel := twitter | telegram | discord | web.

#[global] Instance Channel_eq_dec : EqDecision Channel.
Proof. solve_decision. Defined.

Record Task := {
  id : string;
  status : Status;
  channel : Channel;
  channelMessageId : string;
  senderId : string;
  senderAddress : option string;
  description : string;
  category : string;
  priceUsdc : string;
  paidTxHash : option string;
  paidAt : option Z;
  startedAt : option Z;
  completedAt : option Z;
  deliverable : option string;
  error : option string;
  createdAt : Z;
  updatedAt : Z
}.

(** [Partial<Omit<Task, 'id' | 'createdAt'>>]: [None] is a key the update
    does not have; for an optional property of [Task], [Some None] is a key
    that is present and holds [undefined]. *)
Record TaskUpdate := {
  u_status : option Status;
  u_channel : option Channel;
  u_channelMessageId : option string;
  u_senderId : option string;
  u_senderAddress : option (option string);
  u_description : option string;
  u_category : option string;
  u_priceUsdc : option string;
  u_paidTxHash : option (option string);
  u_paidAt : option (option Z);
  u_startedAt : option (option Z);
  u_completedAt : option (option Z);
  u_deliverable : option (option string);
  u_error : option (option string);
  u_updatedAt : option Z
}.

(** [{ ...existing, ...update, updatedAt: new Date() }]. *)
Definition merge (existing : Task) (update : TaskUpdate) (now : Z) : Task :=
  {| id := id existing;
     status := default (status existing) (u_status update);
     channel := default (channel existing) (u_channel update);
     channelMessageId := default (channelMessageId existing) (u_channelMessageId update);
     senderId := default (senderId existing) (u_senderId update);
     senderAddress := default (senderAddress existing) (u_senderAddress update);
     description := default (description existing) (u_description update);
     category := default (category existing) (u_category update);
     priceUsdc := default (priceUsdc existing) (u_priceUsdc update);
     paidTxHash := default (paidTxHash existing) (u_paidTxHash update);
     paidAt := default (paidAt existing) (u_paidAt update);
     startedAt := default (startedAt existing) (u_startedAt update);
     completedAt := default (completedAt existing) (u_completedAt update);
     deliverable := default (deliverable existing) (u_deliverable update);
     error := default (error existing) (u_error update);
     createdAt := createdAt existing;
     updatedAt := now |}.

(** The argument of [createTask]. *)
Record CreateData := {
  d_channel : Channel;
  d_channelMessageId : string;
  d_senderId : string;
  d_senderAddress : option string;
  d_description : string;
  d_category : string;
  d_priceUsdc : string;
  d_status : option Status
}.

(** The [Record<string, string>] that [serializeTask] builds and [hset]
    writes as one hash: its seventeen fields. The status and the channel
    are the strings of their union types. *)
Record SerializedTask := {
  s_id : string;
  s_status : Status;
  s_channel : Channel;
  s_channelMessageId : string;
  s_senderId : string;
  s_senderAddress : string;
  s_description : string;
  s_category : string;
  s_priceUsdc : string;
  s_paidTxHash : string;
  s_paidAt : string;
  s_startedAt : string;
  s_completedAt : string;
  s_deliverable : string;
  s_error : string;
  s_createdAt : string;
  s_updatedAt : string
}.

(** [x || ''] on an optional string. *)
Definition or_empty (x : option string) : string :=
  if truthy x then default "" x else "".

(** [s ? s : undefined] and [s || undefined] on a string. *)
Definition or_undefined (s : string) : option string :=
  if truthy (Some s) then Some s else None.

(** [d?.toISOString() || '']. *)
Definition date_or_empty `{Host} (d : option Z) : string :=
  or_empty (Date_toISOString <$> d).

(** [s ? new Date(s) : undefined]. *)
Definition date_or_undefined `{Host} (s : string) : option Z :=
  Date_parse <$> or_undefined s.

Definition serializeTask `{Host} (task : Task) : SerializedTask :=
  {| s_id := id task;
     s_status := status task;
     s_channel := channel task;
     s_channelMessageId := channelMessageId task;
     s_senderId := senderId task;
     s_senderAddress := or_empty (senderAddress task);
     s_description := description task;
     s_category := category task;
     s_priceUsdc := priceUsdc task;
     s_paidTxHash := or_empty (paidTxHash task);
     s_paidAt := date_or_empty (paidAt task);
     s_startedAt := date_or_empty (startedAt task);
     s_completedAt := date_or_empty (completedAt task);
     s_deliverable := or_empty (deliverable task);
     s_error := or_empty (error task);
     s_createdAt := Date_toISOString (createdAt task);
     s_updatedAt := Date_toISOString (updatedAt task) |}.

Definition deserializeTask `{Host} (data : SerializedTask) : Task :=
  {| id := s_id data;
     status := s_status data;
     channel := s_channel data;
     channelMessageId := s_channelMessageId data;
     senderId := s_senderId data;
     senderAddress := or_undefined (s_senderAddress data);
     description := s_description data;
     category := s_category data;
     priceUsdc := s_priceUsdc data;
     paidTxHash := or_undefined (s_paidTxHash data);
     paidAt := date_or_undefined (s_paidAt data);
     startedAt := date_or_undefined (s_startedAt data);
     completedAt := date_or_undefined (s_completedAt data);
     deliverable := or_undefined (s_deliverable data);
     error := or_undefined (s_error data);
     createdAt := Date_parse (s_createdAt data);
     updatedAt := Date_parse (s_updatedAt data) |}.

(** *** The backing store

    The state of the key-value server as this class uses it: the hashes
    under [task:<id>], the sets under [tasks:sender:<id>] and
    [tasks:status:<status>], and the sorted set [tasks:created]. The three
    kinds of keys have different prefixes, so each kind has its own map. A
    command that the server answers is all that is modelled: connection
    errors are not. *)
Record Redis := {
  hashes : gmap string SerializedTask;
  sets : gmap string (gset string);
  zsets : gmap string (gmap string Z)
}.

Definition hset (key : string) (value : SerializedTask) (r : Redis) : Redis :=
  {| hashes := <[key := value]> (hashes r); sets := sets r; zsets := zsets r |}.

Definition hgetall (key : string) (r : Redis) : option SerializedTask :=
  hashes r !! key.

Definition sadd (key member : string) (r : Redis) : Redis :=
  {| hashes := hashes r;
     sets := <[key := {[member]} ∪ default ∅ (sets r !! key)]> (sets r);
     zsets := zsets r |}.

(** [srem]: the server drops a key whose set becomes empty. *)
Definition srem (key member : string) (r : Redis) : Redis :=
  {| hashes := hashes r;
     sets := match sets r !! key with
             | Some s => if bool_decide (s ∖ {[member]} = ∅) then delete key (sets r)
                         else <[key := s ∖ {[member]}]> (sets r)
             | None => sets r
             end;
     zsets := zsets r |}.

Definition zadd (key : string) (score : Z) (member : string) (r : Redis) : Redis :=
  {| hashes := hashes r;
     sets := sets r;
     zsets := <[key := <[member := score]> (default ∅ (zsets r !! key))]> (zsets r) |}.

Definition scard (key : string) (r : Redis) : nat :=
  size (default ∅ (sets r !! key)).

(** [smembers]: the members, in the order the server enumerates them. *)
Definition smembers `{Host} (key : string) (r : Redis) : list string :=
  smembers_order (default ∅ (sets r !! key)).

(** *** [Set<string>]: its elements in insertion order *)

Definition set_add (x : string) (s : list string) : list string :=
  if bool_decide (x ∈ s) then s else (s ++ [x])%list.

Definition set_delete (x : string) (s : list string) : list string :=
  List.filter (fun y => bool_decide (y <> x)) s.

(** A job of the work queue: the task id and the attempts made so far. *)
Record Job := { job_taskId : string; attemptsMade : nat }.

Record TaskQueue := {
  redis : option Redis;
  queue : option (list Job);
  useInMemory : bool;
  inMemoryTasks : gmap string Task;
  inMemoryBySender : gmap string (list string);
  inMemoryByStatus : gmap string (list string);
  inMemoryQueue : list string
}.

Definition set_redis (r : Redis) (q : TaskQueue) : TaskQueue :=
  {| redis := Some r; queue := queue q; useInMemory := useInMemory q;
     inMemoryTasks := inMemoryTasks q; inMemoryBySender := inMemoryBySender q;
     inMemoryByStatus := inMemoryByStatus q; inMemoryQueue := inMemoryQueue q |}.

(** [createTask]: [uuid] is the result of [randomUUID()], [now1] and [now2]
    those of the two [new Date()], [score] that of [Date.now()]. *)
Definition createTask `{Host} (data : CreateData) (uuid : string) (now1 now2 score : Z)
    (q : TaskQueue) : Task * TaskQueue :=
  let task :=
    {| id := uuid;
       status := default pending_payment (d_status data);
       channel := d_channel data;
       channelMessageId := d_channelMessageId data;
       senderId := d_senderId data;
       senderAddress := d_senderAddress data;
       description := d_description data;
       category := d_category data;
       priceUsdc := d_priceUsdc data;
       paidTxHash := None; paidAt := None; startedAt := None; completedAt := None;
       deliverable := None; error := None;
       createdAt := now1;
       updatedAt := now2 |} in
  if useInMemory q then
    (task,
     {| redis := redis q; queue := queue q; useInMemory := useInMemory q;
        inMemoryTasks := <[id task := task]> (inMemoryTasks q);
        inMemoryBySender :=
          <[d_senderId data :=
              set_add (id task) (default [] (inMemoryBySender q !! d_senderId data))]>
            (inMemoryBySender q);
        inMemoryByStatus :=
          <[status_name (status task) :=
              set_add (id task)
                (default [] (inMemoryByStatus q !! status_name (status task)))]>
            (inMemoryByStatus q);
        inMemoryQueue := inMemoryQueue q |})
  else
    match redis q with
    | Some r =>
        let r := hset ("task:" +:+ id task) (serializeTask task) r in
        let r := sadd ("tasks:sender:" +:+ d_senderId data) (id task) r in
        let r := sadd ("tasks:status:" +:+ status_name (status task)) (id task) r in
        let r := zadd "tasks:created" score (id task) r in
        (task, set_redis r q)
    | None => (task, q)
    end.

Definition getTask `{Host} (id : string) (q : TaskQueue) : option Task :=
  if useInMemory q then inMemoryTasks q !! id
  else
    match redis q with
    | None => None
    | Some r => deserializeTask <$> hgetall ("task:" +:+ id) r
    end.

(** [update.status && update.status !== existing.status]: the new status
    when the update changes it. *)
Definition status_change (existing : Task) (update : TaskUpdate) : option Status :=
  match u_status update with
  | Some s => if bool_decide (s <> status existing) then Some s else None
  | None => None
  end.

(** [updateTask]: [now] is the result of its [new Date()]. *)
Definition updateTask `{Host} (id : string) (update : TaskUpdate) (now : Z)
    (q : TaskQueue) : option Task * TaskQueue :=
  match getTask id q with
  | None => (None, q)
  | Some existing =>
      let updated := merge existing update now in
      if useInMemory q then
        let byStatus :=
          match status_change existing update with
          | Some new_status =>
              let removed :=
                match inMemoryByStatus q !! status_name (status existing) with
                | Some s => <[status_name (status existing) := set_delete id s]>
                              (inMemoryByStatus q)
                | None => inMemoryByStatus q
                end in
              <[status_name new_status :=
                  set_add id (default [] (removed !! status_name new_status))]> removed
          | None => inMemoryByStatus q
          end in
        (Some updated,
         {| redis := redis q; queue := queue q; useInMemory := useInMemory q;
            inMemoryTasks := <[id := updated]> (inMemoryTasks q);
            inMemoryBySender := inMemoryBySender q;
            inMemoryByStatus := byStatus;
            inMemoryQueue := inMemoryQueue q |})
      else
        match redis q with
        | Some r =>
            let r :=
              match status_change existing update with
              | Some new_status =>
                  sadd ("tasks:status:" +:+ status_name new_status) id
                    (srem ("tasks:status:" +:+ status_name (status existing)) id r)
              | None => r
              end in
            (Some updated, set_redis (hset ("task:" +:+ id) (serializeTask updated) r) q)
        | None => (Some updated, q)
        end
  end.

(** [tasks.sort((a, b) => b.createdAt.getTime() - a.createdAt.getTime())]:
    newest first, tasks of one instant in their former order. *)
Fixpoint insert_by_createdAt (t : Task) (l : list Task) : list Task :=
  match l with
  | [] => [t]
  | y :: l' =>
      if (createdAt y <=? createdAt t)%Z then t :: y :: l'
      else y :: insert_by_createdAt t l'
  end.

Definition sort_by_createdAt (l : list Task) : list Task :=
  foldr insert_by_createdAt [] l.

(** The loop [for (const id of ids) { const task = get(id); if (task) tasks.push(task) }]. *)
Definition collect `{Host} (ids : list string) (q : TaskQueue) : list Task :=
  omap (fun id => getTask id q) ids.

Definition getTasksBySender `{Host} (senderId : string) (limit : nat) (q : TaskQueue)
  : list Task :=
  if useInMemory q then
    match inMemoryBySender q !! senderId with
    | None => []
    | Some taskIds => sort_by_createdAt (collect (take limit taskIds) q)
    end
  else
    match redis q with
    | None => []
    | Some r =>
        sort_by_createdAt (collect (take limit (smembers ("tasks:sender:" +:+ senderId) r)) q)
    end.

Definition getTasksByStatus `{Host} (status : Status) (limit : nat) (q : TaskQueue)
  : list Task :=
  if useInMemory q then
    match inMemoryByStatus q !! status_name status with
    | None => []
    | Some taskIds => collect (take limit taskIds) q
    end
  else
    match redis q with
    | None => []
    | Some r => collect (take limit (smembers ("tasks:status:" +:+ status_name status) r)) q
    end.

Definition enqueue (taskId : string) (q : TaskQueue) : TaskQueue :=
  if useInMemory q then
    {| redis := redis q; queue := queue q; useInMemory := useInMemory q;
       inMemoryTasks := inMemoryTasks q; inMemoryBySender := inMemoryBySender q;
       inMemoryByStatus := inMemoryByStatus q;
       inMemoryQueue := (inMemoryQueue q ++ [taskId])%list |}
  else
    {| redis := redis q;
       queue := (fun jobs => jobs ++ [ {| job_taskId := taskId; attemptsMade := 0 |} ])%list
                  <$> queue q;
       useInMemory := useInMemory q;
       inMemoryTasks := inMemoryTasks q; inMemoryBySender := inMemoryBySender q;
       inMemoryByStatus := inMemoryByStatus q; inMemoryQueue := inMemoryQueue q |}.

(** What [startProcessor] is given: a handler that changes the store and
    returns or throws. *)
Definition Handler : Type := Task -> TaskQueue -> completion unit * TaskQueue.

(** One run of the interval callback of the in-process processor. *)
Definition processTick `{Host} (handler : Handler) (q : TaskQueue) : TaskQueue :=
  match inMemoryQueue q with
  | [] => q
  | taskId :: rest =>
      let q :=
        {| redis := redis q; queue := queue q; useInMemory := useInMemory q;
           inMemoryTasks := inMemoryTasks q; inMemoryBySender := inMemoryBySender q;
           inMemoryByStatus := inMemoryByStatus q; inMemoryQueue := rest |} in
      match getTask taskId q with
      | Some task => snd (handler task q)
      | None => q
      end
  end.

Definition set_queue (jobs : list Job) (q : TaskQueue) : TaskQueue :=
  {| redis := redis q; queue := Some jobs; useInMemory := useInMemory q;
     inMemoryTasks := inMemoryTasks q; inMemoryBySender := inMemoryBySender q;
     inMemoryByStatus := inMemoryByStatus q; inMemoryQueue := inMemoryQueue q |}.

(** A failed job is tried again until [attempts: 3] are made. *)
Definition retry (job : Job) (q : TaskQueue) : TaskQueue :=
  if (S (attemptsMade job) <? 3)%nat then
    set_queue (default [] (queue q)
                 ++ [ {| job_taskId := job_taskId job;
                         attemptsMade := S (attemptsMade job) |} ])%list q
  else q.

(** One job taken by the worker of the work queue. *)
Definition workerStep `{Host} (handler : Handler) (q : TaskQueue) : TaskQueue :=
  match queue q with
  | Some (job :: rest) =>
      let q := set_queue rest q in
      match getTask (job_taskId job) q with
      | None => retry job q
      | Some task =>
          match handler task q with
          | (Normal _, q') => q'
          | (Throw _, q') => retry job q'
          end
      end
  | _ => q
  end.

Record Stats := {
  n_pending : nat;
  n_paid : nat;
  n_inProgress : nat;
  n_completed : nat;
  n_failed : nat
}.

Definition getStats (q : TaskQueue) : Stats :=
  if useInMemory q then
    let count s := length (default [] (inMemoryByStatus q !! status_name s)) in
    {| n_pending := count pending_payment; n_paid := count paid;
       n_inProgress := count in_progress; n_completed := count completed;
       n_failed := count failed |}
  else
    match redis q with
    | None => {| n_pending := 0; n_paid := 0; n_inProgress := 0;
                 n_completed := 0; n_failed := 0 |}
    | Some r =>
        let count s := scard ("tasks:status:" +:+ status_name s) r in
        {| n_pending := count pending_payment; n_paid := count paid;
           n_inProgress := count in_progress; n_completed := count completed;
           n_failed := count failed |}
    end.

End Queue.

(* ===================================================================== *)
(** ** Orchestrator ([AgentCore]) *)
(* ===================================================================== *)

Module Core.
Import JS Queue.

Record IncomingMessage := {
  msg_channel : Channel;
  msg_channelMessageId : string;
  msg_senderId : string;
  msg_senderAddress : option string;
  content : string;
  replyTo : option string
}.

Record AgentResponse := {
  r_content : string;
  r_taskId : option string
}.

Record SkillContext := {
  ctx_taskId : string;
  ctx_description : string;
  ctx_category : string
}.

Record SkillResult := {
  success : bool;
  result_deliverable : string;
  approach : string
}.

(** A skill: what its [execute] resolves to, or what it rejects with. *)
Record Skill := { execute : SkillContext -> completion SkillResult }.

(** The argument of [memory.store]. *)
Record MemoryData := {
  m_content : string;
  m_taskId : string;
  m_category : string;
  m_success : bool
}.

(** The argument of [a2a.shareLearning]; its confidence is the constant 0.8. *)
Record Learning := {
  l_category : string;
  l_insight : string
}.

(** The collaborators of the orchestrator; the task queue is the state
    its methods run on. *)
Record AgentCore := {
  payments : X402.X402PaymentHandler;
  skills : gmap string Skill;
  memory_store : MemoryData -> completion unit;
  a2a_shareLearning : Learning -> completion unit
}.

(** [SkillRegistry.getSkill]. *)
Definition getSkill (a : AgentCore) (category : string) : option Skill :=
  match skills a !! category with
  | Some skill => Some skill
  | None => skills a !! "other"
  end.

(** Computations that change the task queue and return or throw. *)
Definition M (A : Type) : Type := TaskQueue -> completion A * TaskQueue.

Definition ret {A} (a : A) : M A := fun q => (Normal a, q).

Definition throw {A} (e : exn) : M A := fun q => (Throw e, q).

Definition mbind {A B} (m : M A) (k : A -> M B) : M B :=
  fun q =>
    match m q with
    | (Normal a, q') => k a q'
    | (Throw e, q') => (Throw e, q')
    end.

(** [await] of a collaborator, which does not touch the queue. *)
Definition await {A} (c : completion A) : M A := fun q => (c, q).

(** [try { body } catch (error) { handler error }]. *)
Definition try_catch_m {A} (body : M A) (handler : exn -> M A) : M A :=
  fun q =>
    match body q with
    | (Normal a, q') => (Normal a, q')
    | (Throw e, q') => handler e q'
    end.

Notation "'do' x <- m ; k" := (mbind m (fun x => k))
  (at level 10, x pattern, m at level 100, k at level 200).

Definition updateTaskM `{Host} (id : string) (update : TaskUpdate) (now : Z)
  : M (option Task) :=
  fun q => let r := updateTask id update now q in (Normal r.1, r.2).

Definition enqueueM (taskId : string) : M unit :=
  fun q => (Normal tt, enqueue taskId q).

(** The object literals that the orchestrator passes to [updateTask]. *)
Definition update_paid (txHash : string) (paidAt : Z) (sender : option string)
  : TaskUpdate :=
  {| u_status := Some paid; u_channel := None; u_channelMessageId := None;
     u_senderId := None; u_senderAddress := Some sender; u_description := None;
     u_category := None; u_priceUsdc := None;
     u_paidTxHash := Some (Some txHash); u_paidAt := Some (Some paidAt);
     u_startedAt := None; u_completedAt := None; u_deliverable := None;
     u_error := None; u_updatedAt := None |}.

Definition update_started (startedAt : Z) : TaskUpdate :=
  {| u_status := Some in_progress; u_channel := None; u_channelMessageId := None;
     u_senderId := None; u_senderAddress := None; u_description := None;
     u_category := None; u_priceUsdc := None; u_paidTxHash := None; u_paidAt := None;
     u_startedAt := Some (Some startedAt); u_completedAt := None;
     u_deliverable := None; u_error := None; u_updatedAt := None |}.

Definition update_completed (completedAt : Z) (deliverable : string) : TaskUpdate :=
  {| u_status := Some completed; u_channel := None; u_channelMessageId := None;
     u_senderId := None; u_senderAddress := None; u_description := None;
     u_category := None; u_priceUsdc := None; u_paidTxHash := None; u_paidAt := None;
     u_startedAt := None; u_completedAt := Some (Some completedAt);
     u_deliverable := Some (Some deliverable); u_error := None; u_updatedAt := None |}.

Definition update_failed (error : string) : TaskUpdate :=
  {| u_status := Some failed; u_channel := None; u_channelMessageId := None;
     u_senderId := None; u_senderAddress := None; u_description := None;
     u_category := None; u_priceUsdc := None; u_paidTxHash := None; u_paidAt := None;
     u_startedAt := None; u_completedAt := None; u_deliverable := None;
     u_error := Some (Some error); u_updatedAt := None |}.

(** The success reply of [handlePaymentVerification]. *)
Definition payment_verified_reply (taskId priceUsdc txHash : string) : string :=
  "✅ Payment verified! Your task is now in queue.

Task ID: " +:+ taskId +:+ "
Amount: " +:+ priceUsdc +:+ " USDC
TX: " +:+ slice_text 10 txHash +:+ "...

I'll get started right away and reply when done!".

(** [handlePaymentVerification]: [now1] is the [new Date()] of [paidAt],
    [now2] that of [updateTask]. *)
Definition handlePaymentVerification `{Host} (a : AgentCore) (message : IncomingMessage)
    (now1 now2 : Z) : M AgentResponse :=
  let parts := split ":" (content message) in
  if (length parts <? 3)%nat then
    ret {| r_content := "Invalid payment verification format."; r_taskId := None |}
  else
    let taskId := default "" (parts !! 1%nat) in
    let txHash := default "" (parts !! 2%nat) in
    fun q =>
      match getTask taskId q with
      | None => ret {| r_content := "Task " +:+ taskId +:+ " not found.";
                       r_taskId := None |} q
      | Some task =>
          (do verification <-
             await (X402.verifyPayment (payments a)
                      {| X402.txHash := txHash; X402.proof_network := X402.base |}
                      (priceUsdc task) None);
           if negb (X402.valid verification) then
             ret {| r_content := "Payment verification failed: "
                                   +:+ default "undefined" (X402.error verification);
                    r_taskId := None |}
           else
             do _ <- updateTaskM taskId
                       (update_paid txHash now1 (X402.sender verification)) now2;
             do _ <- enqueueM taskId;
             ret {| r_content := payment_verified_reply taskId (priceUsdc task) txHash;
                    r_taskId := Some taskId |}) q
      end.

(** The instants read by one run of [executeTask]: [startedAt] and the
    first [updateTask], [completedAt] and the second, and the [updateTask]
    of the [catch] block. *)
Record ExecTimes := {
  t_startedAt : Z;
  t_update1 : Z;
  t_completedAt : Z;
  t_update2 : Z;
  t_update3 : Z
}.

Definition skill_context (task : Task) : SkillContext :=
  {| ctx_taskId := id task;
     ctx_description := description task;
     ctx_category := category task |}.

(** What [executeTask] stores in memory and shares after a completion. *)
Definition outcome_memory (task : Task) (result : SkillResult) : MemoryData :=
  {| m_content := "Completed " +:+ category task +:+ " task: "
                    +:+ slice_text 100 (description task)
                    +:+ ". Approach: " +:+ approach result;
     m_taskId := id task;
     m_category := category task;
     m_success := true |}.

Definition outcome_learning (task : Task) (result : SkillResult) : Learning :=
  {| l_category := category task; l_insight := approach result |}.

Definition no_skill (task : Task) : exn :=
  Error ("No skill found for category: " +:+ category task).

(** The [try] block of [executeTask]. The constant [config.a2a.endpoint] is
    a non-empty string, so the learning is always shared. *)
Definition executeTask_try `{Host} (a : AgentCore) (task : Task) (t : ExecTimes) : M unit :=
  do _ <- updateTaskM (id task) (update_started (t_startedAt t)) (t_update1 t);
  match getSkill a (category task) with
  | None => throw (no_skill task)
  | Some skill =>
      do result <- await (execute skill (skill_context task));
      do _ <- updateTaskM (id task)
                (update_completed (t_completedAt t) (result_deliverable result))
                (t_update2 t);
      do _ <- await (memory_store a (outcome_memory task result));
      await (a2a_shareLearning a (outcome_learning task result))
  end.

(** [executeTask]: the [try] block under its [catch]. *)
Definition executeTask `{Host} (a : AgentCore) (task : Task) (t : ExecTimes) : M unit :=
  try_catch_m (executeTask_try a task t)
    (fun e =>
       do _ <- updateTaskM (id task) (update_failed (error_message e)) (t_update3 t);
       ret tt).

(** The operations that reach a task once it exists: a payment message, a
    direct run of [executeTask], and one step of either processor, whose
    handler is [executeTask] ([index.ts]). *)
Inductive Op :=
| Payment (message : IncomingMessage) (now1 now2 : Z)
| Execute (task : Task) (t : ExecTimes)
| Tick (t : ExecTimes)
| Work (t : ExecTimes).

Definition step `{Host} (a : AgentCore) (op : Op) (q : TaskQueue) : TaskQueue :=
  match op with
  | Payment message now1 now2 => snd (handlePaymentVerification a message now1 now2 q)
  | Execute task t => snd (executeTask a task t q)
  | Tick t => processTick (fun task => executeTask a task t) q
  | Work t => workerStep (fun task => executeTask a task t) q
  end.

(** A sequence of operations, the first one first. *)
Definition run `{Host} (a : AgentCore) (ops : list Op) (q : TaskQueue) : TaskQueue :=
  fold_left (fun q op => step a op q) ops q.

(** *** Incoming messages

    What the language model answers, and how the host writes a date in a
    template. [analyzeIntent] is the call of the model with the parsing of
    its answer; [answerQuestion] and [converse] are what [handleQuestion]
    and [handleConversation] get from the memory and the model; each may
    throw. *)

(** The parsed answer of [analyzeIntent]: whatever JSON the model wrote. *)
Record Intent := {
  intent_type : string;
  intent_category : option string;
  intent_complexity : option string;
  intent_details : option string
}.

Record World := {
  analyzeIntent : string -> completion Intent;
  generateBountyResponse : Intent -> Pricing.PriceResult -> completion string;
  answerQuestion : IncomingMessage -> completion string;
  converse : IncomingMessage -> completion string;
  Date_toString : Z -> string
}.

(** The values that one run of [handleMessage] reads from outside: the
    [randomUUID()], the two [new Date()] and the [Date.now()] of
    [createTask], the [Date.now()] of [generatePaymentRequest], and the two
    [new Date()] of a payment verification. *)
Record Clock := {
  c_uuid : string;
  c_createdAt : Z;
  c_updatedAt : Z;
  c_score : Z;
  c_request : Z;
  c_paidAt : Z;
  c_paidUpdate : Z
}.

(** The property [requiresPayment] of an [AgentResponse]. *)
Record PaymentRequired := {
  pr_taskId : string;
  pr_amount : string;
  pr_paymentUrl : string
}.

(** An [AgentResponse] with its optional [requiresPayment]. *)
Record Reply := {
  response : AgentResponse;
  requiresPayment : option PaymentRequired
}.

Definition plain (r : AgentResponse) : Reply :=
  {| response := r; requiresPayment := None |}.

(** [x || y] on an optional string. *)
Definition or_else (x : option string) (y : string) : string :=
  if truthy x then default "" x else y.

(** [(intent.complexity as ...) || 'medium'] as [calculate] reads it. For a
    value that the table of multipliers does not have, the multiplier is
    [undefined], or a function or object that the table inherits, and the
    adjustment is [NaN], which adds no line: the result of [calculate] is
    that of [simple]. *)
Definition complexity_of (c : option string) : Pricing.Complexity :=
  match or_else c "medium" with
  | "medium" => Pricing.medium
  | "complex" => Pricing.complex
  | _ => Pricing.simple
  end.

(** The price that [handleBountyRequest] calculates, when [calculate]
    returns one. *)
Definition quote (intent : Intent) : completion Pricing.PriceResult :=
  let category := or_else (intent_category intent) "other" in
  Pricing.calculate
    {| Pricing.category := category;
       Pricing.complexity := complexity_of (intent_complexity intent);
       Pricing.estimatedTokens := Pricing.num 2000 1;
       Pricing.toolsRequired := Pricing.inferTools category |}.

Definition breakdown_line (b : Pricing.PriceBreakdown) : string :=
  "  • " +:+ Pricing.item b +:+ ": $" +:+ value_toString (Pricing.amount b).

Definition bounty_content (responseContent : string) (price : Pricing.PriceResult)
    (paymentUrl taskId : string) : string :=
  responseContent +:+ "

💰 **Price: " +:+ value_toString (Pricing.total price) +:+ " USDC**

" +:+ join "
" (breakdown_line <$> Pricing.breakdown price) +:+ "

[Pay Now](" +:+ paymentUrl +:+ ")

_Task ID: " +:+ taskId +:+ "_".

Definition handleBountyRequest `{Host} (w : World) (a : AgentCore)
    (message : IncomingMessage) (intent : Intent) (c : Clock) : M Reply :=
  do price <- await (quote intent);
  let amount := value_toString (Pricing.total price) in
  fun q =>
    let '(task, q) :=
      createTask
        {| d_channel := msg_channel message;
           d_channelMessageId := msg_channelMessageId message;
           d_senderId := msg_senderId message;
           d_senderAddress := msg_senderAddress message;
           d_description := content message;
           d_category := or_else (intent_category intent) "other";
           d_priceUsdc := amount;
           d_status := Some pending_payment |}
        (c_uuid c) (c_createdAt c) (c_updatedAt c) (c_score c) q in
    let paymentRequest :=
      X402.generatePaymentRequest (payments a) (id task) amount
        (or_else (intent_details intent) (slice_text 100 (content message)))
        30 (c_request c) in
    (do paymentUrl <- await (X402.generatePaymentDeepLink (payments a) paymentRequest);
     do responseContent <- await (generateBountyResponse w intent price);
     ret {| response :=
              {| r_content := bounty_content responseContent price paymentUrl (id task);
                 r_taskId := Some (id task) |};
            requiresPayment :=
              Some {| pr_taskId := id task; pr_amount := amount;
                      pr_paymentUrl := paymentUrl |} |}) q.

(** The characters of [[a-f0-9-]] without regard to case. *)
Definition is_id_char (c : ascii) : bool :=
  let n := nat_of_ascii c in
  ((48 <=? n)%nat && (n <=? 57)%nat) || ((97 <=? n)%nat && (n <=? 102)%nat)
  || ((65 <=? n)%nat && (n <=? 70)%nat) || (n =? 45)%nat.

Fixpoint all_id_chars (s : string) : bool :=
  match s with
  | EmptyString => true
  | String c s' => is_id_char c && all_id_chars s'
  end.

(** [content.match(/[a-f0-9-]{36}/i)]: the first run of 36 such characters. *)
Fixpoint match_task_id (s : string) : option string :=
  let candidate := slice_to 36 s in
  if (String.length candidate =? 36)%nat && all_id_chars candidate then Some candidate
  else match s with
       | EmptyString => None
       | String _ s' => match_task_id s'
       end.

Definition status_line (t : Task) : string :=
  "• " +:+ slice_text 8 (id t) +:+ "... - " +:+ status_name (status t) +:+ " - "
    +:+ slice_text 50 (description t) +:+ "...".

Definition status_content (w : World) (task : Task) : string :=
  "**Task Status: " +:+ status_name (status task) +:+ "**

ID: " +:+ id task +:+ "
Created: " +:+ Date_toString w (createdAt task) +:+ "
Description: " +:+ slice_text 100 (description task) +:+ "...
Price: " +:+ priceUsdc task +:+ " USDC
" +:+ match paidAt task with
      | Some paidAt => "Paid: " +:+ Date_toString w paidAt
      | None => "Payment: Pending"
      end +:+ "
" +:+ match completedAt task with
      | Some completedAt => "Completed: " +:+ Date_toString w completedAt
      | None => ""
      end.

Definition handleStatusCheck `{Host} (w : World) (message : IncomingMessage)
  : M AgentResponse :=
  fun q =>
    match match_task_id (content message) with
    | None =>
        match getTasksBySender (msg_senderId message) 10 q with
        | [] =>
            ret {| r_content :=
                     "You don't have any active tasks. Tag me with a request to get started!";
                   r_taskId := None |} q
        | tasks =>
            ret {| r_content := "Your recent tasks:

" +:+ join "
" (status_line <$> take 5 tasks);
                   r_taskId := None |} q
        end
    | Some taskId =>
        match getTask taskId q with
        | None => ret {| r_content := "Task " +:+ taskId +:+ " not found.";
                         r_taskId := None |} q
        | Some task => ret {| r_content := status_content w task;
                              r_taskId := Some (id task) |} q
        end
    end.

Definition handleMessage `{Host} (w : World) (a : AgentCore) (message : IncomingMessage)
    (c : Clock) : M Reply :=
  if startsWith (content message) "PAYMENT:" then
    do r <- handlePaymentVerification a message (c_paidAt c) (c_paidUpdate c);
    ret (plain r)
  else if includes (toLowerCase (content message)) "status" then
    do r <- handleStatusCheck w message;
    ret (plain r)
  else
    do intent <- await (analyzeIntent w (content message));
    if bool_decide (intent_type intent = "bounty_request") then
      handleBountyRequest w a message intent c
    else if bool_decide (intent_type intent = "question") then
      do text <- await (answerQuestion w message);
      ret (plain {| r_content := text; r_taskId := None |})
    else
      do text <- await (converse w message);
      ret (plain {| r_content := text; r_taskId := None |}).

End Core.

(* ===================================================================== *)
(** ** Skill registry ([SkillRegistry]) *)
(* ===================================================================== *)

Module Registry.
Import JS.

(** The [Skill] interface; what its [execute] does is the skill's own. *)
Record Skill := {
  name : string;
  categories : list string;
  execute : Core.SkillContext -> completion Core.SkillResult
}.

(** A [Map<string, V>]: its entries in insertion order. [set] on a key that
    is present keeps the place of the entry. *)
Fixpoint Map_set {V} (k : string) (v : V) (m : list (string * V)) : list (string * V) :=
  match m with
  | [] => [(k, v)]
  | (k', v') :: m' =>
      if bool_decide (k' = k) then (k, v) :: m' else (k', v') :: Map_set k v m'
  end.

Fixpoint Map_get {V} (k : string) (m : list (string * V)) : option V :=
  match m with
  | [] => None
  | (k', v') :: m' => if bool_decide (k' = k) then Some v' else Map_get k m'
  end.

Definition SkillRegistry : Type := list (string * Skill).

Definition register (skill : Skill) (skills : SkillRegistry) : SkillRegistry :=
  fold_left (fun m category => Map_set category skill m) (categories skill) skills.

(** The four built-in skills, each with its [execute]. *)
Definition ResearchSkill (run : Core.SkillContext -> completion Core.SkillResult) : Skill :=
  {| name := "research"; categories := ["research"; "analysis"]; execute := run |}.

Definition WebsiteSkill (run : Core.SkillContext -> completion Core.SkillResult) : Skill :=
  {| name := "website"; categories := ["website"; "design"]; execute := run |}.

Definition WritingSkill (run : Core.SkillContext -> completion Core.SkillResult) : Skill :=
  {| name := "writing"; categories := ["writing"; "content"; "copywriting"];
     execute := run |}.

Definition CodeSkill (run : Core.SkillContext -> completion Core.SkillResult) : Skill :=
  {| name := "code"; categories := ["code"; "programming"; "debug"; "other"];
     execute := run |}.

Definition loadSkills (research website writing code : Skill) (skills : SkillRegistry)
  : SkillRegistry :=
  register code (register writing (register website (register research skills))).

Definition getSkill (skills : SkillRegistry) (category : string) : option Skill :=
  match Map_get category skills with
  | Some skill => Some skill
  | None => Map_get "other" skills
  end.

(** [listSkills]: the loop over the values with its set of names seen. *)
Definition listSkills (skills : SkillRegistry) : list (string * list string) :=
  (fold_left
     (fun '(seen, result) skill =>
        if bool_decide (name skill ∈ seen) then (seen, result)
        else (Queue.set_add (name skill) seen,
              result ++ [(name skill, categories skill)])%list)
     skills.*2 ([], [])).2.

(** [count]: the size of the set of the names. *)
Definition count (skills : SkillRegistry) : nat :=
  length (fold_left (fun seen skill => Queue.set_add (name skill) seen) skills.*2 []).

(** The registry as the orchestrator reads it. *)
Definition as_core (skills : SkillRegistry) : gmap string Core.Skill :=
  list_to_map (prod_map Datatypes.id (fun s => {| Core.execute := execute s |})
                 <$> skills).

End Registry.

(* ===================================================================== *)
(** ** Web channel ([WebChannel]) *)
(* ===================================================================== *)

Module Web.
Import JS Queue Core.

(** The JSON body of [POST /payment/verify]; its members are strings when
    they are present. *)
Record VerifyBody := {
  body_taskId : option string;
  body_txHash : option string;
  body_sender : option string
}.

(** What the route answers: an error with its status, or the result of the
    verification with status 200. *)
Inductive VerifyResponse :=
| VerifyError (status : nat) (error : string)
| VerifyResult (verified : bool) (message : string) (taskId : option string).

(** The message that the route hands to the orchestrator;
    [channelMessageId] is the result of its [randomUUID()]. *)
Definition verify_message (body : VerifyBody) (channelMessageId : string)
  : IncomingMessage :=
  {| msg_channel := web;
     msg_channelMessageId := channelMessageId;
     msg_senderId := or_else (body_sender body) "anonymous";
     msg_senderAddress := body_sender body;
     content := "PAYMENT:" +:+ default "" (body_taskId body) +:+ ":"
                  +:+ default "" (body_txHash body);
     replyTo := None |}.

(** The handler of [POST /payment/verify]. *)
Definition payment_verify `{Host} (w : World) (a : AgentCore) (body : VerifyBody)
    (channelMessageId : string) (c : Clock) (q : TaskQueue)
  : VerifyResponse * TaskQueue :=
  if negb (truthy (body_taskId body)) || negb (truthy (body_txHash body))
  then (VerifyError 400 "taskId and txHash are required", q)
  else
    match handleMessage w a (verify_message body channelMessageId) c q with
    | (Normal reply, q') =>
        (VerifyResult (includes (r_content (response reply)) "verified")
           (r_content (response reply)) (r_taskId (response reply)), q')
    | (Throw _, q') => (VerifyError 500 "Internal server error", q')
    end.

End Web.

(* ===================================================================== *)
(** ** A reference host *)
(* ===================================================================== *)

(** A host on which the model runs on concrete inputs. It writes a time value
    as a sign followed by its binary digits, the least significant first,
    words the two library errors as the engine does, and enumerates a set in
    the order of [elements]. *)
Module ReferenceHost.

Fixpoint encode_pos (p : positive) : string :=
  match p with
  | xH => "1"
  | xO p' => String "0" (encode_pos p')
  | xI p' => String "1" (encode_pos p')
  end.

Fixpoint decode_pos (s : string) : positive :=
  match s with
  | String "0" r => xO (decode_pos r)
  | String "1" EmptyString => xH
  | String "1" r => xI (decode_pos r)
  | _ => xH
  end.

Definition encode (t : Z) : string :=
  match t with
  | Z0 => "0"
  | Zpos p => String "+" (encode_pos p)
  | Zneg p => String "-" (encode_pos p)
  end.

Definition decode (s : string) : Z :=
  match s with
  | String "+" r => Zpos (decode_pos r)
  | String "-" r => Zneg (decode_pos r)
  | _ => Z0
  end.

#[global] Instance host : Host := {
  Date_toISOString := encode;
  Date_parse := decode;
  SyntaxError_message := fun s => "Cannot convert " +:+ s +:+ " to a BigInt";
  InvalidDecimalNumberError_message :=
    fun v => "Number `" +:+ v +:+ "` is not a valid decimal number.";
  smembers_order := elements
}.

End ReferenceHost.

(* ===================================================================== *)
(** ** Sample ledger data *)
(* ===================================================================== *)

Module Sample.
Import JS X402.

Definition agent : string := "0x1111111111111111111111111111111111111111".
Definition payer : string := "0x2222222222222222222222222222222222222222".
Definition stranger : string := "0x3333333333333333333333333333333333333333".

(** An address as an indexed topic: padded on the left to 32 bytes. *)
Definition topic (addr : string) : string :=
  "0x000000000000000000000000" +:+ slice_from 2 addr.

(** 5.00 and 4.99 of the stablecoin in base units, as 32-byte words. *)
Definition word_5_00 : string :=
  "0x00000000000000000000000000000000000000000000000000000000004c4b40".
Definition word_4_99 : string :=
  "0x00000000000000000000000000000000000000000000000000000000004c2430".

(** A [Transfer] log of the stablecoin contract, as a node reports it. *)
Definition transfer (from to word : string) : Log :=
  {| address := "0x833589fcd6edb6e08f4c7c32d4f71b54bda02913";
     topics := [TRANSFER_EVENT_SIGNATURE; topic from; topic to];
     data := word |}.

(** A log of another contract. *)
Definition unrelated : Log :=
  {| address := "0x4200000000000000000000000000000000000006";
     topics := [TRANSFER_EVENT_SIGNATURE; topic payer; topic agent];
     data := word_5_00 |}.

Definition tx : string := "0xaaaa".
Definition tx2 : string := "0xbbbb".

(** A handler on the main network whose ledger knows two transactions,
    both with the given logs. *)
Definition handler (logs : list Log) : X402PaymentHandler :=
  {| network := base;
     account_address := agent;
     getTransactionReceipt := fun hash =>
       if bool_decide (hash = tx \/ hash = tx2)
       then Normal (Some {| status := success; logs := logs |})
       else Normal None |}.

Definition proof : PaymentProof := {| txHash := tx; proof_network := base |}.

End Sample.

(* ===================================================================== *)
(** ** Sample stores, collaborators and messages *)
(* ===================================================================== *)

Module Scenario.
Import JS Queue Core.

(** The store in fallback mode, empty. *)
Definition empty_memory : TaskQueue :=
  {| redis := None; queue := None; useInMemory := true;
     inMemoryTasks := ∅; inMemoryBySender := ∅; inMemoryByStatus := ∅;
     inMemoryQueue := [] |}.

(** The store connected to an empty backing store. *)
Definition empty_redis : TaskQueue :=
  {| redis := Some {| hashes := ∅; sets := ∅; zsets := ∅ |};
     queue := Some []; useInMemory := false;
     inMemoryTasks := ∅; inMemoryBySender := ∅; inMemoryByStatus := ∅;
     inMemoryQueue := [] |}.

Definition task_id : string := "7c9e6679-7425-40de-944b-e07fc1f90ae7".


Definition request : CreateData :=
  {| d_channel := web; d_channelMessageId := "m-1"; d_senderId := "anonymous";
     d_senderAddress := None; d_description := "Summarise the x402 protocol";
     d_category := "research"; d_priceUsdc := "5"; d_status := Some pending_payment |}.

(** The message [PAYMENT:<task id>:<transaction hash>]. *)
Definition payment_message (txHash : string) : IncomingMessage :=
  {| msg_channel := web; msg_channelMessageId := "m-2"; msg_senderId := "anonymous";
     msg_senderAddress := None;
     content := "PAYMENT:" +:+ task_id +:+ ":" +:+ txHash;
     replyTo := None |}.

Definition report : SkillResult :=
  {| success := true; result_deliverable := "The report"; approach := "web search" |}.

(** An orchestrator whose ledger holds a payment with the given logs, with
    the given research skill and memory store. *)
Definition core_with (logs : list X402.Log)
    (research : SkillContext -> completion SkillResult)
    (store : MemoryData -> completion unit) : AgentCore :=
  {| payments := Sample.handler logs;
     skills := {[ "research" := {| execute := research |} ]};
     memory_store := store;
     a2a_shareLearning := fun _ => Normal tt |}.

(** The ledger holds a payment of 5.00 to the agent. *)
Definition core := core_with [Sample.transfer Sample.payer Sample.agent Sample.word_5_00].

(** The ledger holds a payment of 4.99 to the agent. *)
Definition core_underpaid :=
  core_with [Sample.transfer Sample.payer Sample.agent Sample.word_4_99].

Definition skill_ok : SkillContext -> completion SkillResult := fun _ => Normal report.
Definition skill_fails : SkillContext -> completion SkillResult :=
  fun _ => Throw (Error "model overloaded").
Definition store_ok : MemoryData -> completion unit := fun _ => Normal tt.
Definition store_fails : MemoryData -> completion unit :=
  fun _ => Throw (Error "memory store unavailable").

(** The store after the request was accepted, in either mode. *)
Definition requested `{Host} (q : TaskQueue) : TaskQueue :=
  (createTask request task_id 1000 1000 1000 q).2.

Definition times (t : Z) : ExecTimes :=
  {| t_startedAt := t; t_update1 := t + 1; t_completedAt := t + 2;
     t_update2 := t + 3; t_update3 := t + 4 |}.

(** A model that finds a simple research bounty in every message, and the
    values read from outside while the request of the scenario is handled. *)
Definition research_intent : Intent :=
  {| intent_type := "bounty_request"; intent_category := Some "research";
     intent_complexity := Some "simple"; intent_details := Some "A summary of x402" |}.

Definition world : World :=
  {| analyzeIntent := fun _ => Normal research_intent;
     generateBountyResponse := fun _ _ => Normal "I will write a summary with sources.";
     answerQuestion := fun _ => Normal "I take bounties paid in USDC.";
     converse := fun _ => Normal "Hello!";
     Date_toString := fun t => pretty t |}.

Definition bounty_message : IncomingMessage :=
  {| msg_channel := web; msg_channelMessageId := "m-1"; msg_senderId := "anonymous";
     msg_senderAddress := None; content := "Summarise the x402 protocol";
     replyTo := None |}.

Definition clock : Clock :=
  {| c_uuid := task_id; c_createdAt := 1000; c_updatedAt := 1000; c_score := 1000;
     c_request := 1000; c_paidAt := 2000; c_paidUpdate := 2001 |}.

End Scenario.

(* ===================================================================== *)
(** ** Specification-level notions *)
(* ===================================================================== *)

(** The sum of a list of numbers. *)
Definition sum_list (l : list Qc) : Qc := foldr Qcplus (Pricing.num 0 1) l.


(** An optional text property is populated when it holds a non-empty string. *)
Definition populated (x : option string) : Prop := JS.truthy x = true.

(** What [getTask] returns for a task that was just written: the task
    itself in process, and what survives the hash in the backing store. *)
Definition observed `{Host} (q : Queue.TaskQueue) (t : Queue.Task) : Queue.Task :=
  if Queue.useInMemory q then t else Queue.deserializeTask (Queue.serializeTask t).

(** A run of [updateTask] calls on one task, the first one first. *)
Definition apply_updates `{Host} (id : string) (us : list (Queue.TaskUpdate * Z))
    (q : Queue.TaskQueue) : Queue.TaskQueue :=
  fold_left (fun q u => (Queue.updateTask id u.1 u.2 q).2) us q.

(** The updates that [executeTask] makes. *)
Definition execution_update (u : Queue.TaskUpdate) : Prop :=
  (exists startedAt, u = Core.update_started startedAt)
  \/ (exists completedAt deliverable, u = Core.update_completed completedAt deliverable)
  \/ (exists error, u = Core.update_failed error).

(** The updates that end a run of [executeTask]. *)
Definition final_update (u : Queue.TaskUpdate) : Prop :=
  (exists completedAt deliverable, u = Core.update_completed completedAt deliverable)
  \/ (exists error, u = Core.update_failed error).

(** The updates an operation of the orchestrator makes. *)
Definition update_of (op : Core.Op) (u : Queue.TaskUpdate) : Prop :=
  match op with
  | Core.Payment _ _ _ => exists txHash paidAt sender, u = Core.update_paid txHash paidAt sender
  | _ => execution_update u
  end.

(** Every task of [q] is still a task of [q'], and [P] relates the two
    records. *)
Definition preserves `{Host} (P : Queue.Task -> Queue.Task -> Prop)
    (q q' : Queue.TaskQueue) : Prop :=
  forall id t, Queue.getTask id q = Some t ->
               exists t', Queue.getTask id q' = Some t' /\ P t t'.

(** *** The two modes of the task store compared *)

(** A call of one of the six operations of the task store, with the values
    that [randomUUID], [new Date] and [Date.now] return in it. *)
Inductive StoreOp :=
| OpCreate (data : Queue.CreateData) (uuid : string) (now1 now2 score : Z)
| OpGet (id : string)
| OpUpdate (id : string) (update : Queue.TaskUpdate) (now : Z)
| OpBySender (senderId : string) (limit : nat)
| OpByStatus (status : Queue.Status) (limit : nat)
| OpStats.

(** What the caller of an operation sees. *)
Inductive Observation :=
| ObsTask (t : Queue.Task)
| ObsLookup (t : option Queue.Task)
| ObsList (l : list Queue.Task)
| ObsStats (s : Queue.Stats).

Definition perform `{Host} (op : StoreOp) (q : Queue.TaskQueue)
  : Observation * Queue.TaskQueue :=
  match op with
  | OpCreate data uuid now1 now2 score =>
      let r := Queue.createTask data uuid now1 now2 score q in (ObsTask r.1, r.2)
  | OpGet id => (ObsLookup (Queue.getTask id q), q)
  | OpUpdate id update now =>
      let r := Queue.updateTask id update now q in (ObsLookup r.1, r.2)
  | OpBySender senderId limit => (ObsList (Queue.getTasksBySender senderId limit q), q)
  | OpByStatus status limit => (ObsList (Queue.getTasksByStatus status limit q), q)
  | OpStats => (ObsStats (Queue.getStats q), q)
  end.




(** The ids listed under a status and under a sender in process, in the
    order in which they were added, and the members of a set of the backing
    store. *)
Definition listed (name : string) (q : Queue.TaskQueue) : list string :=
  default [] (Queue.inMemoryByStatus q !! name).






(** *** Decimal digits *)

(** A character is a decimal digit. *)
Definition is_digit (c : ascii) : bool :=
  let n := nat_of_ascii c in (48 <=? n)%nat && (n <=? 57)%nat.

(** A string of [n] zeros. *)
Definition zeros (n : nat) : string := Nat.iter n (String "0") EmptyString.

(** *** The status index of the store in process *)

(** Every task is stored under its own id, and the ids listed under a status
    are, without repetition, those of the stored tasks with that status. *)
Definition index_consistent (q : Queue.TaskQueue) : Prop :=
  (forall id t, Queue.inMemoryTasks q !! id = Some t -> Queue.id t = id)
  /\ (forall s, NoDup (listed (Queue.status_name s) q))
  /\ (forall s id, id ∈ listed (Queue.status_name s) q
                   <-> exists t, Queue.inMemoryTasks q !! id = Some t
                                 /\ Queue.status t = s).

(** The stored tasks with a status. *)
Definition tasks_with (s : Queue.Status) (q : Queue.TaskQueue) : gmap string Queue.Task :=
  filter (fun kt => Queue.status kt.2 = s) (Queue.inMemoryTasks q).

(** [createTask] with an id that no stored task has, as [randomUUID]
    provides it. *)
Definition fresh (op : StoreOp) (q : Queue.TaskQueue) : Prop :=
  match op with
  | OpCreate _ uuid _ _ _ => Queue.inMemoryTasks q !! uuid = None
  | _ => True
  end.

(** A sequence of store operations, the first one first, and that each
    [createTask] in it is given a fresh id. *)
Fixpoint perform_all `{Host} (ops : list StoreOp) (q : Queue.TaskQueue) : Queue.TaskQueue :=
  match ops with
  | [] => q
  | op :: ops => perform_all ops (perform op q).2
  end.

Fixpoint all_fresh `{Host} (ops : list StoreOp) (q : Queue.TaskQueue) : Prop :=
  match ops with
  | [] => True
  | op :: ops => fresh op q /\ all_fresh ops (perform op q).2
  end.

(** *** Stored under its own id *)

(** Every task the store returns for an id has that id. *)
Definition stored_under_own_id `{Host} (q : Queue.TaskQueue) : Prop :=
  forall id t, Queue.getTask id q = Some t -> Queue.id t = id.

(** *** What a request fixes *)

(** The fields of a task that are set when the request is accepted. *)
Definition same_request (t t' : Queue.Task) : Prop :=
  Queue.id t' = Queue.id t
  /\ Queue.channel t' = Queue.channel t
  /\ Queue.channelMessageId t' = Queue.channelMessageId t
  /\ Queue.senderId t' = Queue.senderId t
  /\ Queue.description t' = Queue.description t
  /\ Queue.category t' = Queue.category t
  /\ Queue.priceUsdc t' = Queue.priceUsdc t
  /\ Queue.createdAt t' = Queue.createdAt t.

(** *** The price as a formula *)

(** The price of a category in the table of base prices, and that of
    [other] for a name that the table does not have. *)
Definition table_price (category : string) : Qc :=
  default (Pricing.num 5 1) (Pricing.BASE_PRICES !! category).

(** The cost of the tools: what the table has for each, nothing for a tool
    it does not have. *)
Definition tools_cost (tools : list string) : Qc :=
  sum_list ((fun tool => default (Pricing.num 0 1) (Pricing.TOOL_COSTS !! tool)) <$> tools).

(** Base price times multiplier, plus the tools, plus the cost of the tokens
    beyond 4000. *)
Definition price_formula (analysis : Pricing.TaskAnalysis) (tools : list string) : Qc :=
  (table_price (Pricing.category analysis)
   * Pricing.COMPLEXITY_MULTIPLIERS (Pricing.complexity analysis)
   + tools_cost tools
   + (if bool_decide (Pricing.num 4000 1 < Pricing.estimatedTokens analysis)%Qc
      then Pricing.tokenCost (Pricing.estimatedTokens analysis)
      else Pricing.num 0 1))%Qc.

(** The amount of a line of the breakdown when it is a number. *)
Definition price_of (l : Pricing.PriceBreakdown) : Qc :=
  default (Pricing.num 0 1) (JS.ToNumber (Pricing.amount l)).

(** A line of the breakdown whose amount is a positive number. *)
Definition priced (l : Pricing.PriceBreakdown) : Prop :=
  Pricing.amount l = JS.Num (price_of l) /\ (Pricing.num 0 1 < price_of l)%Qc.

(** The order of the complexities. *)
Definition complexity_rank (c : Pricing.Complexity) : nat :=
  match c with
  | Pricing.simple => 0
  | Pricing.medium => 1
  | Pricing.complex => 2
  end.

(** *** The text of a price *)

(** The fraction of a number of hundredths, as [Number_toString] writes it
    and as the six digits that [parseUnits] reads. *)
Definition fraction_check (f : Z) : bool :=
  let F := JS.padStart0 2 (pretty f) +:+ "0000" in
  String.eqb
    (if (f =? 0)%Z then EmptyString
     else "." +:+ (if (f mod 10 =? 0)%Z then pretty (f / 10)%Z else JS.padStart0 2 (pretty f)))
    (if JS.truthy (Some (JS.strip_trailing_zeros F)) then "." +:+ JS.strip_trailing_zeros F
     else EmptyString)
  && Viem.all_digits F && (String.length F =? 6)%nat
  && bool_decide (JS.parse_digits 10 F 0 = Some (f * 10000)%Z).


(** *** The price list of bounty requests *)

(** The price, in hundredths, of a bounty of a category and a complexity. *)
Definition quote_table (category : string) (c : Pricing.Complexity) : Z :=
  let prices (simple medium complex : Z) :=
    match c with
    | Pricing.simple => simple
    | Pricing.medium => medium
    | Pricing.complex => complex
    end in
  (if bool_decide (category = "research") then prices 225 325 525
   else if bool_decide (category = "website") then prices 1650 2400 3900
   else if bool_decide (category = "writing") then prices 500 750 1250
   else if bool_decide (category = "code") then prices 1050 1550 2550
   else if bool_decide (category = "design") then prices 2200 3200 5200
   else prices 500 750 1250)%Z.

(* ===================================================================== *)
(** * Properties *)
(* ===================================================================== *)

(** ** Pricing *)

Section PricingFacts.
Import JS Pricing.

Lemma num_this (n d : Z) : (this (num n d) == n # Z.to_pos d)%Q.
Proof. unfold num. simpl. apply Qred_correct. Qed.

Lemma Math_round_integer (x : Qc) : Math_round x = num (Qfloor (x + num 1 2)%Qc) 1.
Proof. reflexivity. Qed.

Lemma this_plus (x y : Qc) : (this (x + y)%Qc == this x + this y)%Q.
Proof. simpl. apply Qred_correct. Qed.

Lemma this_minus (x y : Qc) : (this (x - y)%Qc == this x - this y)%Q.
Proof. unfold Qcminus. rewrite this_plus. simpl. rewrite Qred_correct. reflexivity. Qed.

Lemma this_mult (x y : Qc) : (this (x * y)%Qc == this x * this y)%Q.
Proof. simpl. apply Qred_correct. Qed.


(** The sum of a breakdown whose amounts are numbers. *)
Lemma fold_amounts (b : list PriceBreakdown) (acc : Qc) :
  Forall priced b ->
  fold_left (fun sum b => add sum (amount b)) b (Number acc)
  = Number (acc + sum_list (price_of <$> b))%Qc.
Proof.
  intros Hb. revert acc. induction Hb as [|x b [Hx _] Hb IH]; intros acc.
  - unfold sum_list. simpl. f_equal. change (num 0 1) with 0%Qc. ring.
  - cbn [fold_left]. rewrite Hx. cbn [add]. rewrite IH, fmap_cons.
    unfold sum_list. cbn [foldr]. f_equal. ring.
Qed.

Lemma sum_amounts_sum_list (b : list PriceBreakdown) :
  Forall priced b -> sum_amounts b = Number (sum_list (price_of <$> b)).
Proof.
  intros Hb. unfold sum_amounts. rewrite fold_amounts by done.
  f_equal. change (num 0 1) with 0%Qc. ring.
Qed.

Lemma Math_max_lower (x : Qc) : (num 1 1 <= Math_max x (num 1 1))%Qc.
Proof.
  unfold Math_max. case_bool_decide as Hlt.
  - apply Qcle_refl.
  - by apply Qcnot_lt_le.
Qed.

Lemma BASE_PRICES_keys (c : string) (v : Qc) :
  BASE_PRICES !! c = Some v ->
  (c, v) ∈ [ ("research", num 2 1); ("website", num 15 1); ("writing", num 5 1);
             ("code", num 10 1); ("design", num 20 1); ("other", num 5 1) ].
Proof. apply elem_of_list_to_map_2. Qed.

(** No table has an own property named like a property of
    [Object.prototype]. *)
Lemma inherited_names (c : string) :
  c ∈ Object_prototype ->
  BASE_PRICES !! c = None /\ CATEGORY_TOOLS !! c = None /\ TOOL_COSTS !! c = None.
Proof.
  intros Hc. unfold Object_prototype in Hc.
  repeat (apply elem_of_cons in Hc as [->|Hc]; [by vm_compute|]).
  by apply elem_of_nil in Hc.
Qed.

(** The base price of a name that the table does not inherit, and of one
    that it does. *)
Lemma basePrice_table (c : string) :
  c ∉ Object_prototype -> basePrice c = Num (table_price c).
Proof.
  intros Hc. unfold basePrice, table_price, get.
  destruct (BASE_PRICES !! c) as [v|] eqn:E; simpl.
  - apply BASE_PRICES_keys in E.
    repeat (apply elem_of_cons in E as [E|E]; [injection E as -> ->; reflexivity|]).
    by apply elem_of_nil in E.
  - rewrite bool_decide_eq_false_2 by done.
    f_equal; apply Qc_is_canon; vm_compute; reflexivity.
Qed.


End PricingFacts.

(** C6 at an input where the code breaks it. For the category [toString], a
    name that [BASE_PRICES] inherits from [Object.prototype], the amount of
    the base line is the inherited function and not the price of [other],
    and the total is [NaN], which is not at least 1. For a category that is
    unknown and not such a name, the same input is priced at the 5 of
    [other]. *)
Theorem calculate_inherited_category :
  Pricing.calculate
    {| Pricing.category := "toString"; Pricing.complexity := Pricing.simple;
       Pricing.estimatedTokens := Pricing.num 2000 1;
       Pricing.toolsRequired := Pricing.Array [] |}
  = JS.Normal
      {| Pricing.total := JS.NaN;
         Pricing.breakdown :=
           [ {| Pricing.item := "toString base"; Pricing.amount := JS.Builtin "toString" |} ] |}
  /\ exists r,
       Pricing.calculate
         {| Pricing.category := "gardening"; Pricing.complexity := Pricing.simple;
            Pricing.estimatedTokens := Pricing.num 2000 1;
            Pricing.toolsRequired := Pricing.Array [] |} = JS.Normal r
       /\ Pricing.total r = JS.Num (Pricing.num 5 1)
       /\ Pricing.breakdown r
          = [ {| Pricing.item := "gardening base";
                 Pricing.amount := JS.Num (Pricing.num 5 1) |} ].
Proof.
  split; [vm_compute; reflexivity|].
  eexists. split; [reflexivity|]. split; [|vm_compute; reflexivity].
  vm_compute. f_equal. by apply Qc_is_canon.
Qed.

(** The two priced scenarios of the specification: a simple research task of
    1500 tokens without tools costs 2, and a medium website task of 3000
    tokens with the playwright and vercel tools costs 15 + 7.5 + 0.5 + 1 = 24. *)
Example calculate_research_simple :
  exists r,
    Pricing.calculate
      {| Pricing.category := "research"; Pricing.complexity := Pricing.simple;
         Pricing.estimatedTokens := Pricing.num 1500 1;
         Pricing.toolsRequired := Pricing.Array [] |} = JS.Normal r
    /\ Pricing.total r = JS.Num (Pricing.num 2 1).
Proof.
  eexists. split; [reflexivity|]. vm_compute. f_equal. by apply Qc_is_canon.
Qed.

Example calculate_website_medium :
  exists r,
    Pricing.calculate
      {| Pricing.category := "website"; Pricing.complexity := Pricing.medium;
         Pricing.estimatedTokens := Pricing.num 3000 1;
         Pricing.toolsRequired := Pricing.Array ["playwright-mcp"; "vercel-mcp"] |}
    = JS.Normal r
    /\ Pricing.total r = JS.Num (Pricing.num 24 1)
    /\ Pricing.item <$> Pricing.breakdown r
       = ["website base"; "medium complexity"; "playwright"; "vercel"].
Proof.
  eexists. split; [reflexivity|]. split; [|vm_compute; reflexivity].
  vm_compute. f_equal. by apply Qc_is_canon.
Qed.

Section ExtendedOutput.
Import JS Pricing.

Lemma base_item_name (c : string) : c +:+ " base" <> "extended output".
Proof.
  do 16 (destruct c as [|? c]; [simpl; discriminate|]).
  simpl. discriminate.
Qed.

Lemma complexity_item_name (c : Complexity) :
  complexity_name c +:+ " complexity" <> "extended output".
Proof. destruct c; discriminate. Qed.

Lemma TOOL_COSTS_keys (tool : string) (v : Qc) :
  TOOL_COSTS !! tool = Some v ->
  tool ∈ [ "playwright-mcp"; "exa-mcp"; "vercel-mcp"; "github-mcp"; "dalle-mcp";
           "polymarket-mcp" ].
Proof.
  intros E. apply elem_of_list_to_map_2 in E.
  repeat (apply elem_of_cons in E as [E|E]; [injection E as -> _; set_solver|]).
  by apply elem_of_nil in E.
Qed.

Lemma tool_item_names (tools : list string) :
  Forall (fun l => item l <> "extended output") (tool_lines tools).
Proof.
  induction tools as [|tool rest IH]; simpl; [constructor|].
  unfold get. destruct (TOOL_COSTS !! tool) as [v|] eqn:E;
    [|by destruct (bool_decide (tool ∈ Object_prototype))].
  destruct (_ && _); [|exact IH].
  constructor; [|exact IH]. simpl.
  apply TOOL_COSTS_keys in E.
  repeat (apply elem_of_cons in E as [->|E]; [vm_compute; discriminate|]).
  by apply elem_of_nil in E.
Qed.

Lemma hundredths_positive (n : Z) :
  (num 0 1 < num n 1 / num 100 1)%Qc <-> (0 < n)%Z.
Proof.
  unfold Qclt, Qcdiv. rewrite this_mult, !num_this. simpl.
  rewrite Qred_correct.
  unfold Qlt. simpl. lia.
Qed.

(** The lines before the tools are no [extended output] line. *)
Lemma head_item_names (analysis : TaskAnalysis) :
  Forall (fun l => item l <> "extended output")
    ([ {| item := category analysis +:+ " base"; amount := basePrice (category analysis) |} ]
     ++ (if greater (times (basePrice (category analysis))
                       (Num (COMPLEXITY_MULTIPLIERS (complexity analysis) - num 1 1)))
              (num 0 1)
         then [ {| item := complexity_name (complexity analysis) +:+ " complexity";
                   amount := times (basePrice (category analysis))
                               (Num (COMPLEXITY_MULTIPLIERS (complexity analysis)
                                     - num 1 1)) |} ]
         else []))%list.
Proof.
  apply Forall_app. split.
  - constructor; [apply base_item_name|constructor].
  - destruct (greater _ _); constructor; [apply complexity_item_name|constructor].
Qed.

End ExtendedOutput.




(** ** The reference host satisfies the laws of a host *)

Lemma decode_encode_pos (p : positive) :
  ReferenceHost.decode_pos (ReferenceHost.encode_pos p) = p.
Proof.
  induction p as [p IH|p IH|]; simpl; try (rewrite IH); try reflexivity.
  destruct (ReferenceHost.encode_pos p) eqn:E; [|reflexivity].
  destruct p; discriminate.
Qed.

#[global] Instance reference_host_laws : HostLaws ReferenceHost.host.
Proof.
  split.
  - intros [|p|p]; simpl; [reflexivity| |]; by rewrite decode_encode_pos.
  - intros [|p|p]; discriminate.
Qed.

(** ** Payment verification *)

Section VerifierFacts.
Import JS X402.
Context `{Host}.

(** What [verifyPayment] does once the scan of the logs has found the
    transfer and its amount is decoded. *)
Lemma verifyPayment_found (h : X402PaymentHandler) (proof : PaymentProof)
    (expectedAmount : string) (expectedSender : option string)
    (receipt : TransactionReceipt) (transferLog : Log) (amount : Z) :
  getTransactionReceipt h (txHash proof) = Normal (Some receipt) ->
  status receipt = success ->
  List.find (is_usdc_transfer h) (logs receipt) = Some transferLog ->
  BigInt (data transferLog) = Normal amount ->
  verifyPayment h proof expectedAmount expectedSender
  = if bool_decide (toLowerCase (topic_address (topics transferLog !! 2%nat))
                    <> toLowerCase (account_address h))
    then Normal (invalid "Payment sent to wrong address")
    else
      match Viem.parseUnits expectedAmount USDC_DECIMALS with
      | Throw e => Normal (invalid ("Verification failed: " +:+ error_message e))
      | Normal expectedAmountWei =>
          if (amount <? expectedAmountWei)%Z
          then Normal (invalid ("Insufficient payment: received "
                                  +:+ Viem.formatUnits amount USDC_DECIMALS
                                  +:+ " USDC, expected " +:+ expectedAmount +:+ " USDC"))
          else if truthy expectedSender
                  && bool_decide (toLowerCase (topic_address (topics transferLog !! 1%nat))
                                  <> toLowerCase (default "" expectedSender))
          then Normal (invalid "Payment from unexpected sender")
          else Normal {| valid := true;
                         sender := Some (topic_address (topics transferLog !! 1%nat));
                         amount := Some (Viem.formatUnits amount USDC_DECIMALS);
                         error := None |}
      end.
Proof.
  intros Hreceipt Hstatus Hfind Hamount.
  unfold verifyPayment, verifyPayment_try.
  rewrite Hreceipt. cbn [bind]. rewrite Hstatus, Hfind, Hamount. cbn [bind].
  case_bool_decide; [reflexivity|].
  destruct (Viem.parseUnits expectedAmount USDC_DECIMALS) as [wei|e]; cbn [bind try_catch];
    [|reflexivity].
  destruct (amount <? wei)%Z; [reflexivity|].
  destruct (_ && _); reflexivity.
Qed.

(** A result of the [try] block that is not valid carries an error. *)
Lemma verifyPayment_try_structured (h : X402PaymentHandler) (proof : PaymentProof)
    (expectedAmount : string) (expectedSender : option string) (r : PaymentVerification) :
  verifyPayment_try h proof expectedAmount expectedSender = Normal r ->
  valid r = false -> is_Some (error r).
Proof.
  unfold verifyPayment_try.
  destruct (getTransactionReceipt h (txHash proof)) as [[receipt|]|e]; cbn [bind];
    [| intros [= <-] _; by eexists | discriminate].
  destruct (status receipt); [| intros [= <-] _; by eexists].
  destruct (List.find _ _) as [transferLog|]; [| intros [= <-] _; by eexists].
  destruct (BigInt _) as [amount|e]; cbn [bind]; [|discriminate].
  case_bool_decide; [intros [= <-] _; by eexists|].
  destruct (Viem.parseUnits _ _) as [wei|e]; cbn [bind]; [|discriminate].
  destruct (amount <? wei)%Z; [intros [= <-] _; by eexists|].
  destruct (_ && _); intros [= <-]; [by eexists|discriminate].
Qed.

(** [verifyPayment] never throws, and its failures are structured. *)
Lemma verifyPayment_returns (h : X402PaymentHandler) (proof : PaymentProof)
    (expectedAmount : string) (expectedSender : option string) :
  exists r, verifyPayment h proof expectedAmount expectedSender = Normal r
            /\ (valid r = false -> is_Some (error r)).
Proof.
  unfold verifyPayment.
  destruct (verifyPayment_try h proof expectedAmount expectedSender) as [r|e] eqn:E;
    cbn [try_catch].
  - exists r. split; [reflexivity|]. by eapply verifyPayment_try_structured.
  - eexists. split; [reflexivity|]. intros _. by eexists.
Qed.

End VerifierFacts.



(** C9 (as the code has it). For a receipt that succeeded and whose first
    stablecoin transfer pays exactly 5.00 (5000000 base units) to the agent's
    address, [verifyPayment] with expected amount "5.00" and no expected
    sender is valid, and its amount is the string "5": [formatUnits] drops
    the trailing zeros of the fraction. *)
Theorem verifyPayment_exact_five `{Host} (h : X402.X402PaymentHandler)
    (proof : X402.PaymentProof) (receipt : X402.TransactionReceipt) (transferLog : X402.Log) :
  X402.getTransactionReceipt h (X402.txHash proof) = JS.Normal (Some receipt) ->
  X402.status receipt = X402.success ->
  List.find (X402.is_usdc_transfer h) (X402.logs receipt) = Some transferLog ->
  JS.BigInt (X402.data transferLog) = JS.Normal 5000000%Z ->
  JS.toLowerCase (X402.topic_address (X402.topics transferLog !! 2%nat))
  = JS.toLowerCase (X402.account_address h) ->
  X402.verifyPayment h proof "5.00" None
  = JS.Normal {| X402.valid := true;
                 X402.sender := Some (X402.topic_address (X402.topics transferLog !! 1%nat));
                 X402.amount := Some "5";
                 X402.error := None |}.
Proof.
  intros Hreceipt Hstatus Hfind Hamount Hrecipient.
  rewrite (verifyPayment_found h proof "5.00" None receipt transferLog 5000000%Z)
    by assumption.
  rewrite bool_decide_eq_false_2 by (intros Hne; apply Hne, Hrecipient).
  reflexivity.
Qed.

Lemma verifyPayment_exact_five_witness :
  X402.verifyPayment
    (Sample.handler [Sample.transfer Sample.payer Sample.agent Sample.word_5_00])
    Sample.proof "5.00" None
  = JS.Normal {| X402.valid := true; X402.sender := Some Sample.payer;
                 X402.amount := Some "5"; X402.error := None |}.
Proof.
  exact (verifyPayment_exact_five
           (Sample.handler [Sample.transfer Sample.payer Sample.agent Sample.word_5_00])
           Sample.proof _ _ eq_refl eq_refl eq_refl eq_refl eq_refl).
Defined.

(** C9 fails as stated: the receipt pays exactly 5.00 to the agent and the
    verification is valid, but the amount returned is "5", not "5.00". *)
Lemma exact_payment_amount_is_not_5_00 :
  let r := X402.verifyPayment
             (Sample.handler [Sample.transfer Sample.payer Sample.agent Sample.word_5_00])
             Sample.proof "5.00" None in
  r = JS.Normal {| X402.valid := true; X402.sender := Some Sample.payer;
                   X402.amount := Some "5"; X402.error := None |}
  /\ ~ (exists v, r = JS.Normal v /\ X402.valid v = true /\ X402.amount v = Some "5.00").
Proof.
  split; [reflexivity|].
  intros (v & Hv & _ & Hamount).
  vm_compute in Hv. injection Hv as <-. discriminate.
Qed.

(** C10. Only the first log that is a stablecoin transfer is examined: when
    its amount decodes and its recipient is not the agent's address, the
    verification fails with the wrong-address error, whatever logs follow it
    in the receipt. *)
Theorem verifyPayment_first_transfer_only `{Host} (h : X402.X402PaymentHandler)
    (proof : X402.PaymentProof) (expectedAmount : string) (expectedSender : option string)
    (receipt : X402.TransactionReceipt) (before after : list X402.Log)
    (transferLog : X402.Log) (amount : Z) :
  X402.getTransactionReceipt h (X402.txHash proof) = JS.Normal (Some receipt) ->
  X402.status receipt = X402.success ->
  X402.logs receipt = (before ++ transferLog :: after)%list ->
  Forall (fun log => X402.is_usdc_transfer h log = false) before ->
  X402.is_usdc_transfer h transferLog = true ->
  JS.BigInt (X402.data transferLog) = JS.Normal amount ->
  JS.toLowerCase (X402.topic_address (X402.topics transferLog !! 2%nat))
  <> JS.toLowerCase (X402.account_address h) ->
  X402.verifyPayment h proof expectedAmount expectedSender
  = JS.Normal (X402.invalid "Payment sent to wrong address").
Proof.
  intros Hreceipt Hstatus Hlogs Hbefore Hlog Hamount Hrecipient.
  assert (Hfind : List.find (X402.is_usdc_transfer h) (X402.logs receipt) = Some transferLog).
  { rewrite Hlogs. clear Hlogs.
    induction Hbefore as [|log before Hx _ IH]; simpl.
    - by rewrite Hlog.
    - by rewrite Hx. }
  rewrite (verifyPayment_found h proof expectedAmount expectedSender receipt transferLog amount)
    by assumption.
  by rewrite bool_decide_eq_true_2.
Qed.

(** The first transfer pays a stranger; the second pays 5.00 to the agent. *)
Lemma verifyPayment_first_transfer_only_witness :
  X402.verifyPayment
    (Sample.handler [Sample.unrelated;
                     Sample.transfer Sample.payer Sample.stranger Sample.word_5_00;
                     Sample.transfer Sample.payer Sample.agent Sample.word_5_00])
    Sample.proof "5.00" None
  = JS.Normal (X402.invalid "Payment sent to wrong address").
Proof.
  refine (verifyPayment_first_transfer_only
            (Sample.handler [Sample.unrelated;
                             Sample.transfer Sample.payer Sample.stranger Sample.word_5_00;
                             Sample.transfer Sample.payer Sample.agent Sample.word_5_00])
            Sample.proof "5.00" None _ [Sample.unrelated] _ _ 5000000%Z
            eq_refl eq_refl eq_refl _ eq_refl eq_refl _).
  - by repeat constructor.
  - vm_compute. discriminate.
Defined.

(** ** The task store *)

Section StoreFacts.
Import JS Queue.
Context `{Host}.

Lemma task_key_inj (a b : string) : "task:" +:+ a = "task:" +:+ b -> a = b.
Proof. intros Heq. simpl in Heq. by injection Heq. Qed.

Lemma useInMemory_updateTask id u now q :
  useInMemory (updateTask id u now q).2 = useInMemory q.
Proof.
  unfold updateTask. destruct (getTask id q); [|done].
  destruct (useInMemory q) eqn:E; [done|].
  destruct (redis q); done.
Qed.

Lemma getTask_updateTask id id' u now q :
  getTask id' (updateTask id u now q).2
  = match getTask id q with
    | None => getTask id' q
    | Some existing =>
        if decide (id' = id) then Some (observed q (merge existing u now))
        else getTask id' q
    end.
Proof.
  unfold updateTask. destruct (getTask id q) as [existing|] eqn:Hget; [|done].
  unfold observed, getTask in *.
  destruct (useInMemory q) eqn:E; cbn [snd useInMemory inMemoryTasks].
  - destruct (decide (id' = id)) as [->|Hne].
    + by rewrite lookup_insert_eq.
    + by rewrite lookup_insert_ne.
  - destruct (redis q) as [r|] eqn:Hr; [|done].
    cbn [snd set_redis useInMemory redis]. rewrite E.
    unfold hgetall, hset. cbn [hashes].
    assert (Hh : forall r0, hashes
              (match status_change existing u with
               | Some new_status =>
                   sadd ("tasks:status:" +:+ status_name new_status) id
                     (srem ("tasks:status:" +:+ status_name (status existing)) id r0)
               | None => r0
               end) = hashes r0).
    { intros r0. by destruct (status_change existing u). }
    rewrite Hh.
    destruct (decide (id' = id)) as [->|Hne].
    + by rewrite lookup_insert_eq.
    + rewrite lookup_insert_ne; [done|]. intros Hk. by apply task_key_inj in Hk.
Qed.

End StoreFacts.

(** ** The orchestrator: what its operations do to the store *)

Section OrchestratorFacts.
Import JS Queue Core.
Context `{Host}.

Lemma getTask_enqueue id taskId q : getTask id (enqueue taskId q) = getTask id q.
Proof. unfold enqueue, getTask. by destruct (useInMemory q) eqn:E; cbn; rewrite ?E. Qed.

Lemma getTask_set_queue id jobs q : getTask id (set_queue jobs q) = getTask id q.
Proof. reflexivity. Qed.

Lemma getTask_retry id job q : getTask id (retry job q) = getTask id q.
Proof. unfold retry. by destruct (_ <? _)%nat. Qed.

Lemma apply_updates_snoc id us u now q :
  apply_updates id (us ++ [(u, now)]) q
  = (updateTask id u now (apply_updates id us q)).2.
Proof. unfold apply_updates. by rewrite fold_left_app. Qed.

Lemma useInMemory_apply_updates id us q :
  useInMemory (apply_updates id us q) = useInMemory q.
Proof.
  revert q. induction us as [|[u now] us IH]; intros q; [done|].
  change (useInMemory (apply_updates id us (updateTask id u now q).2) = useInMemory q).
  by rewrite IH, useInMemory_updateTask.
Qed.

Section Preservation.
Variable P : Task -> Task -> Prop.
Hypothesis P_refl : forall t, P t t.
Hypothesis P_trans : forall t1 t2 t3, P t1 t2 -> P t2 t3 -> P t1 t3.

Lemma preserves_refl q : preserves P q q.
Proof. intros id t Ht. eauto. Qed.

Lemma preserves_trans q1 q2 q3 :
  preserves P q1 q2 -> preserves P q2 q3 -> preserves P q1 q3.
Proof.
  intros H12 H23 id t Ht.
  destruct (H12 id t Ht) as (t2 & Ht2 & HP2).
  destruct (H23 id t2 Ht2) as (t3 & Ht3 & HP3). eauto.
Qed.

Lemma preserves_same q q' :
  (forall id, getTask id q' = getTask id q) -> preserves P q q'.
Proof. intros Hsame id t Ht. rewrite Hsame. eauto. Qed.

Lemma preserves_updateTask id u now q :
  (forall existing, getTask id q = Some existing ->
                    P existing (observed q (merge existing u now))) ->
  preserves P q (updateTask id u now q).2.
Proof.
  intros HP id' t Ht. rewrite getTask_updateTask.
  destruct (getTask id q) as [existing|] eqn:Hget; [|eauto].
  destruct (decide (id' = id)) as [->|Hne]; [|eauto].
  rewrite Hget in Ht. injection Ht as ->. eauto.
Qed.

Lemma preserves_apply_updates (U : TaskUpdate -> Prop) id us q :
  (forall q' existing u now,
      U u -> getTask id q' = Some existing ->
      P existing (observed q' (merge existing u now))) ->
  Forall U us.*1 ->
  preserves P q (apply_updates id us q).
Proof.
  intros HP. revert q. induction us as [|[u now] us IH]; intros q HU.
  - apply preserves_refl.
  - apply Forall_cons in HU as [Hu HU].
    change (preserves P q (apply_updates id us (updateTask id u now q).2)).
    eapply preserves_trans; [|apply IH, HU].
    apply preserves_updateTask. intros existing Hget. by apply HP.
Qed.

End Preservation.

(** *** [executeTask] as a run of updates *)

Ltac run_execute :=
  unfold executeTask, try_catch_m, executeTask_try, mbind, updateTaskM, await, throw,
    ret, apply_updates; cbn [fold_left fst snd].

Lemma executeTask_completes a task t q skill result :
  getSkill a (category task) = Some skill ->
  execute skill (skill_context task) = Normal result ->
  memory_store a (outcome_memory task result) = Normal tt ->
  a2a_shareLearning a (outcome_learning task result) = Normal tt ->
  executeTask a task t q
  = (Normal tt,
     apply_updates (id task)
       [ (update_started (t_startedAt t), t_update1 t);
         (update_completed (t_completedAt t) (result_deliverable result), t_update2 t) ] q).
Proof.
  intros Hskill Hexec Hstore Hshare. run_execute.
  by rewrite Hskill, Hexec, Hstore, Hshare.
Qed.

Lemma executeTask_fails_early a task t q e :
  (getSkill a (category task) = None /\ e = no_skill task)
  \/ (exists skill, getSkill a (category task) = Some skill
                    /\ execute skill (skill_context task) = Throw e) ->
  executeTask a task t q
  = (Normal tt,
     apply_updates (id task)
       [ (update_started (t_startedAt t), t_update1 t);
         (update_failed (error_message e), t_update3 t) ] q).
Proof.
  intros [[Hskill ->]|(skill & Hskill & Hexec)]; run_execute.
  - by rewrite Hskill.
  - by rewrite Hskill, Hexec.
Qed.

Lemma executeTask_fails_late a task t q skill result e :
  getSkill a (category task) = Some skill ->
  execute skill (skill_context task) = Normal result ->
  memory_store a (outcome_memory task result) = Throw e
  \/ (memory_store a (outcome_memory task result) = Normal tt
      /\ a2a_shareLearning a (outcome_learning task result) = Throw e) ->
  executeTask a task t q
  = (Normal tt,
     apply_updates (id task)
       [ (update_started (t_startedAt t), t_update1 t);
         (update_completed (t_completedAt t) (result_deliverable result), t_update2 t);
         (update_failed (error_message e), t_update3 t) ] q).
Proof.
  intros Hskill Hexec [Hstore|[Hstore Hshare]]; run_execute.
  - by rewrite Hskill, Hexec, Hstore.
  - by rewrite Hskill, Hexec, Hstore, Hshare.
Qed.

(** [executeTask] returns, and what it does to the store is a run of its
    updates on the task, the last of which completes or fails it. *)
Ltac forall_updates :=
  cbn [fmap list_fmap fst];
  repeat (apply List.Forall_cons; [assumption|]); apply List.Forall_nil.

Lemma executeTask_effect a task t q :
  exists us u now,
    Forall execution_update us.*1 /\ final_update u
    /\ executeTask a task t q = (Normal tt, apply_updates (id task) (us ++ [(u, now)]) q).
Proof.
  assert (Hstarted : execution_update (update_started (t_startedAt t)))
    by (left; eauto).
  destruct (getSkill a (category task)) as [skill|] eqn:Hskill.
  - destruct (execute skill (skill_context task)) as [result|e] eqn:Hexec.
    + assert (Hcompleted : execution_update
                (update_completed (t_completedAt t) (result_deliverable result)))
        by (right; left; eauto).
      destruct (memory_store a (outcome_memory task result)) as [[]|e] eqn:Hstore.
      * destruct (a2a_shareLearning a (outcome_learning task result)) as [[]|e] eqn:Hshare.
        -- exists [(update_started (t_startedAt t), t_update1 t)], 
             (update_completed (t_completedAt t) (result_deliverable result)), (t_update2 t).
           split; [forall_updates|]. split; [left; eauto|].
           by eapply executeTask_completes.
        -- exists [(update_started (t_startedAt t), t_update1 t);
                   (update_completed (t_completedAt t) (result_deliverable result),
                    t_update2 t)],
             (update_failed (error_message e)), (t_update3 t).
           split; [forall_updates|]. split; [right; eauto|].
           eapply executeTask_fails_late; eauto.
      * exists [(update_started (t_startedAt t), t_update1 t);
                (update_completed (t_completedAt t) (result_deliverable result),
                 t_update2 t)],
          (update_failed (error_message e)), (t_update3 t).
        split; [forall_updates|]. split; [right; eauto|].
        eapply executeTask_fails_late; eauto.
    + exists [(update_started (t_startedAt t), t_update1 t)],
        (update_failed (error_message e)), (t_update3 t).
      split; [forall_updates|]. split; [right; eauto|].
      apply executeTask_fails_early. right. eauto.
  - exists [(update_started (t_startedAt t), t_update1 t)],
      (update_failed (error_message (no_skill task))), (t_update3 t).
    split; [forall_updates|]. split; [right; eauto|].
    apply executeTask_fails_early. left. eauto.
Qed.

(** *** [handlePaymentVerification]: the three ways it ends *)

Lemma handlePaymentVerification_effect a message now1 now2 q :
  (handlePaymentVerification a message now1 now2 q).2 = q
  \/ exists taskId txHash task v,
       split ":" (content message) !! 1%nat = Some taskId
       /\ split ":" (content message) !! 2%nat = Some txHash
       /\ getTask taskId q = Some task
       /\ X402.verifyPayment (payments a)
            {| X402.txHash := txHash; X402.proof_network := X402.base |}
            (priceUsdc task) None = Normal v
       /\ X402.valid v = true
       /\ handlePaymentVerification a message now1 now2 q
          = (Normal {| r_content := payment_verified_reply taskId (priceUsdc task) txHash;
                       r_taskId := Some taskId |},
             enqueue taskId
               (updateTask taskId (update_paid txHash now1 (X402.sender v)) now2 q).2).
Proof.
  unfold handlePaymentVerification.
  destruct (length (split ":" (content message)) <? 3)%nat eqn:Hlen; [by left|].
  apply Nat.ltb_ge in Hlen.
  destruct (split ":" (content message) !! 1%nat) as [taskId|] eqn:H1;
    [|apply lookup_ge_None in H1; lia].
  destruct (split ":" (content message) !! 2%nat) as [txHash|] eqn:H2;
    [|apply lookup_ge_None in H2; lia].
  cbn [from_option Datatypes.id].
  destruct (getTask taskId q) as [task|] eqn:Hget; [|by left].
  unfold mbind, await, updateTaskM, enqueueM, ret.
  destruct (verifyPayment_returns (payments a)
              {| X402.txHash := txHash; X402.proof_network := X402.base |}
              (priceUsdc task) None) as (v & Hv & _).
  rewrite Hv. destruct (X402.valid v) eqn:Hvalid; cbn [negb]; [|by left].
  right. exists taskId, txHash, task, v. by repeat split.
Qed.

End OrchestratorFacts.

(** ** What the backing store keeps of a task *)

Section Observed.
Import JS Queue Core.
Context `{Host}.

Lemma or_undefined_or_empty (x : option string) :
  x <> Some EmptyString -> or_undefined (or_empty x) = x.
Proof. destruct x as [[|c s]|]; done. Qed.

Lemma or_undefined_idem (s : string) :
  or_undefined (or_empty (or_undefined s)) = or_undefined s.
Proof. by destruct s. Qed.

Lemma truthy_or_undefined_or_empty (x : option string) :
  truthy (or_undefined (or_empty x)) = truthy x.
Proof. by destruct x as [[|c s]|]. Qed.

Lemma observed_status q t : status (observed q t) = status t.
Proof. unfold observed. by destruct (useInMemory q). Qed.

Lemma observed_id q t : id (observed q t) = id t.
Proof. unfold observed. by destruct (useInMemory q). Qed.

Lemma observed_text q t :
  paidTxHash (observed q t)
  = (if useInMemory q then paidTxHash t else or_undefined (or_empty (paidTxHash t)))
  /\ deliverable (observed q t)
     = (if useInMemory q then deliverable t else or_undefined (or_empty (deliverable t)))
  /\ error (observed q t)
     = (if useInMemory q then error t else or_undefined (or_empty (error t))).
Proof. unfold observed. by destruct (useInMemory q). Qed.

Lemma observed_paidAt q t :
  paidAt (observed q t)
  = if useInMemory q then paidAt t else date_or_undefined (date_or_empty (paidAt t)).
Proof. unfold observed. by destruct (useInMemory q). Qed.

(** The optional texts of a task read from the store are as the store keeps
    them. *)
Lemma getTask_text id q t :
  getTask id q = Some t ->
  useInMemory q = false ->
  or_undefined (or_empty (paidTxHash t)) = paidTxHash t
  /\ or_undefined (or_empty (deliverable t)) = deliverable t
  /\ or_undefined (or_empty (error t)) = error t.
Proof.
  unfold getTask. intros Hget E. rewrite E in Hget.
  destruct (redis q) as [r|]; [|done].
  destruct (hgetall _ r) as [d|]; [|done]. injection Hget as <-.
  cbn -[or_undefined or_empty]. by rewrite !or_undefined_idem.
Qed.

Section WithLaws.
Context `{!HostLaws H}.

Lemma date_roundtrip (d : option Z) : date_or_undefined (date_or_empty d) = d.
Proof.
  destruct d as [t|]; [|done].
  unfold date_or_undefined, date_or_empty. cbn [fmap option_fmap option_map].
  pose proof (Date_toISOString_nonempty t) as Hne.
  rewrite or_undefined_or_empty by congruence.
  cbn. by rewrite Date_parse_toISOString.
Qed.

Lemma date_or_undefined_idem (s : string) :
  date_or_undefined (date_or_empty (date_or_undefined s)) = date_or_undefined s.
Proof. apply date_roundtrip. Qed.

(** A task survives the hash unchanged when none of its optional texts is
    the empty string. *)
Lemma roundtrip_clean (t : Task) :
  senderAddress t <> Some EmptyString -> paidTxHash t <> Some EmptyString ->
  deliverable t <> Some EmptyString -> error t <> Some EmptyString ->
  deserializeTask (serializeTask t) = t.
Proof.
  intros H1 H2 H3 H4. destruct t. cbn in H1, H2, H3, H4.
  unfold deserializeTask, serializeTask.
  cbn -[or_undefined or_empty date_or_undefined date_or_empty].
  by rewrite !or_undefined_or_empty, !date_roundtrip, !Date_parse_toISOString.
Qed.


(** A task read from the store is a task the store keeps unchanged. *)
Lemma getTask_stored id q t : getTask id q = Some t -> observed q t = t.
Proof.
  unfold getTask, observed. destruct (useInMemory q); [done|].
  destruct (redis q) as [r|]; [|done].
  destruct (hgetall _ r) as [d|]; [|done]. intros [= <-].
  destruct d. unfold deserializeTask, serializeTask.
  cbn -[or_undefined or_empty date_or_undefined date_or_empty].
  rewrite !or_undefined_idem, !date_or_undefined_idem, !Date_parse_toISOString.
  reflexivity.
Qed.

End WithLaws.

End Observed.

(** ** Invariants of the orchestrator's operations *)

Section Invariants.
Import JS Queue Core.
Context `{Host}.

Lemma final_update_execution u : final_update u -> execution_update u.
Proof. intros [Hc|Hf]; [right; by left|right; by right]. Qed.

Section Steps.
Variable P : Task -> Task -> Prop.
Hypothesis P_refl : forall t, P t t.
Hypothesis P_trans : forall t1 t2 t3, P t1 t2 -> P t2 t3 -> P t1 t3.

Lemma executeTask_preserves a task t q :
  (forall q' existing u now,
      execution_update u -> getTask (id task) q' = Some existing ->
      P existing (observed q' (merge existing u now))) ->
  preserves P q (executeTask a task t q).2.
Proof.
  intros HP.
  destruct (executeTask_effect a task t q) as (us & u & now & Hus & Hu & ->).
  cbn [snd]. apply (preserves_apply_updates P P_refl P_trans execution_update); [done|].
  rewrite fmap_app. apply Forall_app. split; [done|].
  apply Forall_singleton. by apply final_update_execution.
Qed.

Lemma step_preserves a op q :
  (forall q' id existing u now,
      update_of op u -> getTask id q' = Some existing ->
      P existing (observed q' (merge existing u now))) ->
  preserves P q (step a op q).
Proof.
  intros HP. destruct op as [message now1 now2|task t|t|t]; cbn [step update_of] in *.
  - destruct (handlePaymentVerification_effect a message now1 now2 q)
      as [->|(taskId & txHash & task & v & _ & _ & _ & _ & _ & ->)].
    + by apply preserves_refl.
    + cbn [snd]. eapply (preserves_trans P P_trans).
      * apply (preserves_updateTask P P_refl). intros existing Hget.
        apply (HP q taskId); eauto.
      * apply (preserves_same P P_refl). intros id. apply getTask_enqueue.
  - apply executeTask_preserves. intros q' existing u now. apply (HP q' (id task)).
  - unfold processTick. destruct (inMemoryQueue q) as [|taskId rest];
      [by apply preserves_refl|].
    match goal with
    | |- preserves P q (match getTask taskId ?q0 with _ => _ end) => set (q1 := q0)
    end.
    assert (H01 : preserves P q q1) by (by apply (preserves_same P P_refl)).
    destruct (getTask taskId q1) as [task|]; [|done].
    eapply (preserves_trans P P_trans); [exact H01|].
    apply executeTask_preserves. intros q' existing u now. apply (HP q' (id task)).
  - unfold workerStep. destruct (queue q) as [[|job rest]|];
      [by apply preserves_refl| |by apply preserves_refl].
    assert (H01 : preserves P q (set_queue rest q))
      by (by apply (preserves_same P P_refl)).
    destruct (getTask (job_taskId job) (set_queue rest q)) as [task|].
    + pose proof (executeTask_preserves a task t (set_queue rest q)
                    (fun q' existing u now => HP q' (id task) existing u now)) as Hexec.
      destruct (executeTask a task t (set_queue rest q)) as [[[]|e] q'];
        cbn [snd] in Hexec.
      * exact (preserves_trans P P_trans _ _ _ H01 Hexec).
      * eapply (preserves_trans P P_trans); [exact H01|].
        eapply (preserves_trans P P_trans); [exact Hexec|].
        apply (preserves_same P P_refl). intros id. apply getTask_retry.
    + eapply (preserves_trans P P_trans); [exact H01|].
      apply (preserves_same P P_refl). intros id. apply getTask_retry.
Qed.

Lemma run_preserves a ops q :
  (forall op q' id existing u now,
      op ∈ ops -> update_of op u -> getTask id q' = Some existing ->
      P existing (observed q' (merge existing u now))) ->
  preserves P q (run a ops q).
Proof.
  revert q. induction ops as [|op ops IH]; intros q HP.
  - by apply preserves_refl.
  - change (preserves P q (run a ops (step a op q))).
    eapply (preserves_trans P P_trans).
    + apply step_preserves. intros q' id existing u now. apply HP. by left.
    + apply IH. intros op' q' id existing u now Hin. apply HP. by right.
Qed.

End Steps.

(** After a run of updates on a task of the store, the task is what the
    last update made of it. *)
Lemma getTask_apply_updates_last id us u now q t :
  getTask id q = Some t ->
  exists t', getTask id (apply_updates id us q) = Some t'
             /\ getTask id (apply_updates id (us ++ [(u, now)]) q)
                = Some (observed q (merge t' u now)).
Proof.
  intros Hget.
  assert (Hex : exists t', getTask id (apply_updates id us q) = Some t').
  { assert (HF : Forall (fun _ : TaskUpdate => True) us.*1)
      by (clear; induction us; by constructor).
    destruct (preserves_apply_updates (fun _ _ => True) (fun _ => I)
                (fun _ _ _ _ _ => I) (fun _ => True) id us q
                (fun _ _ _ _ _ _ => I) HF id t Hget) as (t' & Ht' & _).
    eauto. }
  destruct Hex as (t' & Ht'). exists t'. split; [done|].
  rewrite apply_updates_snoc, getTask_updateTask, Ht', decide_True by done.
  unfold observed. by rewrite useInMemory_apply_updates.
Qed.

End Invariants.

Section PaymentMessages.
Import JS Queue Core.
Context `{Host}.

(** A payment message whose proof verifies. *)
Lemma handlePaymentVerification_valid a message now1 now2 q taskId txHash task v :
  split ":" (content message) !! 1%nat = Some taskId ->
  split ":" (content message) !! 2%nat = Some txHash ->
  getTask taskId q = Some task ->
  X402.verifyPayment (payments a)
    {| X402.txHash := txHash; X402.proof_network := X402.base |}
    (priceUsdc task) None = Normal v ->
  X402.valid v = true ->
  handlePaymentVerification a message now1 now2 q
  = (Normal {| r_content := payment_verified_reply taskId (priceUsdc task) txHash;
               r_taskId := Some taskId |},
     enqueue taskId (updateTask taskId (update_paid txHash now1 (X402.sender v)) now2 q).2).
Proof.
  intros H1 H2 Hget Hv Hvalid. unfold handlePaymentVerification.
  assert (Hlen : (length (split ":" (content message)) <? 3)%nat = false).
  { apply Nat.ltb_ge. apply lookup_lt_Some in H2. lia. }
  rewrite Hlen, H1, H2. cbn [from_option Datatypes.id]. rewrite Hget.
  unfold mbind, await, updateTaskM, enqueueM, ret. by rewrite Hv, Hvalid.
Qed.

(** A payment message whose proof does not verify. *)
Lemma handlePaymentVerification_invalid a message now1 now2 q taskId txHash task v :
  split ":" (content message) !! 1%nat = Some taskId ->
  split ":" (content message) !! 2%nat = Some txHash ->
  getTask taskId q = Some task ->
  X402.verifyPayment (payments a)
    {| X402.txHash := txHash; X402.proof_network := X402.base |}
    (priceUsdc task) None = Normal v ->
  X402.valid v = false ->
  handlePaymentVerification a message now1 now2 q
  = (Normal {| r_content := "Payment verification failed: "
                              +:+ default "undefined" (X402.error v);
               r_taskId := None |}, q).
Proof.
  intros H1 H2 Hget Hv Hvalid. unfold handlePaymentVerification.
  assert (Hlen : (length (split ":" (content message)) <? 3)%nat = false).
  { apply Nat.ltb_ge. apply lookup_lt_Some in H2. lia. }
  rewrite Hlen, H1, H2. cbn [from_option Datatypes.id]. rewrite Hget.
  unfold mbind, await, updateTaskM, enqueueM, ret. by rewrite Hv, Hvalid.
Qed.

Lemma getTask_after_payment id taskId u now q :
  getTask id (enqueue taskId (updateTask taskId u now q).2)
  = match getTask taskId q with
    | None => getTask id q
    | Some existing =>
        if decide (id = taskId) then Some (observed q (merge existing u now))
        else getTask id q
    end.
Proof. by rewrite getTask_enqueue, getTask_updateTask. Qed.

Lemma getTask_two_updates id u1 n1 u2 n2 q t0 :
  getTask id q = Some t0 ->
  getTask id (apply_updates id [(u1, n1); (u2, n2)] q)
  = Some (observed q (merge (observed q (merge t0 u1 n1)) u2 n2)).
Proof.
  intros Hget. unfold apply_updates. cbn [fold_left fst snd].
  rewrite getTask_updateTask, getTask_updateTask, Hget, !decide_True by done.
  unfold observed. by rewrite useInMemory_updateTask.
Qed.

End PaymentMessages.

(** C5. [verifyPayment] never throws: it returns a result, and a result that
    is not valid carries an error. When the proof of a payment message fails
    verification, [handlePaymentVerification] returns the verifier's error
    to the caller and leaves the task queue, hence every task record and its
    status, as it was. *)
Theorem rejected_proof_changes_nothing `{Host} (a : Core.AgentCore)
    (message : Core.IncomingMessage) (now1 now2 : Z) (q : Queue.TaskQueue) :
  (forall h proof expectedAmount expectedSender,
      exists r, X402.verifyPayment h proof expectedAmount expectedSender = JS.Normal r
                /\ (X402.valid r = false -> is_Some (X402.error r)))
  /\ (forall taskId txHash task v,
         JS.split ":" (Core.content message) !! 1%nat = Some taskId ->
         JS.split ":" (Core.content message) !! 2%nat = Some txHash ->
         Queue.getTask taskId q = Some task ->
         X402.verifyPayment (Core.payments a)
           {| X402.txHash := txHash; X402.proof_network := X402.base |}
           (Queue.priceUsdc task) None = JS.Normal v ->
         X402.valid v = false ->
         exists reason,
           X402.error v = Some reason
           /\ Core.handlePaymentVerification a message now1 now2 q
              = (JS.Normal {| Core.r_content := "Payment verification failed: " +:+ reason;
                              Core.r_taskId := None |}, q)).
Proof.
  split; [intros; apply verifyPayment_returns|].
  intros taskId txHash task v H1 H2 Hget Hv Hvalid.
  destruct (verifyPayment_returns (Core.payments a)
              {| X402.txHash := txHash; X402.proof_network := X402.base |}
              (Queue.priceUsdc task) None) as (v' & Hv' & Herr).
  rewrite Hv in Hv'. injection Hv' as <-.
  destruct (Herr Hvalid) as [reason Hreason]. exists reason. split; [done|].
  erewrite handlePaymentVerification_invalid by eauto. by rewrite Hreason.
Qed.

(** A payment of 4.99 for a task priced 5: the reply carries the verifier's
    reason and the store is as it was. *)
Lemma rejected_proof_changes_nothing_witness :
  Core.handlePaymentVerification (Scenario.core_underpaid Scenario.skill_ok Scenario.store_ok)
    (Scenario.payment_message Sample.tx) 2000 2001 (Scenario.requested Scenario.empty_memory)
  = (JS.Normal
       {| Core.r_content :=
            "Payment verification failed: Insufficient payment: received 4.99 USDC, expected 5 USDC";
          Core.r_taskId := None |},
     Scenario.requested Scenario.empty_memory).
Proof.
  destruct (proj2 (rejected_proof_changes_nothing
                     (Scenario.core_underpaid Scenario.skill_ok Scenario.store_ok)
                     (Scenario.payment_message Sample.tx) 2000 2001
                     (Scenario.requested Scenario.empty_memory))
              Scenario.task_id Sample.tx
              (Queue.createTask Scenario.request Scenario.task_id 1000 1000 1000
                 Scenario.empty_memory).1
              (X402.invalid "Insufficient payment: received 4.99 USDC, expected 5 USDC")
              eq_refl eq_refl eq_refl eq_refl eq_refl)
    as (reason & Hreason & Hreply).
  injection Hreason as <-. exact Hreply.
Defined.

(** ** The task state machine *)

(** C1 (as the code has it). Under every sequence of payment messages,
    executions and processor steps, no task disappears and a task that has
    left [pending_payment] never returns to it. A run of [executeTask] on a
    task of the store leaves it [completed] or [failed]. A payment message
    whose proof verifies sets the status of its task to [paid] whatever the
    status was. *)
Theorem status_never_returns_to_pending `{Host} (a : Core.AgentCore) :
  (forall ops q,
      preserves (fun t t' => Queue.status t <> Queue.pending_payment ->
                             Queue.status t' <> Queue.pending_payment)
        q (Core.run a ops q))
  /\ (forall task t q t0,
         Queue.getTask (Queue.id task) q = Some t0 ->
         exists t', Queue.getTask (Queue.id task) (Core.step a (Core.Execute task t) q) = Some t'
                    /\ (Queue.status t' = Queue.completed \/ Queue.status t' = Queue.failed))
  /\ (forall message now1 now2 q taskId txHash task v,
         JS.split ":" (Core.content message) !! 1%nat = Some taskId ->
         JS.split ":" (Core.content message) !! 2%nat = Some txHash ->
         Queue.getTask taskId q = Some task ->
         X402.verifyPayment (Core.payments a)
           {| X402.txHash := txHash; X402.proof_network := X402.base |}
           (Queue.priceUsdc task) None = JS.Normal v ->
         X402.valid v = true ->
         Queue.status <$> Queue.getTask taskId (Core.step a (Core.Payment message now1 now2) q)
         = Some Queue.paid).
Proof.
  split; [|split].
  - intros ops q. apply run_preserves; [tauto|tauto|].
    intros op q' id existing u now _ Hu _ _.
    rewrite observed_status.
    destruct op; cbn [update_of] in Hu;
      [destruct Hu as (? & ? & ? & ->)
      |destruct Hu as [[? ->]|[(? & ? & ->)|[? ->]]] ..]; discriminate.
  - intros task t q t0 Hget. cbn [Core.step].
    destruct (executeTask_effect a task t q) as (us & u & now & _ & Hu & ->). cbn [snd].
    destruct (getTask_apply_updates_last (Queue.id task) us u now q t0 Hget)
      as (t' & _ & ->).
    eexists. split; [reflexivity|]. rewrite observed_status.
    destruct Hu as [(? & ? & ->)|[? ->]]; [by left|by right].
  - intros message now1 now2 q taskId txHash task v H1 H2 Hget Hv Hvalid. cbn [Core.step].
    erewrite handlePaymentVerification_valid by eauto. cbn [snd].
    rewrite getTask_after_payment, Hget, decide_True by done.
    cbn. by rewrite observed_status.
Qed.

(** The paid request is executed to completion and then paid again: the task
    is still there and its status is not [pending_payment]. *)
Lemma status_never_returns_to_pending_witness :
  let a := Scenario.core Scenario.skill_ok Scenario.store_ok in
  let q := Core.step a (Core.Payment (Scenario.payment_message Sample.tx) 2000 2001)
             (Scenario.requested Scenario.empty_memory) in
  exists t',
    Queue.getTask Scenario.task_id
      (Core.run a [ Core.Tick (Scenario.times 3000);
                    Core.Payment (Scenario.payment_message Sample.tx) 4000 4001 ] q)
    = Some t'
    /\ Queue.status t' <> Queue.pending_payment.
Proof.
  intros a q.
  destruct (proj1 (status_never_returns_to_pending a)
              [ Core.Tick (Scenario.times 3000);
                Core.Payment (Scenario.payment_message Sample.tx) 4000 4001 ] q
              Scenario.task_id _ eq_refl) as (t' & Hget & Hstatus).
  exists t'. split; [exact Hget|]. apply Hstatus. discriminate.
Defined.

(** C1 fails as stated: the task is paid and executed to completion; the
    same proof is then submitted again, it verifies, and the status goes
    from [completed] back to [paid]. *)
Lemma status_regresses_from_completed_to_paid :
  let a := Scenario.core Scenario.skill_ok Scenario.store_ok in
  let q := Core.run a [ Core.Payment (Scenario.payment_message Sample.tx) 2000 2001;
                        Core.Tick (Scenario.times 3000) ]
             (Scenario.requested Scenario.empty_memory) in
  Queue.status <$> Queue.getTask Scenario.task_id q = Some Queue.completed
  /\ Queue.status <$> Queue.getTask Scenario.task_id
                        (Core.step a (Core.Payment (Scenario.payment_message Sample.tx)
                                        4000 4001) q)
     = Some Queue.paid.
Proof. split; vm_compute; reflexivity. Qed.

(** What the store shows of a task after the update of a verified payment. *)
Lemma paid_update_observed `{Host} `{!HostLaws H} (q : Queue.TaskQueue) (t : Queue.Task)
    (txHash : string) (now1 now2 : Z) (sender : option string) :
  let t' := observed q (Queue.merge t (Core.update_paid txHash now1 sender) now2) in
  Queue.status t' = Queue.paid
  /\ Queue.paidAt t' = Some now1
  /\ (txHash <> EmptyString -> Queue.paidTxHash t' = Some txHash).
Proof.
  intros t'. subst t'. rewrite observed_status, observed_paidAt.
  destruct (observed_text q (Queue.merge t (Core.update_paid txHash now1 sender) now2))
    as (-> & _ & _).
  cbn. split; [done|]. split.
  - destruct (Queue.useInMemory q); [done|]. apply date_roundtrip.
  - intros Hne. destruct (Queue.useInMemory q); [done|].
    by apply or_undefined_or_empty; congruence.
Qed.

(** C2 (as the code has it). [paidTxHash] and [paidAt] are written by
    nothing but a payment message whose proof verifies: executions and
    processor steps leave them as they are, and a payment message leaves
    every task record as it is unless it names the task and its proof
    verifies. A payment message whose proof verifies sets the status of its
    task to [paid], [paidAt] to the instant of the message and [paidTxHash]
    to its hash, whatever the status of the task and the values of the two
    fields were. *)
Theorem paid_fields_written_by_valid_proofs `{Host} `{!HostLaws H} (a : Core.AgentCore) :
  (forall ops q,
      Forall (fun op => forall message now1 now2, op <> Core.Payment message now1 now2) ops ->
      preserves (fun t t' => Queue.paidTxHash t' = Queue.paidTxHash t
                             /\ Queue.paidAt t' = Queue.paidAt t)
        q (Core.run a ops q))
  /\ (forall message now1 now2 q id t,
         Queue.getTask id q = Some t ->
         Queue.getTask id (Core.step a (Core.Payment message now1 now2) q) = Some t
         \/ exists txHash v,
             JS.split ":" (Core.content message) !! 1%nat = Some id
             /\ JS.split ":" (Core.content message) !! 2%nat = Some txHash
             /\ X402.verifyPayment (Core.payments a)
                  {| X402.txHash := txHash; X402.proof_network := X402.base |}
                  (Queue.priceUsdc t) None = JS.Normal v
             /\ X402.valid v = true)
  /\ (forall message now1 now2 q taskId txHash task v,
         JS.split ":" (Core.content message) !! 1%nat = Some taskId ->
         JS.split ":" (Core.content message) !! 2%nat = Some txHash ->
         Queue.getTask taskId q = Some task ->
         X402.verifyPayment (Core.payments a)
           {| X402.txHash := txHash; X402.proof_network := X402.base |}
           (Queue.priceUsdc task) None = JS.Normal v ->
         X402.valid v = true ->
         exists t',
           Queue.getTask taskId (Core.step a (Core.Payment message now1 now2) q) = Some t'
           /\ Queue.status t' = Queue.paid
           /\ Queue.paidAt t' = Some now1
           /\ (txHash <> EmptyString -> Queue.paidTxHash t' = Some txHash)).
Proof.
  split; [|split].
  - intros ops q Hops. apply run_preserves.
    + tauto.
    + intros t1 t2 t3 [H12 H12'] [H23 H23']. split; congruence.
    + intros op q' id existing u now Hin Hu Hget.
      rewrite Forall_forall in Hops. specialize (Hops op Hin).
      destruct op as [message now1 now2| | |]; [by destruct (Hops message now1 now2)|..];
        cbn [update_of] in Hu.
      all: rewrite <- (getTask_stored id q' existing Hget) at 2 4.
      all: unfold observed; destruct (Queue.useInMemory q'); [|clear Hget].
      all: destruct Hu as [[? ->]|[(? & ? & ->)|[? ->]]]; by destruct existing.
  - intros message now1 now2 q id t Hget. cbn [Core.step].
    destruct (handlePaymentVerification_effect a message now1 now2 q)
      as [->|(taskId & txHash & task & v & H1 & H2 & Hget' & Hv & Hvalid & ->)];
      [by left|].
    cbn [snd]. rewrite getTask_after_payment, Hget'.
    destruct (decide (id = taskId)) as [->|Hne]; [|by left].
    rewrite Hget in Hget'. injection Hget' as <-.
    right. by exists txHash, v.
  - intros message now1 now2 q taskId txHash task v H1 H2 Hget Hv Hvalid. cbn [Core.step].
    erewrite handlePaymentVerification_valid by eauto. cbn [snd].
    rewrite getTask_after_payment, Hget, decide_True by done.
    eexists. split; [reflexivity|]. apply paid_update_observed.
Qed.

(** With the backing store: the paid task is executed by the worker and its
    payment fields are as the payment left them. *)
Lemma paid_fields_written_by_valid_proofs_witness :
  let a := Scenario.core Scenario.skill_ok Scenario.store_ok in
  let q := Core.step a (Core.Payment (Scenario.payment_message Sample.tx) 2000 2001)
             (Scenario.requested Scenario.empty_redis) in
  exists t',
    Queue.getTask Scenario.task_id (Core.run a [Core.Work (Scenario.times 3000)] q) = Some t'
    /\ Queue.paidTxHash t' = Some Sample.tx
    /\ Queue.paidAt t' = Some 2000%Z.
Proof.
  intros a q.
  refine (proj1 (paid_fields_written_by_valid_proofs (H := ReferenceHost.host) a)
            [Core.Work (Scenario.times 3000)] q _ Scenario.task_id _ eq_refl).
  constructor; [discriminate|constructor].
Defined.

(** C2 fails as stated: the task is paid with one transaction and executed
    to completion; a second proof is then submitted; while the status is
    [completed], [paidTxHash] and [paidAt] are overwritten. *)
Lemma paid_fields_overwritten_after_completion :
  let a := Scenario.core Scenario.skill_ok Scenario.store_ok in
  let q := Core.run a [ Core.Payment (Scenario.payment_message Sample.tx) 2000 2001;
                        Core.Tick (Scenario.times 3000) ]
             (Scenario.requested Scenario.empty_memory) in
  let q' := Core.step a (Core.Payment (Scenario.payment_message Sample.tx2) 4000 4001) q in
  (fun t => (Queue.status t, Queue.paidTxHash t, Queue.paidAt t))
    <$> Queue.getTask Scenario.task_id q
  = Some (Queue.completed, Some Sample.tx, Some 2000%Z)
  /\ (fun t => (Queue.paidTxHash t, Queue.paidAt t)) <$> Queue.getTask Scenario.task_id q'
     = Some (Some Sample.tx2, Some 4000%Z).
Proof. split; vm_compute; reflexivity. Qed.

(** ** Deliverable and error *)

(** C3 (as the code has it). Run [executeTask] once on a task of the store.
    When its skill returns a deliverable that is not empty and the outcome
    is stored and shared, the task ends [completed] with that deliverable,
    and its error is what it was before the run. When no skill is found or
    the skill throws an error whose message is not empty, the task ends
    [failed] with that message as its error, and its deliverable is what it
    was before the run. So a task that had neither field ends with exactly
    one of them, and a task that is executed again keeps the field that the
    earlier run left. *)
Theorem execution_sets_deliverable_or_error `{Host} (a : Core.AgentCore)
    (task : Queue.Task) (t : Core.ExecTimes) (q : Queue.TaskQueue) (t0 : Queue.Task) :
  Queue.getTask (Queue.id task) q = Some t0 ->
  (forall skill result,
      Core.getSkill a (Queue.category task) = Some skill ->
      Core.execute skill (Core.skill_context task) = JS.Normal result ->
      Core.memory_store a (Core.outcome_memory task result) = JS.Normal tt ->
      Core.a2a_shareLearning a (Core.outcome_learning task result) = JS.Normal tt ->
      Core.result_deliverable result <> EmptyString ->
      exists t',
        Queue.getTask (Queue.id task) (Core.step a (Core.Execute task t) q) = Some t'
        /\ Queue.status t' = Queue.completed
        /\ Queue.deliverable t' = Some (Core.result_deliverable result)
        /\ Queue.error t' = Queue.error t0)
  /\ (forall e,
         (Core.getSkill a (Queue.category task) = None /\ e = Core.no_skill task)
         \/ (exists skill, Core.getSkill a (Queue.category task) = Some skill
                           /\ Core.execute skill (Core.skill_context task) = JS.Throw e) ->
         error_message e <> EmptyString ->
         exists t',
           Queue.getTask (Queue.id task) (Core.step a (Core.Execute task t) q) = Some t'
           /\ Queue.status t' = Queue.failed
           /\ Queue.error t' = Some (error_message e)
           /\ Queue.deliverable t' = Queue.deliverable t0).
Proof.
  intros Hget. split.
  - intros skill result Hskill Hexec Hstore Hshare Hne. cbn [Core.step].
    erewrite executeTask_completes by eauto. cbn [snd].
    rewrite (getTask_two_updates _ _ _ _ _ _ t0 Hget).
    eexists. split; [reflexivity|]. unfold observed.
    destruct (Queue.useInMemory q) eqn:E;
      cbn -[Queue.or_undefined Queue.or_empty Queue.date_or_undefined Queue.date_or_empty].
    + done.
    + destruct (getTask_text _ _ _ Hget E) as (_ & _ & ->).
      destruct (getTask_text _ _ _ Hget E) as (_ & _ & ->).
      split; [done|]. split; [|done].
      apply or_undefined_or_empty. congruence.
  - intros e He Hne. cbn [Core.step].
    erewrite executeTask_fails_early by eauto. cbn [snd].
    rewrite (getTask_two_updates _ _ _ _ _ _ t0 Hget).
    eexists. split; [reflexivity|]. unfold observed.
    destruct (Queue.useInMemory q) eqn:E;
      cbn -[Queue.or_undefined Queue.or_empty Queue.date_or_undefined Queue.date_or_empty].
    + done.
    + destruct (getTask_text _ _ _ Hget E) as (_ & -> & _).
      destruct (getTask_text _ _ _ Hget E) as (_ & -> & _).
      split; [done|]. split; [|done].
      apply or_undefined_or_empty. congruence.
Qed.

(** With the backing store: the paid task completes when the skill returns
    its report, and fails when the skill throws. *)
Lemma execution_sets_deliverable_or_error_witness :
  let paid a := Core.step a (Core.Payment (Scenario.payment_message Sample.tx) 2000 2001)
                  (Scenario.requested Scenario.empty_redis) in
  let task := (Queue.createTask Scenario.request Scenario.task_id 1000 1000 1000
                 Scenario.empty_redis).1 in
  let ok := Scenario.core Scenario.skill_ok Scenario.store_ok in
  let ko := Scenario.core Scenario.skill_fails Scenario.store_ok in
  (exists t',
      Queue.getTask Scenario.task_id
        (Core.step ok (Core.Execute task (Scenario.times 3000)) (paid ok)) = Some t'
      /\ Queue.status t' = Queue.completed
      /\ Queue.deliverable t' = Some "The report"
      /\ Queue.error t' = None)
  /\ (exists t',
         Queue.getTask Scenario.task_id
           (Core.step ko (Core.Execute task (Scenario.times 3000)) (paid ko)) = Some t'
         /\ Queue.status t' = Queue.failed
         /\ Queue.error t' = Some "model overloaded"
         /\ Queue.deliverable t' = None).
Proof.
  intros paid task ok ko. split.
  - refine (proj1 (execution_sets_deliverable_or_error ok task (Scenario.times 3000) (paid ok)
                     _ eq_refl)
              {| Core.execute := Scenario.skill_ok |} Scenario.report
              eq_refl eq_refl eq_refl eq_refl _).
    discriminate.
  - refine (proj2 (execution_sets_deliverable_or_error ko task (Scenario.times 3000) (paid ko)
                     _ eq_refl)
              (JS.Error "model overloaded") _ _).
    + right. exists {| Core.execute := Scenario.skill_fails |}. split; reflexivity.
    + discriminate.
Defined.

(** C3 fails as stated, in two ways. First, the skill returns its report and
    the task is completed, then storing the outcome in memory fails inside
    the same [try] block: the task ends [failed] with both the deliverable
    and the error. Second, an execution fails, the proof is submitted again
    and the next execution completes: the task ends [completed] with both the
    deliverable and the error of the first attempt. *)
Lemma deliverable_and_error_both_populated :
  let pay := Core.Payment (Scenario.payment_message Sample.tx) 2000 2001 in
  let tick := Core.Tick (Scenario.times 3000) in
  let view t := (Queue.status t, Queue.deliverable t, Queue.error t) in
  view <$> Queue.getTask Scenario.task_id
             (Core.run (Scenario.core Scenario.skill_ok Scenario.store_fails) [pay; tick]
                (Scenario.requested Scenario.empty_memory))
  = Some (Queue.failed, Some "The report", Some "memory store unavailable")
  /\ view <$> Queue.getTask Scenario.task_id
                (Core.run (Scenario.core Scenario.skill_ok Scenario.store_ok) [pay; tick]
                   (Core.run (Scenario.core Scenario.skill_fails Scenario.store_ok) [pay; tick]
                      (Scenario.requested Scenario.empty_memory)))
     = Some (Queue.completed, Some "The report", Some "model overloaded").
Proof. split; vm_compute; reflexivity. Qed.

(** ** The two modes of the task store *)

Section Modes.
Import JS Queue.
Context `{host : Host}.

Lemma set_add_NoDup x (l : list string) : NoDup l -> NoDup (set_add x l).
Proof.
  intros Hl. unfold set_add. case_bool_decide as Hin; [done|].
  apply NoDup_app. split; [done|]. split; [|apply NoDup_singleton].
  intros y Hy Hy'. apply list_elem_of_singleton in Hy'. by subst.
Qed.


Lemma set_delete_NoDup x (l : list string) : NoDup l -> NoDup (set_delete x l).
Proof.
  induction 1 as [|y l Hy Hl IH]; cbn; [constructor|].
  case_bool_decide; [|done]. constructor; [|done].
  intros Hin. apply Hy. unfold set_delete in Hin.
  apply list_elem_of_In, filter_In in Hin as [Hin _]. by apply list_elem_of_In.
Qed.


Lemma status_name_inj s s' : status_name s = status_name s' -> s = s'.
Proof. by destruct s, s'. Qed.


Lemma decide_status_name {A} s s' (a b : A) :
  (if decide (status_name s = status_name s') then a else b)
  = if decide (s = s') then a else b.
Proof.
  destruct (decide (s = s')) as [->|Hne]; [by rewrite decide_True|].
  rewrite decide_False; [done|]. intros Heq. by apply status_name_inj in Heq.
Qed.







Lemma listed_insert k k' (v : list string) (m : gmap string (list string)) :
  default [] (<[k := v]> m !! k') = if decide (k' = k) then v else default [] (m !! k').
Proof.
  destruct (decide (k' = k)) as [->|Hne].
  - by rewrite lookup_insert_eq.
  - by rewrite lookup_insert_ne.
Qed.

(** The status index in process after [updateTask] moved [id] from [old]
    to [new]. *)
Lemma listed_moved (m : gmap string (list string)) old new id k :
  let removed :=
    match m !! old with
    | Some s => <[old := set_delete id s]> m
    | None => m
    end in
  default [] (<[new := set_add id (default [] (removed !! new))]> removed !! k)
  = let after_delete k :=
      if decide (k = old) then set_delete id (default [] (m !! old))
      else default [] (m !! k) in
    if decide (k = new) then set_add id (after_delete new) else after_delete k.
Proof.
  intros removed.
  assert (Hremoved : forall k, default [] (removed !! k)
                               = if decide (k = old) then set_delete id (default [] (m !! old))
                                 else default [] (m !! k)).
  { intros k0. unfold removed. destruct (m !! old) as [s|] eqn:Hold.
    - by rewrite listed_insert.
    - destruct (decide (k0 = old)) as [->|Hne]; [by rewrite Hold|done]. }
  cbn zeta. rewrite listed_insert, !Hremoved. reflexivity.
Qed.

End Modes.

Section ModesAgree.
Import JS Queue.
Context `{host : Host} `{!HostLaws host}.



(** A task made by [createTask] or [updateTask] from clean arguments is
    kept unchanged by the backing store. *)
Lemma created_clean (data : CreateData) uuid now1 now2 score q :
  d_senderAddress data <> Some EmptyString ->
  deserializeTask (serializeTask (createTask data uuid now1 now2 score q).1)
  = (createTask data uuid now1 now2 score q).1.
Proof.
  intros Hsender. apply roundtrip_clean;
    unfold createTask; destruct (useInMemory q); [| destruct (redis q) | | destruct (redis q)
                                                 | | destruct (redis q) | | destruct (redis q)];
    done.
Qed.










End ModesAgree.




(* ===================================================================== *)
(** * Further properties of the code *)
(* ===================================================================== *)

(** ** The payment verifier *)

(** X1. [verifyPayment] accepts nothing else than a payment of at least the
    expected amount to the agent: a valid result means that the receipt
    exists and succeeded, that the first stablecoin transfer in it pays the
    agent's address an amount that is not below the expected one, and that
    its sender is the expected one when one is given (both compared without
    regard to case). The result reports that sender and amount. *)
Theorem verifyPayment_valid_only_for_payment `{Host} (h : X402.X402PaymentHandler)
    (proof : X402.PaymentProof) (expectedAmount : string) (expectedSender : option string)
    (r : X402.PaymentVerification) :
  X402.verifyPayment h proof expectedAmount expectedSender = JS.Normal r ->
  X402.valid r = true ->
  exists receipt transferLog amount expectedAmountWei,
    X402.getTransactionReceipt h (X402.txHash proof) = JS.Normal (Some receipt)
    /\ X402.status receipt = X402.success
    /\ List.find (X402.is_usdc_transfer h) (X402.logs receipt) = Some transferLog
    /\ JS.BigInt (X402.data transferLog) = JS.Normal amount
    /\ JS.toLowerCase (X402.topic_address (X402.topics transferLog !! 2%nat))
       = JS.toLowerCase (X402.account_address h)
    /\ Viem.parseUnits expectedAmount X402.USDC_DECIMALS = JS.Normal expectedAmountWei
    /\ (expectedAmountWei <= amount)%Z
    /\ (JS.truthy expectedSender = true ->
        JS.toLowerCase (X402.topic_address (X402.topics transferLog !! 1%nat))
        = JS.toLowerCase (default "" expectedSender))
    /\ r = {| X402.valid := true;
              X402.sender := Some (X402.topic_address (X402.topics transferLog !! 1%nat));
              X402.amount := Some (Viem.formatUnits amount X402.USDC_DECIMALS);
              X402.error := None |}.
Proof.
  unfold X402.verifyPayment, X402.verifyPayment_try.
  destruct (X402.getTransactionReceipt h (X402.txHash proof)) as [[receipt|]|e] eqn:Hreceipt;
    cbn [JS.bind JS.try_catch]; try (intros [= <-]; discriminate).
  destruct (X402.status receipt) eqn:Hstatus; [|intros [= <-]; discriminate].
  destruct (List.find _ _) as [transferLog|] eqn:Hfind; [|intros [= <-]; discriminate].
  destruct (JS.BigInt _) as [amount|e] eqn:Hamount; cbn [JS.bind JS.try_catch];
    [|intros [= <-]; discriminate].
  case_bool_decide as Hrecipient; [intros [= <-]; discriminate|].
  destruct (Viem.parseUnits _ _) as [wei|e] eqn:Hwei; cbn [JS.bind JS.try_catch];
    [|intros [= <-]; discriminate].
  destruct (amount <? wei)%Z eqn:Hlt; [intros [= <-]; discriminate|].
  destruct (JS.truthy expectedSender) eqn:Htruthy; cbn [andb].
  - case_bool_decide as Hsender; [intros [= <-]; discriminate|].
    intros [= <-] _. exists receipt, transferLog, amount, wei.
    apply Z.ltb_ge in Hlt. by repeat split.
  - intros [= <-] _. exists receipt, transferLog, amount, wei.
    apply Z.ltb_ge in Hlt. by repeat split.
Qed.

Lemma verifyPayment_valid_only_for_payment_witness :
  exists receipt transferLog amount expectedAmountWei,
    X402.getTransactionReceipt
      (Sample.handler [Sample.transfer Sample.payer Sample.agent Sample.word_5_00])
      (X402.txHash Sample.proof) = JS.Normal (Some receipt)
    /\ X402.status receipt = X402.success
    /\ List.find (X402.is_usdc_transfer
                    (Sample.handler [Sample.transfer Sample.payer Sample.agent
                                       Sample.word_5_00]))
         (X402.logs receipt) = Some transferLog
    /\ JS.BigInt (X402.data transferLog) = JS.Normal amount
    /\ JS.toLowerCase (X402.topic_address (X402.topics transferLog !! 2%nat))
       = JS.toLowerCase Sample.agent
    /\ Viem.parseUnits "4.5" X402.USDC_DECIMALS = JS.Normal expectedAmountWei
    /\ (expectedAmountWei <= amount)%Z
    /\ (JS.truthy (Some Sample.payer) = true ->
        JS.toLowerCase (X402.topic_address (X402.topics transferLog !! 1%nat))
        = JS.toLowerCase Sample.payer)
    /\ {| X402.valid := true; X402.sender := Some Sample.payer;
          X402.amount := Some "5"; X402.error := None |}
       = {| X402.valid := true;
            X402.sender := Some (X402.topic_address (X402.topics transferLog !! 1%nat));
            X402.amount := Some (Viem.formatUnits amount X402.USDC_DECIMALS);
            X402.error := None |}.
Proof.
  exact (verifyPayment_valid_only_for_payment
           (Sample.handler [Sample.transfer Sample.payer Sample.agent Sample.word_5_00])
           Sample.proof "4.5" (Some Sample.payer) _ eq_refl eq_refl).
Defined.

(** X2. The failures of [verifyPayment] that come before the checks of the
    transfer: a ledger read that throws, a missing receipt, a reverted
    transaction (whatever its logs), a receipt without a stablecoin transfer,
    and a transfer whose data is no integer literal (reported before the
    recipient is looked at). Each one is returned as its own error. *)
Theorem verifyPayment_early_failures `{Host} (h : X402.X402PaymentHandler)
    (proof : X402.PaymentProof) (expectedAmount : string) (expectedSender : option string) :
  (forall e,
      X402.getTransactionReceipt h (X402.txHash proof) = JS.Throw e ->
      X402.verifyPayment h proof expectedAmount expectedSender
      = JS.Normal (X402.invalid ("Verification failed: " +:+ error_message e)))
  /\ (X402.getTransactionReceipt h (X402.txHash proof) = JS.Normal None ->
      X402.verifyPayment h proof expectedAmount expectedSender
      = JS.Normal (X402.invalid "Transaction not found"))
  /\ (forall receipt,
         X402.getTransactionReceipt h (X402.txHash proof) = JS.Normal (Some receipt) ->
         (X402.status receipt = X402.reverted ->
          X402.verifyPayment h proof expectedAmount expectedSender
          = JS.Normal (X402.invalid "Transaction failed"))
         /\ (X402.status receipt = X402.success ->
             Forall (fun log => X402.is_usdc_transfer h log = false) (X402.logs receipt) ->
             X402.verifyPayment h proof expectedAmount expectedSender
             = JS.Normal (X402.invalid "No USDC transfer found in transaction"))
         /\ (forall transferLog,
                X402.status receipt = X402.success ->
                List.find (X402.is_usdc_transfer h) (X402.logs receipt) = Some transferLog ->
                JS.StringToBigInt (X402.data transferLog) = None ->
                X402.verifyPayment h proof expectedAmount expectedSender
                = JS.Normal (X402.invalid ("Verification failed: "
                                             +:+ SyntaxError_message (X402.data transferLog))))).
Proof.
  unfold X402.verifyPayment, X402.verifyPayment_try. split; [|split].
  - by intros e ->.
  - by intros ->.
  - intros receipt ->. cbn [JS.bind]. split; [|split].
    + by intros ->.
    + intros -> Hlogs.
      assert (Hfind : List.find (X402.is_usdc_transfer h) (X402.logs receipt) = None).
      { induction Hlogs as [|log logs Hlog _ IH]; [done|]. cbn. by rewrite Hlog. }
      by rewrite Hfind.
    + intros transferLog -> -> Hdata. unfold JS.BigInt. by rewrite Hdata.
Qed.

(** A transaction that the sample ledger does not know is not found; a
    receipt whose only log comes from another contract holds no transfer. *)
Lemma verifyPayment_early_failures_witness :
  X402.verifyPayment (Sample.handler []) {| X402.txHash := "0xcccc";
                                            X402.proof_network := X402.base |} "5" None
  = JS.Normal (X402.invalid "Transaction not found")
  /\ X402.verifyPayment (Sample.handler [Sample.unrelated]) Sample.proof "5" None
     = JS.Normal (X402.invalid "No USDC transfer found in transaction").
Proof.
  split.
  - exact (proj1 (proj2 (verifyPayment_early_failures (Sample.handler [])
                           {| X402.txHash := "0xcccc"; X402.proof_network := X402.base |}
                           "5" None)) eq_refl).
  - refine (proj1 (proj2 (proj2 (proj2 (verifyPayment_early_failures
                                          (Sample.handler [Sample.unrelated])
                                          Sample.proof "5" None)) _ eq_refl)) eq_refl _).
    by repeat constructor.
Defined.

(** X3. The sender check of [verifyPayment], for a transfer that pays the
    agent at least the expected amount: an expected sender that differs from
    the decoded one, without regard to case, is rejected; one that agrees
    without regard to case is accepted; and the empty string as expected
    sender is no expectation at all. *)
Theorem verifyPayment_sender_check `{Host} (h : X402.X402PaymentHandler)
    (proof : X402.PaymentProof) (expectedAmount expectedSender : string)
    (receipt : X402.TransactionReceipt) (transferLog : X402.Log)
    (amount expectedAmountWei : Z) :
  X402.getTransactionReceipt h (X402.txHash proof) = JS.Normal (Some receipt) ->
  X402.status receipt = X402.success ->
  List.find (X402.is_usdc_transfer h) (X402.logs receipt) = Some transferLog ->
  JS.BigInt (X402.data transferLog) = JS.Normal amount ->
  JS.toLowerCase (X402.topic_address (X402.topics transferLog !! 2%nat))
  = JS.toLowerCase (X402.account_address h) ->
  Viem.parseUnits expectedAmount X402.USDC_DECIMALS = JS.Normal expectedAmountWei ->
  (expectedAmountWei <= amount)%Z ->
  let sender := X402.topic_address (X402.topics transferLog !! 1%nat) in
  let accepted :=
    JS.Normal {| X402.valid := true; X402.sender := Some sender;
                 X402.amount := Some (Viem.formatUnits amount X402.USDC_DECIMALS);
                 X402.error := None |} in
  X402.verifyPayment h proof expectedAmount (Some expectedSender)
  = if bool_decide (expectedSender = EmptyString
                    \/ JS.toLowerCase sender = JS.toLowerCase expectedSender)
    then accepted
    else JS.Normal (X402.invalid "Payment from unexpected sender").
Proof.
  intros Hreceipt Hstatus Hfind Hamount Hrecipient Hwei Hle sender accepted.
  rewrite (verifyPayment_found h proof expectedAmount (Some expectedSender)
             receipt transferLog amount) by assumption.
  rewrite bool_decide_eq_false_2 by (intros Hne; apply Hne, Hrecipient).
  rewrite Hwei. apply Z.ltb_ge in Hle. rewrite Hle.
  destruct expectedSender as [|c s].
  - cbn [JS.truthy andb]. by rewrite (bool_decide_eq_true_2 (_ \/ _)) by (by left).
  - cbn [JS.truthy andb default from_option Datatypes.id]. fold sender.
    destruct (decide (JS.toLowerCase sender = JS.toLowerCase (String c s))) as [Heq|Hne].
    + rewrite (bool_decide_eq_false_2 (_ <> _)) by (intros Hne; by apply Hne).
      by rewrite (bool_decide_eq_true_2 (_ \/ _)) by (by right).
    + rewrite (bool_decide_eq_true_2 (_ <> _)) by done.
      rewrite (bool_decide_eq_false_2 (_ \/ _)); [done|]. by intros [?|?].
Qed.

(** The payer's address in capital letters is accepted as expected sender; a
    stranger's address is not. *)
Lemma verifyPayment_sender_check_witness :
  X402.verifyPayment
    (Sample.handler [Sample.transfer Sample.payer Sample.agent Sample.word_5_00])
    Sample.proof "5" (Some "0X2222222222222222222222222222222222222222")
  = JS.Normal {| X402.valid := true; X402.sender := Some Sample.payer;
                 X402.amount := Some "5"; X402.error := None |}
  /\ X402.verifyPayment
       (Sample.handler [Sample.transfer Sample.payer Sample.agent Sample.word_5_00])
       Sample.proof "5" (Some Sample.stranger)
     = JS.Normal (X402.invalid "Payment from unexpected sender").
Proof.
  split.
  - exact (verifyPayment_sender_check
             (Sample.handler [Sample.transfer Sample.payer Sample.agent Sample.word_5_00])
             Sample.proof "5" "0X2222222222222222222222222222222222222222" _ _
             5000000%Z 5000000%Z eq_refl eq_refl eq_refl eq_refl eq_refl eq_refl
             (Z.le_refl _)).
  - exact (verifyPayment_sender_check
             (Sample.handler [Sample.transfer Sample.payer Sample.agent Sample.word_5_00])
             Sample.proof "5" Sample.stranger _ _
             5000000%Z 5000000%Z eq_refl eq_refl eq_refl eq_refl eq_refl eq_refl
             (Z.le_refl _)).
Defined.

(** ** Unit conversion *)

Section Digits.
Import JS Viem.

Lemma is_digit_cases (c : ascii) :
  is_digit c = true ->
  c ∈ ["0"; "1"; "2"; "3"; "4"; "5"; "6"; "7"; "8"; "9"]%char.
Proof.
  destruct c as [[] [] [] [] [] [] [] []]; vm_compute; intros Hc;
    first [discriminate Hc | set_solver].
Qed.

Lemma all_digits_cons c s : all_digits (String c s) = is_digit c && all_digits s.
Proof. reflexivity. Qed.

Lemma all_digits_app s1 s2 : all_digits (s1 +:+ s2) = all_digits s1 && all_digits s2.
Proof.
  induction s1 as [|c s1 IH]; [done|].
  change (String c s1 +:+ s2) with (String c (s1 +:+ s2)).
  by rewrite !all_digits_cons, IH, andb_assoc.
Qed.

Lemma all_digits_slice_to n s : all_digits s = true -> all_digits (slice_to n s) = true.
Proof.
  revert s. induction n as [|n IH]; intros [|c s]; try done.
  cbn [slice_to]. rewrite !all_digits_cons. intros [Hc Hs]%andb_prop.
  by rewrite Hc, IH.
Qed.

Lemma all_digits_slice_from n s : all_digits s = true -> all_digits (slice_from n s) = true.
Proof.
  revert s. induction n as [|n IH]; intros [|c s]; try done.
  cbn [slice_from]. rewrite all_digits_cons. intros [Hc Hs]%andb_prop. by apply IH.
Qed.

Lemma slice_to_from n s : slice_to n s +:+ slice_from n s = s.
Proof.
  revert s. induction n as [|n IH]; intros [|c s]; try done.
  change (String c (slice_to n s +:+ slice_from n s) = String c s). by rewrite IH.
Qed.

Lemma length_slice_from n s : String.length (slice_from n s) = (String.length s - n)%nat.
Proof. revert s. induction n as [|n IH]; intros [|c s]; cbn; auto with lia. Qed.

Lemma length_slice_to n s : String.length (slice_to n s) = Nat.min n (String.length s).
Proof. revert s. induction n as [|n IH]; intros [|c s]; cbn; auto with lia. Qed.

Lemma string_length_app s1 s2 :
  String.length (s1 +:+ s2) = (String.length s1 + String.length s2)%nat.
Proof. induction s1 as [|c s1 IH]; [done|]. simpl. by rewrite IH. Qed.

Lemma all_digits_zeros n : all_digits (zeros n) = true.
Proof. induction n as [|n IH]; [done|]. cbn. exact IH. Qed.

Lemma length_zeros n : String.length (zeros n) = n.
Proof. induction n as [|n IH]; cbn; auto with lia. Qed.

Lemma padStart0_zeros n s : padStart0 n s = zeros (n - String.length s) +:+ s.
Proof.
  unfold padStart0, zeros. induction (n - String.length s)%nat as [|k IH]; [done|].
  simpl. by rewrite IH.
Qed.

Lemma padEnd0_zeros n s : padEnd0 n s = s +:+ zeros (n - String.length s).
Proof. reflexivity. Qed.

(** Stripping the trailing zeros and padding back to the length. *)
Lemma strip_pad s :
  strip_trailing_zeros s
    +:+ zeros (String.length s - String.length (strip_trailing_zeros s)) = s.
Proof.
  induction s as [|c s IH]; [done|]. cbn [strip_trailing_zeros].
  destruct (strip_trailing_zeros s) as [|c' r] eqn:Hs.
  - rewrite Nat.sub_0_r in IH. change (zeros (String.length s) = s) in IH.
    destruct (Ascii.eqb_spec c "0") as [->|Hne].
    + change (String "0" (zeros (String.length s)) = String "0" s). by rewrite IH.
    + change (String c (zeros (String.length s - 0)) = String c s).
      by rewrite Nat.sub_0_r, IH.
  - change (String c (String c' r
      +:+ zeros (String.length s - String.length (String c' r))) = String c s).
    by rewrite IH.
Qed.

Lemma length_strip s : (String.length (strip_trailing_zeros s) <= String.length s)%nat.
Proof.
  induction s as [|c s IH]; [done|]. cbn [strip_trailing_zeros].
  destruct (strip_trailing_zeros s) as [|c' r]; [destruct (Ascii.eqb c "0")|];
    cbn in *; lia.
Qed.

Lemma all_digits_strip s : all_digits s = true -> all_digits (strip_trailing_zeros s) = true.
Proof.
  induction s as [|c s IH]; [done|]. rewrite all_digits_cons.
  intros [Hc Hs]%andb_prop. cbn [strip_trailing_zeros].
  destruct (strip_trailing_zeros s) as [|c' r].
  - destruct (Ascii.eqb c "0"); [done|]. by rewrite all_digits_cons, Hc.
  - by rewrite all_digits_cons, Hc, IH.
Qed.

Lemma strip_cons c s :
  strip_trailing_zeros (String c s) =
    match strip_trailing_zeros s with
    | EmptyString => if Ascii.eqb c "0" then EmptyString else String c EmptyString
    | r => String c r
    end.
Proof. reflexivity. Qed.

Lemma strip_idem s : strip_trailing_zeros (strip_trailing_zeros s) = strip_trailing_zeros s.
Proof.
  induction s as [|c s IH]; [done|]. cbn [strip_trailing_zeros].
  destruct (strip_trailing_zeros s) as [|c' r] eqn:Hs.
  - destruct (Ascii.eqb c "0") eqn:Hc; [done|]. cbn. by rewrite Hc.
  - rewrite strip_cons. by rewrite IH.
Qed.

Lemma string_app_cons c s1 s2 : String c s1 +:+ s2 = String c (s1 +:+ s2).
Proof. reflexivity. Qed.

Lemma string_app_nil_r s : s +:+ "" = s.
Proof. induction s as [|c s IH]; [done|]. by rewrite string_app_cons, IH. Qed.

Lemma string_app_assoc s1 s2 s3 : (s1 +:+ s2) +:+ s3 = s1 +:+ (s2 +:+ s3).
Proof. induction s1 as [|c s1 IH]; [done|]. by rewrite !string_app_cons, IH. Qed.

Lemma is_digit_value c :
  is_digit c = true -> exists d, digit_value c = Some d /\ (0 <= d < 10)%Z.
Proof.
  intros Hc%is_digit_cases. repeat (apply elem_of_cons in Hc as [->|Hc]);
    [eexists; split; [vm_compute; reflexivity|lia]..|by apply elem_of_nil in Hc].
Qed.

Lemma is_digit_not_space c : is_digit c = true -> is_space c = false.
Proof.
  intros Hc%is_digit_cases. repeat (apply elem_of_cons in Hc as [->|Hc]);
    [reflexivity..|by apply elem_of_nil in Hc].
Qed.

Lemma parse_digits_app r s1 s2 acc :
  parse_digits r (s1 +:+ s2) acc = parse_digits r s1 acc ≫= parse_digits r s2.
Proof.
  revert acc. induction s1 as [|c s1 IH]; intros acc; [done|].
  rewrite string_app_cons. cbn [parse_digits]. destruct (digit_value c) as [d|]; [|done].
  destruct (d <? r)%Z; [apply IH|done].
Qed.

Lemma parse_digits_total s acc :
  all_digits s = true -> is_Some (parse_digits 10 s acc).
Proof.
  revert acc. induction s as [|c s IH]; intros acc; [by eexists|].
  rewrite all_digits_cons. intros [Hc Hs]%andb_prop.
  destruct (is_digit_value c Hc) as (d & Hd & Hlt). cbn [parse_digits]. rewrite Hd.
  rewrite (proj2 (Z.ltb_lt d 10)) by lia. by apply IH.
Qed.

Lemma parse_digits_zeros n s : parse_digits 10 (zeros n +:+ s) 0 = parse_digits 10 s 0.
Proof. induction n as [|n IH]; [done|]. exact IH. Qed.

(** The decimal digits of a number. *)
Lemma pretty_N_char_digit (d : N) :
  (d < 10)%N ->
  is_digit (pretty_N_char d) = true /\
  digit_value (pretty_N_char d) = Some (Z.of_N d).
Proof.
  intros Hd.
  assert (d = 0 \/ d = 1 \/ d = 2 \/ d = 3 \/ d = 4 \/ d = 5 \/ d = 6 \/ d = 7
          \/ d = 8 \/ d = 9)%N as Hcases by lia.
  destruct_or!; subst d; done.
Qed.

Lemma pretty_N_go_app x s : pretty_N_go x s = pretty_N_go x "" +:+ s.
Proof.
  revert s. induction (N.lt_wf_0 x) as [x _ IH]; intros s.
  assert (x = 0 \/ 0 < x)%N as [->|Hx] by lia; [by rewrite !pretty_N_go_0|].
  rewrite !(pretty_N_go_step x) by done.
  assert (x `div` 10 < x)%N as Hlt by (by apply N.div_lt).
  rewrite (IH _ Hlt (String _ s)), (IH _ Hlt (String _ "")).
  by rewrite string_app_assoc.
Qed.

Lemma pretty_N_go_digits x :
  all_digits (pretty_N_go x "") = true /\
  parse_digits 10 (pretty_N_go x "") 0 = Some (Z.of_N x) /\
  ((0 < x)%N -> pretty_N_go x "" <> "").
Proof.
  induction (N.lt_wf_0 x) as [x _ IH].
  assert (x = 0 \/ 0 < x)%N as [->|Hx] by lia.
  { rewrite pretty_N_go_0. split; [done|split; [done|lia]]. }
  rewrite pretty_N_go_step, pretty_N_go_app by done.
  destruct (IH (x `div` 10)%N) as (Hall & Hparse & _); [by apply N.div_lt|].
  destruct (pretty_N_char_digit (x `mod` 10)%N) as [Hc Hv]; [by apply N.mod_lt|].
  split; [|split].
  - rewrite all_digits_app, Hall, all_digits_cons, Hc. done.
  - rewrite parse_digits_app, Hparse. cbn [mbind option_bind parse_digits]. rewrite Hv.
    rewrite (proj2 (Z.ltb_lt _ 10)) by (pose proof (N.mod_lt x 10); lia).
    f_equal. rewrite (N.div_mod x 10) at 3 by done. lia.
  - intros _ Heq. apply (f_equal String.length) in Heq.
    rewrite string_length_app in Heq. cbn in Heq. lia.
Qed.

(** The decimal text of a natural number: digits, at least one, and read back
    as the number. *)
Lemma pretty_nonneg (z : Z) :
  (0 <= z)%Z ->
  all_digits (pretty z) = true /\ pretty z <> "" /\
  parse_digits 10 (pretty z) 0 = Some z.
Proof.
  intros Hz. destruct z as [|p|p]; [done| |lia].
  change (pretty (Z.pos p)) with (pretty_N_go (N.pos p) "").
  destruct (pretty_N_go_digits (N.pos p)) as (Hall & Hparse & Hne).
  repeat split; [done|by apply Hne|by rewrite Hparse].
Qed.

Lemma pretty_neg (z : Z) : (z < 0)%Z -> pretty z = String "-" (pretty (- z)%Z).
Proof. intros Hz. destruct z as [|p|p]; [lia..|done]. Qed.

Lemma trim_end_digits s : all_digits s = true -> trim_end s = s.
Proof.
  induction s as [|c s IH]; [done|]. rewrite all_digits_cons.
  intros [Hc Hs]%andb_prop. cbn [trim_end]. rewrite (IH Hs).
  destruct s; [|done]. by rewrite (is_digit_not_space c Hc).
Qed.

Lemma is_digit_not_minus c : is_digit c = true -> Ascii.eqb "-" c = false.
Proof.
  intros Hc%is_digit_cases. repeat (apply elem_of_cons in Hc as [->|Hc]);
    [reflexivity..|by apply elem_of_nil in Hc].
Qed.

Lemma is_digit_not_dot c : is_digit c = true -> Ascii.eqb c "." = false.
Proof.
  intros Hc%is_digit_cases. repeat (apply elem_of_cons in Hc as [->|Hc]);
    [reflexivity..|by apply elem_of_nil in Hc].
Qed.

Lemma digits_not_signed s : all_digits s = true -> startsWith s "-" = false.
Proof.
  destruct s as [|c s]; [done|]. rewrite all_digits_cons.
  intros [Hc _]%andb_prop. cbn [startsWith]. by rewrite (is_digit_not_minus c Hc).
Qed.

(** [BigInt] reads a string of decimal digits as the number they write. *)
Lemma StringToBigInt_digits s :
  all_digits s = true -> s <> "" -> StringToBigInt s = parse_digits 10 s 0.
Proof.
  intros Hs Hne. unfold StringToBigInt.
  destruct s as [|c s]; [done|]. pose proof Hs as Hs'.
  rewrite all_digits_cons in Hs'. apply andb_prop in Hs' as [Hc Hrest].
  cbn [trim_start]. rewrite (is_digit_not_space c Hc), (trim_end_digits _ Hs).
  apply is_digit_cases in Hc.
  repeat (apply elem_of_cons in Hc as [->|Hc]); [|reflexivity..|by apply elem_of_nil in Hc].
  destruct s as [|c' s]; [reflexivity|].
  rewrite all_digits_cons in Hrest. apply andb_prop in Hrest as [Hc' _].
  apply is_digit_cases in Hc'.
  repeat (apply elem_of_cons in Hc' as [->|Hc']);
    [reflexivity..|by apply elem_of_nil in Hc'].
Qed.

Lemma StringToBigInt_minus_digits s :
  all_digits s = true -> s <> "" ->
  StringToBigInt (String "-" s) = Z.opp <$> parse_digits 10 s 0.
Proof.
  intros Hs Hne. unfold StringToBigInt.
  change (trim_start (String "-" s)) with (String "-" s).
  cbn [trim_end]. rewrite (trim_end_digits _ Hs).
  destruct s as [|c s]; [done|]. reflexivity.
Qed.

Lemma split_dot_digits i : all_digits i = true -> split_dot i = (i, None).
Proof.
  induction i as [|c i IH]; [done|]. rewrite all_digits_cons.
  intros [Hc Hi]%andb_prop. cbn [split_dot].
  by rewrite (is_digit_not_dot c Hc), (IH Hi).
Qed.

Lemma split_dot_fraction i f :
  all_digits i = true -> split_dot (i +:+ String "." f) = (i, Some f).
Proof.
  induction i as [|c i IH]; [done|]. rewrite all_digits_cons.
  intros [Hc Hi]%andb_prop. rewrite string_app_cons. cbn [split_dot].
  by rewrite (is_digit_not_dot c Hc), (IH Hi).
Qed.

Lemma startsWith_empty s : startsWith s "" = true.
Proof. by destruct s. Qed.

(** [parseUnits] on the text [formatUnits] writes: a sign, the integer digits,
    and the fraction digits without their trailing zeros. *)
Lemma parseUnits_digits (neg : bool) (I0 F : string) (z : Z) (d : nat) :
  all_digits I0 = true -> I0 <> "" -> all_digits F = true -> String.length F = d ->
  parse_digits 10 (I0 +:+ F) 0 = Some z ->
  parseUnits
    ((if neg then "-" else "") +:+ I0
       +:+ (if truthy (Some (strip_trailing_zeros F))
            then "." +:+ strip_trailing_zeros F else "")) d
  = Normal (if neg then - z else z)%Z.
Proof.
  intros HI HIne HF Hlen Hparse.
  set (F' := strip_trailing_zeros F).
  set (T := if truthy (Some F') then "." +:+ F' else "").
  assert (exists fo, split_dot (I0 +:+ T) = (I0, fo) /\
            strip_trailing_zeros (default "0" fo) = F' /\
            from_option all_digits true fo = true) as (fo & Hsplit & Hstrip & Hfo).
  { subst T. destruct (truthy (Some F')) eqn:Ht.
    - exists (Some F'). split; [by apply split_dot_fraction|].
      split; [apply strip_idem|by apply all_digits_strip].
    - exists None. assert (F' = "") as -> by (by destruct F').
      rewrite string_app_nil_r. split; [by apply split_dot_digits|done]. }
  clearbody T.
  assert (startsWith I0 "-" = false) as HI0 by (by apply digits_not_signed).
  set (sign := if neg then "-" else "").
  assert (split_dot (sign +:+ I0 +:+ T) = (sign +:+ I0, fo)) as HsplitV.
  { subst sign. destruct neg; [|exact Hsplit].
    change (split_dot (String "-" (I0 +:+ T)) = (String "-" I0, fo)).
    cbn [split_dot]. change (Ascii.eqb "-" ".") with false. cbv iota.
    by rewrite Hsplit. }
  assert (startsWith (I0 +:+ T) "-" = false) as HI0T.
  { destruct I0 as [|c I0]; [done|]. rewrite string_app_cons.
    rewrite all_digits_cons in HI. apply andb_prop in HI as [Hc _].
    cbn [startsWith]. by rewrite (is_digit_not_minus c Hc). }
  assert (BigInt (sign +:+ I0 +:+ F) = Normal (if neg then - z else z)%Z) as HBig.
  { assert (all_digits (I0 +:+ F) = true) as Hall by (by rewrite all_digits_app, HI, HF).
    assert (I0 +:+ F <> "") as Hne by (by destruct I0).
    unfold BigInt. subst sign. destruct neg.
    - change ("-" +:+ I0 +:+ F) with (String "-" (I0 +:+ F)).
      by rewrite StringToBigInt_minus_digits, Hparse.
    - change ("" +:+ I0 +:+ F) with (I0 +:+ F).
      by rewrite StringToBigInt_digits, Hparse. }
  assert (is_decimal_number (sign +:+ I0 +:+ T) = true) as Hdec.
  { unfold is_decimal_number. subst sign. destruct neg.
    - change (startsWith ("-" +:+ I0 +:+ T) "-") with (startsWith (I0 +:+ T) "").
      rewrite startsWith_empty.
      change (slice_from 1 ("-" +:+ I0 +:+ T)) with (I0 +:+ T).
      by rewrite Hsplit, HI, Hfo.
    - change ("" +:+ I0 +:+ T) with (I0 +:+ T). by rewrite HI0T, Hsplit, HI, Hfo. }
  assert (startsWith (sign +:+ I0) "-" = neg) as Hneg.
  { subst sign. destruct neg; [apply startsWith_empty|exact HI0]. }
  assert ((if neg then slice_from 1 (sign +:+ I0) else sign +:+ I0) = I0) as Hint.
  { subst sign. by destruct neg. }
  unfold parseUnits. rewrite Hdec, HsplitV. cbn [negb]. cbv beta iota zeta.
  rewrite Hneg, Hint, Hstrip. fold sign.
  destruct (Nat.eqb_spec d 0) as [Hd|Hd].
  - assert (F = "") as HF0 by (destruct F; [done|cbn in Hlen; lia]).
    subst F'. rewrite HF0 in *. change (round_digit "" (strip_trailing_zeros "") =? 1)%Z with false.
    cbv iota. exact HBig.
  - pose proof (length_strip F) as Hle. fold F' in Hle.
    rewrite (proj2 (Nat.ltb_ge d (String.length F'))) by lia.
    rewrite padEnd0_zeros. subst F'. rewrite <- Hlen, strip_pad. exact HBig.
Qed.

Lemma parse_digits_nonneg s acc z :
  (0 <= acc)%Z -> parse_digits 10 s acc = Some z -> (0 <= z)%Z.
Proof.
  revert acc. induction s as [|c s IH]; intros acc Hacc; cbn [parse_digits].
  - intros [= <-]. done.
  - destruct (digit_value c) as [k|] eqn:Hk; [|done].
    destruct (k <? 10)%Z; [|done]. apply IH.
    unfold digit_value in Hk. repeat case_match; simplify_eq; lia.
Qed.

Lemma digits_value_nonneg s : all_digits s = true -> (0 <= digits_value s)%Z.
Proof.
  intros Hs. unfold digits_value. destruct s as [|c s]; [done|].
  rewrite StringToBigInt_digits by done.
  destruct (parse_digits 10 (String c s) 0) as [z|] eqn:Hz; [|done].
  cbn [default from_option Datatypes.id]. by apply (parse_digits_nonneg (String c s) 0 z).
Qed.

Lemma increment_digits s :
  all_digits s = true -> all_digits (increment s) = true /\ increment s <> "".
Proof.
  intros Hs%digits_value_nonneg. unfold increment.
  destruct (pretty_nonneg (digits_value s + 1)) as (? & ? & _); [lia|done].
Qed.

Lemma nonempty_length s : s <> "" <-> (0 < String.length s)%nat.
Proof. destruct s; cbn; split; (done || lia). Qed.

Lemma BigInt_signed_digits (neg : bool) s :
  all_digits s = true -> s <> "" ->
  exists z, BigInt ((if neg then "-" else "") +:+ s) = Normal z.
Proof.
  intros Hs Hne. unfold BigInt. destruct (parse_digits_total s 0 Hs) as [z Hz].
  destruct neg.
  - change ("-" +:+ s) with (String "-" s).
    rewrite StringToBigInt_minus_digits, Hz by done. by eexists.
  - change ("" +:+ s) with s. rewrite StringToBigInt_digits, Hz by done. by eexists.
Qed.

End Digits.

(** X4. Writing an integer number of base units as a decimal string and
    reading the string back with the same number of decimals gives the number
    again, for every integer (negative ones included) and every number of
    decimals: [parseUnits (formatUnits z d) d] returns [z] and does not
    throw. *)
Theorem parseUnits_formatUnits (z : Z) (d : nat) :
  Viem.parseUnits (Viem.formatUnits z d) d = JS.Normal z.
Proof.
  set (a := Z.abs z).
  destruct (pretty_nonneg a) as (Hall & Hne & Hparse); [lia|].
  assert (JS.startsWith (pretty z) "-" = (z <? 0)%Z /\
          (if (z <? 0)%Z then JS.slice_from 1 (pretty z) else pretty z) = pretty a)
    as [Hsign Hdisplay].
  { destruct (Z.ltb_spec z 0) as [Hz|Hz].
    - rewrite pretty_neg by done. split; [apply startsWith_empty|].
      cbn [JS.slice_from]. f_equal. lia.
    - replace a with z in * by lia. split; [by apply digits_not_signed|done]. }
  unfold Viem.formatUnits. cbv zeta. rewrite Hsign, Hdisplay.
  set (D := JS.padStart0 d (pretty a)).
  assert (Viem.all_digits D = true) as HD.
  { subst D. by rewrite padStart0_zeros, all_digits_app, all_digits_zeros, Hall. }
  assert (JS.parse_digits 10 D 0 = Some a) as HDparse.
  { subst D. by rewrite padStart0_zeros, parse_digits_zeros. }
  assert (d <= String.length D)%nat as HDlen.
  { subst D. rewrite padStart0_zeros, string_length_app, length_zeros. lia. }
  assert (D <> "") as HDne.
  { subst D. rewrite padStart0_zeros. intros Heq%(f_equal String.length).
    rewrite string_length_app in Heq. destruct (pretty a); [done|]. cbn in Heq. lia. }
  clearbody D.
  set (I := JS.slice_to (String.length D - d) D).
  set (F := JS.slice_from (String.length D - d) D).
  assert (I +:+ F = D) as HIF by apply slice_to_from.
  set (I0 := if JS.truthy (Some I) then I else "0").
  assert (Viem.all_digits I0 = true /\ I0 <> "" /\
          JS.parse_digits 10 (I0 +:+ F) 0 = Some a) as (HI0 & HI0ne & HI0parse).
  { subst I0. destruct I as [|c I'] eqn:HI.
    - cbn [JS.truthy]. split; [done|]. split; [done|].
      change ("" +:+ F) with F in HIF. rewrite HIF.
      change (JS.parse_digits 10 ("0" +:+ D) 0) with (JS.parse_digits 10 D 0). done.
    - cbn [JS.truthy]. rewrite HIF. split; [|done].
      rewrite <- HI. subst I. by apply all_digits_slice_to. }
  rewrite (parseUnits_digits (z <? 0)%Z I0 F a d); try done.
  - f_equal. destruct (Z.ltb_spec z 0); lia.
  - subst F. by apply all_digits_slice_from.
  - subst F. rewrite length_slice_from. lia.
Qed.

(** With at least one decimal, [parseUnits] throws exactly on the strings that
    are no decimal numbers, and what it then throws is the
    [InvalidDecimalNumberError] of that string: on a decimal number the final
    [BigInt] never fails. *)
Lemma parseUnits_decimal (value : string) (d : nat) :
  (0 < d)%nat ->
  if Viem.is_decimal_number value
  then exists z, Viem.parseUnits value d = JS.Normal z
  else Viem.parseUnits value d = JS.Throw (JS.InvalidDecimalNumberError value).
Proof.
  intros Hd. destruct (Viem.is_decimal_number value) eqn:Hdec;
    [|unfold Viem.parseUnits; by rewrite Hdec].
  unfold Viem.parseUnits. rewrite Hdec. cbn [negb].
  unfold Viem.is_decimal_number in Hdec.
  set (neg := JS.startsWith value "-") in *.
  destruct (Viem.split_dot (if neg then JS.slice_from 1 value else value))
    as [i f] eqn:Hsplit.
  apply andb_prop in Hdec as [Hi Hf].
  assert (Viem.split_dot value = ((if neg then "-" else "") +:+ i, f)) as ->.
  { subst neg. destruct value as [|c v]; [done|].
    cbn [JS.startsWith] in *. destruct (Ascii.eqb_spec "-" c) as [<-|Hc].
    - rewrite startsWith_empty in *. cbn [JS.slice_from] in Hsplit.
      cbn [Viem.split_dot]. change (Ascii.eqb "-" ".") with false. cbv iota.
      by rewrite Hsplit.
    - exact Hsplit. }
  assert (JS.startsWith ((if neg then "-" else "") +:+ i) "-" = neg) as Hneg.
  { destruct neg; [apply startsWith_empty|by apply digits_not_signed]. }
  cbv beta iota zeta. rewrite Hneg.
  assert ((if neg then JS.slice_from 1 ((if neg then "-" else "") +:+ i)
           else (if neg then "-" else "") +:+ i) = i) as -> by (by destruct neg).
  set (fraction := JS.strip_trailing_zeros (default "0" f)).
  assert (Viem.all_digits fraction = true) as Hfraction.
  { subst fraction. apply all_digits_strip. by destruct f. }
  clearbody fraction. clear Hsplit Hf f Hneg.
  rewrite (proj2 (Nat.eqb_neq d 0)) by lia.
  assert (forall integer fraction',
            Viem.all_digits integer = true -> Viem.all_digits fraction' = true ->
            fraction' <> "" ->
            exists z, JS.BigInt ((if neg then "-" else "") +:+ integer +:+ fraction')
                      = JS.Normal z) as HBig.
  { intros integer fraction' H1 H2 H3. apply BigInt_signed_digits.
    - by rewrite all_digits_app, H1, H2.
    - intros Heq%(f_equal String.length). rewrite string_length_app in Heq.
      apply nonempty_length in H3. cbn in Heq. lia. }
  destruct (Nat.ltb_spec d (String.length fraction)) as [Hlong|Hshort]; cycle 1.
  { apply HBig; [done| |].
    - by rewrite padEnd0_zeros, all_digits_app, Hfraction, all_digits_zeros.
    - apply nonempty_length. rewrite padEnd0_zeros, string_length_app, length_zeros. lia. }
  match goal with
  | |- context [String.length (if ?c then ?a else ?b)] =>
      set (fraction1 := if c then a else b)
  end.
  assert (Viem.all_digits fraction1 = true /\ fraction1 <> "") as [H1 H1ne].
  { subst fraction1.
    set (left := JS.slice_to (d - 1) fraction).
    assert (Viem.all_digits left = true) as Hleft by (by apply all_digits_slice_to).
    match goal with |- context [(9 <? ?r)%Z] => set (rounded := r) end.
    assert (0 <= rounded)%Z as Hrounded.
    { subst rounded. unfold Viem.round_digit.
      pose proof (digits_value_nonneg (JS.slice_to 1 (JS.slice_from (d - 1) fraction)))
        as Hunit.
      rewrite all_digits_slice_to in Hunit by (by apply all_digits_slice_from).
      specialize (Hunit eq_refl). repeat case_match; lia. }
    destruct (9 <? rounded)%Z.
    - destruct (increment_digits left Hleft) as [Hinc Hincne].
      rewrite padStart0_zeros. split.
      + by rewrite !all_digits_app, all_digits_zeros, Hinc.
      + apply nonempty_length. rewrite !string_length_app. cbn. lia.
    - destruct (pretty_nonneg rounded Hrounded) as (Hp & Hpne & _). split.
      + by rewrite all_digits_app, Hleft, Hp.
      + apply nonempty_length. rewrite string_length_app.
        apply nonempty_length in Hpne. lia. }
  clearbody fraction1. apply nonempty_length in H1ne.
  destruct (increment_digits i Hi) as [Hinc _].
  destruct (Nat.ltb_spec d (String.length fraction1)) as [Hlong1|Hshort1];
    (apply HBig; [done|by auto using all_digits_slice_to, all_digits_slice_from|]);
    apply nonempty_length; rewrite length_slice_to, ?length_slice_from; lia.
Qed.


(** X5. What the text of the expected amount does to [verifyPayment], for a
    transfer that pays the agent. A text that is a decimal number (an optional
    minus sign, digits, an optional dot, digits) always converts to base
    units, and the result is then decided by the amount and sender checks
    alone; any other text is reported as a failed verification carrying the
    converter's error for that text. *)
Theorem verifyPayment_expected_amount_text `{Host} (h : X402.X402PaymentHandler)
    (proof : X402.PaymentProof) (expectedAmount : string) (expectedSender : option string)
    (receipt : X402.TransactionReceipt) (transferLog : X402.Log) (amount : Z) :
  X402.getTransactionReceipt h (X402.txHash proof) = JS.Normal (Some receipt) ->
  X402.status receipt = X402.success ->
  List.find (X402.is_usdc_transfer h) (X402.logs receipt) = Some transferLog ->
  JS.BigInt (X402.data transferLog) = JS.Normal amount ->
  JS.toLowerCase (X402.topic_address (X402.topics transferLog !! 2%nat))
  = JS.toLowerCase (X402.account_address h) ->
  let sender := X402.topic_address (X402.topics transferLog !! 1%nat) in
  if Viem.is_decimal_number expectedAmount
  then exists expectedAmountWei,
    Viem.parseUnits expectedAmount X402.USDC_DECIMALS = JS.Normal expectedAmountWei
    /\ X402.verifyPayment h proof expectedAmount expectedSender
       = JS.Normal
           (if (amount <? expectedAmountWei)%Z
            then X402.invalid ("Insufficient payment: received "
                                 +:+ Viem.formatUnits amount X402.USDC_DECIMALS
                                 +:+ " USDC, expected " +:+ expectedAmount +:+ " USDC")
            else if JS.truthy expectedSender
                    && bool_decide (JS.toLowerCase sender
                                    <> JS.toLowerCase (default "" expectedSender))
            then X402.invalid "Payment from unexpected sender"
            else {| X402.valid := true; X402.sender := Some sender;
                    X402.amount := Some (Viem.formatUnits amount X402.USDC_DECIMALS);
                    X402.error := None |})
  else X402.verifyPayment h proof expectedAmount expectedSender
       = JS.Normal (X402.invalid ("Verification failed: "
                                    +:+ InvalidDecimalNumberError_message expectedAmount)).
Proof.
  intros Hreceipt Hstatus Hfind Hamount Hrecipient sender.
  rewrite (verifyPayment_found h proof expectedAmount expectedSender
             receipt transferLog amount) by assumption.
  rewrite bool_decide_eq_false_2 by (intros Hne; apply Hne, Hrecipient).
  pose proof (parseUnits_decimal expectedAmount X402.USDC_DECIMALS) as Hparse.
  destruct (Viem.is_decimal_number expectedAmount).
  - destruct Hparse as [wei Hwei]; [unfold X402.USDC_DECIMALS; lia|].
    exists wei. split; [done|]. rewrite Hwei. cbn [JS.bind JS.try_catch].
    fold sender. by repeat case_match.
  - rewrite Hparse by (unfold X402.USDC_DECIMALS; lia). done.
Qed.

(** The text [five] is no decimal number. *)
Lemma verifyPayment_expected_amount_text_witness :
  X402.verifyPayment
    (Sample.handler [Sample.transfer Sample.payer Sample.agent Sample.word_5_00])
    Sample.proof "five" None
  = JS.Normal (X402.invalid ("Verification failed: "
                               +:+ InvalidDecimalNumberError_message "five")).
Proof.
  exact (verifyPayment_expected_amount_text
           (Sample.handler [Sample.transfer Sample.payer Sample.agent Sample.word_5_00])
           Sample.proof "five" None _ _ 5000000%Z
           eq_refl eq_refl eq_refl eq_refl eq_refl).
Defined.

(** ** Round trips and updates of the task store *)

Section StoreRoundTrip.
Import JS Queue.
Context `{host : Host} `{!HostLaws host}.

Lemma or_undefined_or_empty_fixed (x : option string) :
  or_undefined (or_empty x) = x <-> x <> Some EmptyString.
Proof.
  split; [|apply or_undefined_or_empty].
  intros Heq Hx. rewrite Hx in Heq. discriminate Heq.
Qed.

Lemma roundtrip_fields (t : Task) :
  deserializeTask (serializeTask t) = t ->
  senderAddress t <> Some EmptyString /\ paidTxHash t <> Some EmptyString
  /\ deliverable t <> Some EmptyString /\ error t <> Some EmptyString.
Proof.
  intros Heq.
  pose proof (f_equal senderAddress Heq) as H1.
  pose proof (f_equal paidTxHash Heq) as H2.
  pose proof (f_equal deliverable Heq) as H3.
  pose proof (f_equal error Heq) as H4.
  cbn [deserializeTask serializeTask senderAddress paidTxHash deliverable error
       s_senderAddress s_paidTxHash s_deliverable s_error] in H1, H2, H3, H4.
  by rewrite !or_undefined_or_empty_fixed in *.
Qed.

End StoreRoundTrip.

(** X6. The hash of a task read back is the task again exactly when none of
    its four optional texts (sender address, payment hash, deliverable, error)
    is the empty string: such a text is written as the empty field and read
    back as absent, and nothing else of a record changes on the way through
    the backing store. *)
Theorem deserializeTask_serializeTask `{host : Host} `{!HostLaws host} (t : Queue.Task) :
  Queue.deserializeTask (Queue.serializeTask t) = t
  <-> Queue.senderAddress t <> Some EmptyString
      /\ Queue.paidTxHash t <> Some EmptyString
      /\ Queue.deliverable t <> Some EmptyString
      /\ Queue.error t <> Some EmptyString.
Proof.
  split; [apply roundtrip_fields|].
  intros (H1 & H2 & H3 & H4). by apply roundtrip_clean.
Qed.

(** The request of the scenario, as [createTask] records it. *)
Lemma deserializeTask_serializeTask_witness :
  Queue.deserializeTask
    (Queue.serializeTask
       (Queue.createTask Scenario.request Scenario.task_id 1000 1000 1000
          Scenario.empty_redis).1)
  = (Queue.createTask Scenario.request Scenario.task_id 1000 1000 1000
       Scenario.empty_redis).1.
Proof.
  apply (proj2 (deserializeTask_serializeTask
                  (Queue.createTask Scenario.request Scenario.task_id 1000 1000 1000
                     Scenario.empty_redis).1)).
  repeat split; discriminate.
Defined.

(** X7. What [updateTask] does to the store, in either mode. For an id that
    the store does not hold it returns nothing and changes nothing. For a
    stored task it returns the merged record; the task read back afterwards
    has the id and the creation instant it had, the instant of the call as
    [updatedAt] whatever the update says about it, and the status of the
    update when it has one; and every other task reads as before. *)
Theorem updateTask_effect `{host : Host} `{!HostLaws host}
    (id : string) (u : Queue.TaskUpdate) (now : Z) (q : Queue.TaskQueue) :
  match Queue.getTask id q with
  | None => Queue.updateTask id u now q = (None, q)
  | Some existing =>
      (Queue.updateTask id u now q).1 = Some (Queue.merge existing u now)
      /\ exists t',
           Queue.getTask id (Queue.updateTask id u now q).2 = Some t'
           /\ Queue.id t' = Queue.id existing
           /\ Queue.createdAt t' = Queue.createdAt existing
           /\ Queue.updatedAt t' = now
           /\ Queue.status t' = default (Queue.status existing) (Queue.u_status u)
  end
  /\ forall id', id' <> id ->
       Queue.getTask id' (Queue.updateTask id u now q).2 = Queue.getTask id' q.
Proof.
  split.
  - destruct (Queue.getTask id q) as [existing|] eqn:Hget.
    + split.
      * unfold Queue.updateTask. rewrite Hget.
        destruct (Queue.useInMemory q); [done|]. by destruct (Queue.redis q).
      * exists (observed q (Queue.merge existing u now)).
        rewrite getTask_updateTask, Hget, decide_True by done.
        split; [done|]. rewrite observed_id, observed_status.
        pose proof (getTask_stored id q existing Hget) as Hstored.
        unfold observed in *. destruct (Queue.useInMemory q); [done|].
        cbn [Queue.deserializeTask Queue.serializeTask Queue.createdAt Queue.updatedAt
             Queue.s_createdAt Queue.s_updatedAt Queue.merge].
        by rewrite !Date_parse_toISOString.
    + unfold Queue.updateTask. by rewrite Hget.
  - intros id' Hne. rewrite getTask_updateTask.
    destruct (Queue.getTask id q); [|done]. by rewrite decide_False.
Qed.

Lemma updateTask_effect_witness :
  (Queue.updateTask Scenario.task_id (Core.update_started 2000) 2001
     (Scenario.requested Scenario.empty_redis)).1
  = Some (Queue.merge
            (Queue.createTask Scenario.request Scenario.task_id 1000 1000 1000
               Scenario.empty_redis).1
            (Core.update_started 2000) 2001).
Proof.
  exact (proj1 (proj1 (updateTask_effect Scenario.task_id (Core.update_started 2000) 2001
                         (Scenario.requested Scenario.empty_redis)))).
Defined.

(** ** The status index in process *)

Section StatusIndex.
Import JS Queue.
Context `{host : Host}.

Lemma elem_of_set_add (x y : string) (l : list string) :
  y ∈ set_add x l <-> y = x \/ y ∈ l.
Proof.
  unfold set_add. case_bool_decide as Hin.
  - split; [by right|]. by intros [->|?].
  - rewrite elem_of_app, list_elem_of_singleton. tauto.
Qed.

Lemma elem_of_set_delete (x y : string) (l : list string) :
  y ∈ set_delete x l <-> y ∈ l /\ y <> x.
Proof.
  unfold set_delete. rewrite !list_elem_of_In, filter_In, bool_decide_eq_true. tauto.
Qed.

Lemma index_consistent_createTask data uuid now1 now2 score q :
  useInMemory q = true -> index_consistent q -> inMemoryTasks q !! uuid = None ->
  index_consistent (createTask data uuid now1 now2 score q).2.
Proof.
  intros Hmem (Hid & Hnodup & Hin) Hfresh. unfold createTask. rewrite Hmem.
  set (s0 := default pending_payment (d_status data)).
  unfold index_consistent, listed.
  cbn [snd inMemoryTasks inMemoryByStatus status id].
  split; [|split].
  - intros id t. destruct (decide (id = uuid)) as [->|Hne].
    + rewrite lookup_insert_eq. by intros [= <-].
    + rewrite lookup_insert_ne by done. apply Hid.
  - intros s. rewrite listed_insert, decide_status_name.
    destruct (decide (s = s0)) as [->|Hne]; [|apply Hnodup].
    apply set_add_NoDup, Hnodup.
  - intros s id. rewrite listed_insert, decide_status_name.
    destruct (decide (s = s0)) as [->|Hs].
    + rewrite elem_of_set_add. fold (listed (status_name s0) q). rewrite Hin.
      destruct (decide (id = uuid)) as [->|Hne].
      * rewrite lookup_insert_eq. split; [|by left]. intros _. by eexists.
      * rewrite lookup_insert_ne by done. split; [by intros [?|?]|by right].
    + fold (listed (status_name s) q). rewrite Hin.
      destruct (decide (id = uuid)) as [->|Hne].
      * rewrite lookup_insert_eq, Hfresh. split.
        -- by intros (t & ? & _).
        -- intros (t & [= <-] & Hst). cbn in Hst. by subst.
      * by rewrite lookup_insert_ne.
Qed.

Lemma index_consistent_updateTask id u now q :
  useInMemory q = true -> index_consistent q ->
  index_consistent (updateTask id u now q).2.
Proof.
  intros Hmem (Hid & Hnodup & Hin). unfold updateTask, getTask. rewrite Hmem.
  destruct (inMemoryTasks q !! id) as [existing|] eqn:Hget; [|done].
  assert (lookup_updated : forall id' (P : Task -> Prop),
    (exists t, <[id := merge existing u now]> (inMemoryTasks q) !! id' = Some t /\ P t)
    <-> if decide (id' = id) then P (merge existing u now)
        else exists t, inMemoryTasks q !! id' = Some t /\ P t).
  { intros id' P. destruct (decide (id' = id)) as [->|Hne].
    - rewrite lookup_insert_eq. split; [by intros (t & [= <-] & ?)|by eauto].
    - by rewrite lookup_insert_ne. }
  unfold index_consistent, listed.
  cbn [snd inMemoryTasks inMemoryByStatus].
  split; [|split].
  - intros id' t. destruct (decide (id' = id)) as [->|Hne].
    + rewrite lookup_insert_eq. intros [= <-]. cbn. by apply Hid.
    + rewrite lookup_insert_ne by done. apply Hid.
  - intros s. unfold status_change.
    destruct (u_status u) as [sn|]; [|apply Hnodup].
    case_bool_decide as Hchange; [|apply Hnodup].
    rewrite listed_moved. cbv zeta. rewrite !decide_status_name.
    rewrite (decide_False (P := sn = status existing)) by done.
    destruct (decide (s = sn)) as [->|Hs]; [apply set_add_NoDup, Hnodup|].
    destruct (decide (s = status existing)) as [->|Hs']; [|apply Hnodup].
    apply set_delete_NoDup, Hnodup.
  - intros s id'. rewrite lookup_updated. unfold status_change.
    assert (Hold : id ∈ listed (status_name s) q <-> status existing = s).
    { rewrite Hin. split; [intros (t & Ht & <-); congruence|by eauto]. }
    destruct (u_status u) as [sn|] eqn:Hu; cycle 1.
    { cbn [merge status default from_option Datatypes.id].
      fold (listed (status_name s) q). rewrite Hu. cbn.
      destruct (decide (id' = id)) as [->|Hne]; [done|apply Hin]. }
    case_bool_decide as Hchange; cycle 1.
    { subst sn.
      cbn [merge status]. rewrite Hu. cbn. fold (listed (status_name s) q).
      destruct (decide (id' = id)) as [->|Hne]; [done|apply Hin]. }
    rewrite listed_moved. cbv zeta. rewrite !decide_status_name.
    rewrite (decide_False (P := sn = status existing)) by done.
    cbn [merge status]. rewrite Hu. cbn [default from_option Datatypes.id].
    fold (listed (status_name sn) q) (listed (status_name (status existing)) q)
      (listed (status_name s) q).
    destruct (decide (s = sn)) as [->|Hs].
    + rewrite elem_of_set_add, Hin.
      destruct (decide (id' = id)) as [->|Hne]; [by split; [|left]|].
      split; [by intros [?|?]|by right].
    + destruct (decide (s = status existing)) as [->|Hs'].
      * rewrite elem_of_set_delete, Hin.
        destruct (decide (id' = id)) as [->|Hne]; [split; [by intros [_ ?]|done]|].
        split; [by intros [? _]|done].
      * rewrite Hin. destruct (decide (id' = id)) as [->|Hne]; [|done].
        split; [|done]. intros (t & Ht & <-). rewrite Hget in Ht.
        injection Ht as <-. done.
Qed.

End StatusIndex.

Section StatusIndexUse.
Import JS Queue.
Context `{host : Host}.

Lemma useInMemory_createTask data uuid now1 now2 score q :
  useInMemory (createTask data uuid now1 now2 score q).2 = useInMemory q.
Proof.
  unfold createTask. destruct (useInMemory q) eqn:E; [done|].
  by destruct (redis q).
Qed.

Lemma useInMemory_perform op q : useInMemory (perform op q).2 = useInMemory q.
Proof.
  destruct op; cbn [perform snd]; auto using useInMemory_createTask, useInMemory_updateTask.
Qed.

Lemma index_consistent_perform op q :
  useInMemory q = true -> index_consistent q -> fresh op q ->
  index_consistent (perform op q).2.
Proof.
  intros Hmem Hq Hfresh. destruct op; cbn [perform snd]; try done.
  - by apply index_consistent_createTask.
  - by apply index_consistent_updateTask.
Qed.

Lemma size_by_status (m : gmap string Task) :
  (size (filter (fun kt => status kt.2 = pending_payment) m)
   + size (filter (fun kt => status kt.2 = paid) m)
   + size (filter (fun kt => status kt.2 = in_progress) m)
   + size (filter (fun kt => status kt.2 = completed) m)
   + size (filter (fun kt => status kt.2 = failed) m))%nat
  = size m.
Proof.
  induction m as [|i x m Hi _ IH] using map_first_key_ind.
  { by rewrite !map_filter_empty, !map_size_empty. }
  rewrite map_size_insert_None by done. rewrite <- IH.
  assert (Hin : forall s, status x = s ->
    size (filter (fun kt : string * Task => status kt.2 = s) (<[i:=x]> m))
    = S (size (filter (fun kt : string * Task => status kt.2 = s) m))).
  { intros s Hs. rewrite map_filter_insert_True by done.
    apply map_size_insert_None. by rewrite map_lookup_filter_None_2; [|left]. }
  assert (Hout : forall s, status x <> s ->
    size (filter (fun kt : string * Task => status kt.2 = s) (<[i:=x]> m))
    = size (filter (fun kt : string * Task => status kt.2 = s) m)).
  { intros s Hs. rewrite map_filter_insert_False by done. by rewrite delete_id. }
  destruct (status x) eqn:Hx;
    rewrite (Hin _ eq_refl), !Hout by done; lia.
Qed.

Lemma listed_size s q :
  index_consistent q ->
  length (listed (status_name s) q) = size (tasks_with s q).
Proof.
  intros (_ & Hnodup & Hin).
  rewrite <- (size_dom (D := gset string)), <- (size_list_to_set (C := gset string))
    by apply Hnodup.
  f_equal. apply set_eq. intros id.
  rewrite elem_of_list_to_set, Hin, elem_of_dom. unfold tasks_with, is_Some.
  setoid_rewrite map_lookup_filter_Some. cbn. reflexivity.
Qed.

End StatusIndexUse.

(** X8. The status index of the store in process stays consistent with its
    tasks: starting from a store where every task is stored under its own id
    and the ids listed under each status are, without repetition, those of
    the tasks with that status, every sequence of store operations in which
    [createTask] is given fresh ids leads to such a store again. *)
Theorem status_index_stays_consistent `{host : Host}
    (ops : list StoreOp) (q : Queue.TaskQueue) :
  Queue.useInMemory q = true -> index_consistent q -> all_fresh ops q ->
  index_consistent (perform_all ops q).
Proof.
  revert q. induction ops as [|op ops IH]; intros q Hmem Hq Hfresh; [done|].
  destruct Hfresh as [Hop Hops]. cbn [perform_all]. apply IH; [|by apply index_consistent_perform|done].
  by rewrite useInMemory_perform.
Qed.

Lemma index_consistent_empty : index_consistent Scenario.empty_memory.
Proof.
  unfold index_consistent, listed. cbn. split; [|split].
  - intros id t. by rewrite lookup_empty.
  - intros s. rewrite lookup_empty. constructor.
  - intros s id. rewrite !lookup_empty. cbn. split.
    + by intros ?%elem_of_nil.
    + by intros (t & ? & _).
Qed.

(** The request of the scenario is accepted by the empty store and then
    started. *)
Lemma status_index_stays_consistent_witness :
  index_consistent
    (perform_all
       [OpCreate Scenario.request Scenario.task_id 1000 1000 1000;
        OpUpdate Scenario.task_id (Core.update_started 2000) 2001]
       Scenario.empty_memory).
Proof.
  apply (status_index_stays_consistent
           [OpCreate Scenario.request Scenario.task_id 1000 1000 1000;
            OpUpdate Scenario.task_id (Core.update_started 2000) 2001]
           Scenario.empty_memory).
  - reflexivity.
  - exact index_consistent_empty.
  - repeat split.
Defined.

(** X9. On a store in process with a consistent status index, the five
    numbers of [getStats] are the numbers of stored tasks with each status,
    and they add up to the number of stored tasks. *)
Theorem getStats_counts_tasks (q : Queue.TaskQueue) :
  Queue.useInMemory q = true -> index_consistent q ->
  Queue.getStats q
  = {| Queue.n_pending := size (tasks_with Queue.pending_payment q);
       Queue.n_paid := size (tasks_with Queue.paid q);
       Queue.n_inProgress := size (tasks_with Queue.in_progress q);
       Queue.n_completed := size (tasks_with Queue.completed q);
       Queue.n_failed := size (tasks_with Queue.failed q) |}
  /\ (Queue.n_pending (Queue.getStats q) + Queue.n_paid (Queue.getStats q)
      + Queue.n_inProgress (Queue.getStats q) + Queue.n_completed (Queue.getStats q)
      + Queue.n_failed (Queue.getStats q))%nat
     = size (Queue.inMemoryTasks q).
Proof.
  intros Hmem Hq.
  assert (Queue.getStats q
          = {| Queue.n_pending := size (tasks_with Queue.pending_payment q);
               Queue.n_paid := size (tasks_with Queue.paid q);
               Queue.n_inProgress := size (tasks_with Queue.in_progress q);
               Queue.n_completed := size (tasks_with Queue.completed q);
               Queue.n_failed := size (tasks_with Queue.failed q) |}) as ->.
  { unfold Queue.getStats. rewrite Hmem.
    by rewrite <- !(listed_size _ q Hq). }
  split; [done|]. apply size_by_status.
Qed.

Lemma getStats_counts_tasks_witness :
  Queue.getStats (Scenario.requested Scenario.empty_memory)
  = {| Queue.n_pending := size (tasks_with Queue.pending_payment
                                  (Scenario.requested Scenario.empty_memory));
       Queue.n_paid := size (tasks_with Queue.paid
                               (Scenario.requested Scenario.empty_memory));
       Queue.n_inProgress := size (tasks_with Queue.in_progress
                                     (Scenario.requested Scenario.empty_memory));
       Queue.n_completed := size (tasks_with Queue.completed
                                    (Scenario.requested Scenario.empty_memory));
       Queue.n_failed := size (tasks_with Queue.failed
                                 (Scenario.requested Scenario.empty_memory)) |}.
Proof.
  refine (proj1 (getStats_counts_tasks (Scenario.requested Scenario.empty_memory)
                   eq_refl _)).
  apply (index_consistent_createTask Scenario.request Scenario.task_id 1000 1000 1000
           Scenario.empty_memory); [reflexivity|exact index_consistent_empty|reflexivity].
Defined.

Section StatusQuery.
Import JS Queue.
Context `{host : Host}.

Lemma collect_stored (ids : list string) (q : TaskQueue) :
  useInMemory q = true ->
  Forall (fun id => exists t, inMemoryTasks q !! id = Some t) ids ->
  Forall2 (fun id t => inMemoryTasks q !! id = Some t) ids (collect ids q).
Proof.
  intros Hmem. unfold collect, getTask. rewrite Hmem.
  induction 1 as [|id ids [t Ht] _ IH]; cbn; [constructor|].
  rewrite Ht. cbn. by constructor.
Qed.

Lemma stored_NoDup (m : gmap string Task) (ids : list string) (ts : list Task) :
  (forall id t, m !! id = Some t -> Queue.id t = id) ->
  Forall2 (fun id t => m !! id = Some t) ids ts -> NoDup ids -> NoDup ts.
Proof.
  intros Hid. induction 1 as [|id t ids ts Hlook Hrest IH]; [constructor|].
  intros [Hnotin Hnodup]%NoDup_cons. constructor; [|by apply IH].
  intros Ht. apply Hnotin.
  destruct (list_elem_of_lookup_1 _ _ Ht) as [k Hk].
  destruct (Forall2_lookup_r _ _ _ _ _ Hrest Hk) as (id' & Hid' & Hlook').
  assert (id' = id) as -> by (rewrite <- (Hid id' t Hlook'); by apply Hid).
  by eapply list_elem_of_lookup_2.
Qed.

End StatusQuery.

(** X10. On a store in process with a consistent status index,
    [getTasksByStatus] returns stored tasks of the status asked for, each
    once, and as many of them as the limit allows: the smaller of the limit
    and the number of stored tasks with that status. *)
Theorem getTasksByStatus_returns_status `{host : Host}
    (s : Queue.Status) (limit : nat) (q : Queue.TaskQueue) :
  Queue.useInMemory q = true -> index_consistent q ->
  Forall (fun t => Queue.status t = s
                   /\ Queue.inMemoryTasks q !! Queue.id t = Some t)
    (Queue.getTasksByStatus s limit q)
  /\ NoDup (Queue.getTasksByStatus s limit q)
  /\ length (Queue.getTasksByStatus s limit q) = Nat.min limit (size (tasks_with s q)).
Proof.
  intros Hmem Hq. pose proof (listed_size s q Hq) as Hsize.
  destruct Hq as (Hid & Hnodup & Hin).
  unfold Queue.getTasksByStatus. rewrite Hmem.
  specialize (Hnodup s). unfold listed in *.
  destruct (Queue.inMemoryByStatus q !! Queue.status_name s) as [ids|] eqn:Hids;
    cbn [default from_option Datatypes.id] in *; cycle 1.
  { rewrite <- Hsize. cbn. rewrite Nat.min_0_r. by repeat constructor. }
  assert (Forall (fun id => exists t, Queue.inMemoryTasks q !! id = Some t
                                      /\ Queue.status t = s) (take limit ids)) as Hall.
  { apply Forall_forall. intros id Hid'. apply (Hin s). rewrite Hids. cbn.
    apply elem_of_take in Hid' as (i & Hi & _). by eapply list_elem_of_lookup_2. }
  assert (Forall2 (fun id t => Queue.inMemoryTasks q !! id = Some t)
            (take limit ids) (Queue.collect (take limit ids) q)) as Hcollect.
  { apply collect_stored; [done|]. eapply Forall_impl; [exact Hall|].
    intros id (t & ? & _). by eexists. }
  assert (NoDup (take limit ids)) as Htake.
  { apply (NoDup_app (take limit ids) (drop limit ids)). by rewrite take_drop. }
  split; [|split].
  - apply Forall_forall. intros t Ht.
    destruct (list_elem_of_lookup_1 _ _ Ht) as [k Hk].
    destruct (Forall2_lookup_r _ _ _ _ _ Hcollect Hk) as (id & Hidk & Hlook).
    rewrite (Hid id t Hlook). split; [|done].
    rewrite Forall_forall in Hall. destruct (Hall id) as (t' & Ht' & Hs).
    { by eapply list_elem_of_lookup_2. }
    congruence.
  - by eapply stored_NoDup.
  - rewrite <- (Forall2_length _ _ _ Hcollect), length_take, <- Hsize. lia.
Qed.

Lemma getTasksByStatus_returns_status_witness :
  length (Queue.getTasksByStatus Queue.pending_payment 50
            (Scenario.requested Scenario.empty_memory))
  = Nat.min 50 (size (tasks_with Queue.pending_payment
                        (Scenario.requested Scenario.empty_memory))).
Proof.
  refine (proj2 (proj2 (getTasksByStatus_returns_status Queue.pending_payment 50
                          (Scenario.requested Scenario.empty_memory) eq_refl _))).
  apply (index_consistent_createTask Scenario.request Scenario.task_id 1000 1000 1000
           Scenario.empty_memory); [reflexivity|exact index_consistent_empty|reflexivity].
Defined.

Section SenderQuery.
Import JS Queue.
Context `{host : Host}.

Lemma insert_by_createdAt_perm t l : insert_by_createdAt t l ≡ₚ t :: l.
Proof.
  induction l as [|y l IH]; [done|]. cbn [insert_by_createdAt].
  destruct (createdAt y <=? createdAt t)%Z; [done|].
  rewrite IH. apply Permutation_swap.
Qed.

Lemma sort_by_createdAt_perm l : sort_by_createdAt l ≡ₚ l.
Proof.
  induction l as [|t l IH]; [done|].
  change (sort_by_createdAt (t :: l)) with (insert_by_createdAt t (sort_by_createdAt l)).
  by rewrite insert_by_createdAt_perm, IH.
Qed.

Lemma insert_by_createdAt_sorted t l :
  StronglySorted (fun a b => (createdAt b <= createdAt a)%Z) l ->
  StronglySorted (fun a b => (createdAt b <= createdAt a)%Z) (insert_by_createdAt t l).
Proof.
  induction 1 as [|y l Hl IH Hy]; cbn [insert_by_createdAt].
  { repeat constructor. }
  destruct (Z.leb_spec (createdAt y) (createdAt t)) as [Hle|Hlt].
  - constructor; [by constructor|]. constructor; [done|].
    eapply Forall_impl; [exact Hy|]. intros b Hb. cbn in *. lia.
  - constructor; [done|].
    rewrite (insert_by_createdAt_perm t l). constructor; [lia|done].
Qed.

Lemma sort_by_createdAt_sorted l :
  StronglySorted (fun a b => (createdAt b <= createdAt a)%Z) (sort_by_createdAt l).
Proof.
  induction l as [|t l IH]; [constructor|].
  change (sort_by_createdAt (t :: l)) with (insert_by_createdAt t (sort_by_createdAt l)).
  by apply insert_by_createdAt_sorted.
Qed.

Lemma collect_length ids q : (length (collect ids q) <= length ids)%nat.
Proof.
  unfold collect. induction ids as [|id ids IH]; [done|]. cbn.
  destruct (getTask id q); cbn; lia.
Qed.

Lemma collect_stored_tasks ids q t :
  t ∈ collect ids q -> exists id, id ∈ ids /\ getTask id q = Some t.
Proof. unfold collect. by rewrite list_elem_of_omap. Qed.

Lemma sorted_collect_facts ids limit q :
  let result := sort_by_createdAt (collect (take limit ids) q) in
  StronglySorted (fun a b => (createdAt b <= createdAt a)%Z) result
  /\ (length result <= limit)%nat
  /\ forall t, t ∈ result -> exists id, id ∈ ids /\ getTask id q = Some t.
Proof.
  intros result. subst result. split; [apply sort_by_createdAt_sorted|]. split.
  - rewrite sort_by_createdAt_perm. etrans; [apply collect_length|].
    rewrite length_take. lia.
  - intros t. rewrite sort_by_createdAt_perm. intros (id & Hid & Hget)%collect_stored_tasks.
    exists id. split; [|done]. apply elem_of_take in Hid as (i & Hi & _).
    by eapply list_elem_of_lookup_2.
Qed.

End SenderQuery.

(** X11. [getTasksBySender], in either mode, returns stored tasks ordered by
    creation instant, the newest first, and never more of them than the
    limit. *)
Theorem getTasksBySender_newest_first `{host : Host}
    (senderId : string) (limit : nat) (q : Queue.TaskQueue) :
  StronglySorted (fun a b => (Queue.createdAt b <= Queue.createdAt a)%Z)
    (Queue.getTasksBySender senderId limit q)
  /\ (length (Queue.getTasksBySender senderId limit q) <= limit)%nat
  /\ Forall (fun t => exists id, Queue.getTask id q = Some t)
       (Queue.getTasksBySender senderId limit q).
Proof.
  assert (forall ids,
    let result := Queue.sort_by_createdAt (Queue.collect (take limit ids) q) in
    StronglySorted (fun a b => (Queue.createdAt b <= Queue.createdAt a)%Z) result
    /\ (length result <= limit)%nat
    /\ Forall (fun t => exists id, Queue.getTask id q = Some t) result) as Hfacts.
  { intros ids. destruct (sorted_collect_facts ids limit q) as (H1 & H2 & H3).
    split; [done|]. split; [done|]. apply Forall_forall. intros t Ht.
    destruct (H3 t Ht) as (id & _ & Hget). by exists id. }
  unfold Queue.getTasksBySender. destruct (Queue.useInMemory q).
  - destruct (Queue.inMemoryBySender q !! senderId) as [ids|]; [apply Hfacts|].
    split; [constructor|]. split; [cbn; lia|constructor].
  - destruct (Queue.redis q) as [r|]; [apply Hfacts|].
    split; [constructor|]. split; [cbn; lia|constructor].
Qed.

(** ** The two processors *)

Section Processors.
Import JS Queue Core.
Context `{host : Host}.

Lemma queues_updateTask id u now q :
  inMemoryQueue (updateTask id u now q).2 = inMemoryQueue q
  /\ queue (updateTask id u now q).2 = queue q.
Proof.
  unfold updateTask. destruct (getTask id q); [|done].
  destruct (useInMemory q); [done|]. by destruct (redis q).
Qed.

Lemma queues_apply_updates id us q :
  inMemoryQueue (apply_updates id us q) = inMemoryQueue q
  /\ queue (apply_updates id us q) = queue q.
Proof.
  revert q. induction us as [|[u now] us IH]; intros q; [done|].
  change (apply_updates id ((u, now) :: us) q)
    with (apply_updates id us (updateTask id u now q).2).
  destruct (IH (updateTask id u now q).2) as [-> ->]. apply queues_updateTask.
Qed.

(** A run of [executeTask] returns, leaves both work queues as they are, and
    leaves its task, when the store holds it, completed or failed. *)
Lemma executeTask_outcome a task t q :
  (executeTask a task t q).1 = Normal tt
  /\ inMemoryQueue (executeTask a task t q).2 = inMemoryQueue q
  /\ queue (executeTask a task t q).2 = queue q
  /\ useInMemory (executeTask a task t q).2 = useInMemory q
  /\ (forall t0, getTask (id task) q = Some t0 ->
        exists t', getTask (id task) (executeTask a task t q).2 = Some t'
                   /\ (status t' = completed \/ status t' = failed))
  /\ (forall id', id' <> id task ->
        getTask id' (executeTask a task t q).2 = getTask id' q).
Proof.
  destruct (executeTask_effect a task t q) as (us & u & now & Hus & Hu & ->).
  cbn [fst snd]. destruct (queues_apply_updates (id task) (us ++ [(u, now)])%list q) as [-> ->].
  rewrite useInMemory_apply_updates.
  split; [done|]. split; [done|]. split; [done|]. split; [done|]. split.
  - intros t0 Hget.
    destruct (getTask_apply_updates_last (id task) us u now q t0 Hget)
      as (t1 & _ & ->).
    eexists. split; [done|]. rewrite observed_status.
    destruct Hu as [(c & d & ->)|(e & ->)]; [by left|by right].
  - intros id' Hne. generalize (us ++ [(u, now)])%list. intros l. revert q.
    induction l as [|[u' now'] l IH]; intros q; [done|].
    change (apply_updates (id task) ((u', now') :: l) q)
      with (apply_updates (id task) l (updateTask (id task) u' now' q).2).
    rewrite IH, getTask_updateTask.
    destruct (getTask (id task) q); [|done]. by rewrite decide_False.
Qed.

End Processors.

(** X12. One run of the in-process processor with [executeTask] as handler:
    on an empty queue it does nothing; otherwise it takes the first id off
    the queue, and either the store holds no such task and nothing else
    changes, or the task ends completed or failed while every other task
    and the rest of the queue stay as they are. Nothing is put back on the
    queue, whatever the skill does. *)
Theorem processTick_runs_head `{host : Host} (a : Core.AgentCore) (t : Core.ExecTimes)
    (q : Queue.TaskQueue) :
  Queue.useInMemory q = true -> stored_under_own_id q ->
  match Queue.inMemoryQueue q with
  | [] => Core.step a (Core.Tick t) q = q
  | taskId :: rest =>
      Queue.inMemoryQueue (Core.step a (Core.Tick t) q) = rest
      /\ (forall id, id <> taskId ->
            Queue.getTask id (Core.step a (Core.Tick t) q) = Queue.getTask id q)
      /\ match Queue.getTask taskId q with
         | None => Queue.getTask taskId (Core.step a (Core.Tick t) q) = None
         | Some _ =>
             exists t', Queue.getTask taskId (Core.step a (Core.Tick t) q) = Some t'
                        /\ (Queue.status t' = Queue.completed
                            \/ Queue.status t' = Queue.failed)
         end
  end.
Proof.
  intros Hmem Hown. cbn [Core.step]. unfold Queue.processTick.
  destruct (Queue.inMemoryQueue q) as [|taskId rest] eqn:Hqueue; [done|].
  set (q1 := {| Queue.redis := Queue.redis q; Queue.queue := Queue.queue q;
                Queue.useInMemory := Queue.useInMemory q;
                Queue.inMemoryTasks := Queue.inMemoryTasks q;
                Queue.inMemoryBySender := Queue.inMemoryBySender q;
                Queue.inMemoryByStatus := Queue.inMemoryByStatus q;
                Queue.inMemoryQueue := rest |}).
  assert (forall id, Queue.getTask id q1 = Queue.getTask id q) as Hsame by done.
  rewrite Hsame.
  destruct (Queue.getTask taskId q) as [task|] eqn:Hget.
  - pose proof (Hown taskId task Hget) as Hid.
    destruct (executeTask_outcome a task t q1) as (_ & Hq & _ & _ & Hdone & Hother).
    rewrite Hq. split; [done|]. rewrite Hid in *. split.
    + intros id Hne. by rewrite Hother, Hsame.
    + apply (Hdone task). by rewrite Hsame.
  - split; [done|]. split; [by intros; rewrite Hsame|by rewrite Hsame].
Qed.

Lemma own_id_in_memory `{host : Host} (q : Queue.TaskQueue) :
  Queue.useInMemory q = true -> index_consistent q -> stored_under_own_id q.
Proof.
  intros Hmem (Hid & _) id t. unfold Queue.getTask. rewrite Hmem. apply Hid.
Qed.

(** The paid request of the scenario is taken off the queue. *)
Lemma processTick_runs_head_witness :
  Queue.inMemoryQueue
    (Core.step (Scenario.core Scenario.skill_ok Scenario.store_ok)
       (Core.Tick (Scenario.times 3000))
       (Queue.enqueue Scenario.task_id (Scenario.requested Scenario.empty_memory)))
  = [].
Proof.
  refine (proj1 (processTick_runs_head
                   (Scenario.core Scenario.skill_ok Scenario.store_ok)
                   (Scenario.times 3000)
                   (Queue.enqueue Scenario.task_id
                      (Scenario.requested Scenario.empty_memory)) eq_refl _)).
  intros id t. rewrite getTask_enqueue. revert id t.
  apply own_id_in_memory; [reflexivity|].
  apply (index_consistent_createTask Scenario.request Scenario.task_id 1000 1000 1000
           Scenario.empty_memory); [reflexivity|exact index_consistent_empty|reflexivity].
Defined.

(** X13. One job taken by the worker of the work queue with [executeTask] as
    handler. A job whose task the store holds is run once and leaves the
    queue, with the task completed or failed: a failure of the skill is
    recorded on the task and never retried. A job whose task the store does
    not hold fails and goes to the end of the queue with one more attempt
    made, until three attempts are made; then it is dropped. No other task
    changes. *)
Theorem workerStep_runs_job `{host : Host} (a : Core.AgentCore) (t : Core.ExecTimes)
    (q : Queue.TaskQueue) (job : Queue.Job) (rest : list Queue.Job) :
  Queue.queue q = Some (job :: rest) -> stored_under_own_id q ->
  let q' := Core.step a (Core.Work t) q in
  (forall id, id <> Queue.job_taskId job -> Queue.getTask id q' = Queue.getTask id q)
  /\ match Queue.getTask (Queue.job_taskId job) q with
     | Some _ =>
         Queue.queue q' = Some rest
         /\ exists t', Queue.getTask (Queue.job_taskId job) q' = Some t'
                       /\ (Queue.status t' = Queue.completed
                           \/ Queue.status t' = Queue.failed)
     | None =>
         Queue.getTask (Queue.job_taskId job) q' = None
         /\ Queue.queue q'
            = Some (if (S (Queue.attemptsMade job) <? 3)%nat
                    then (rest ++ [ {| Queue.job_taskId := Queue.job_taskId job;
                                       Queue.attemptsMade := S (Queue.attemptsMade job) |} ])%list
                    else rest)
     end.
Proof.
  intros Hqueue Hown q'. subst q'. cbn [Core.step]. unfold Queue.workerStep.
  rewrite Hqueue, getTask_set_queue.
  destruct (Queue.getTask (Queue.job_taskId job) q) as [task|] eqn:Hget.
  - pose proof (Hown _ task Hget) as Hid.
    destruct (executeTask_outcome a task t (Queue.set_queue rest q))
      as (Hret & _ & Hq & _ & Hdone & Hother).
    destruct (Core.executeTask a task t (Queue.set_queue rest q)) as [[[]|e] q1];
      [|discriminate Hret].
    cbn [snd] in *. rewrite Hid in *. split; [|split].
    + intros id Hne. by rewrite Hother.
    + by rewrite Hq.
    + by apply (Hdone task).
  - split; [intros id _; by rewrite getTask_retry, getTask_set_queue|].
    split; [by rewrite getTask_retry, getTask_set_queue|].
    unfold Queue.retry. by destruct (_ <? _)%nat.
Qed.

(** A job for a task that the store does not hold is tried again. *)
Lemma workerStep_runs_job_witness :
  Queue.queue
    (Core.step (Scenario.core Scenario.skill_ok Scenario.store_ok)
       (Core.Work (Scenario.times 3000))
       (Queue.enqueue "no such task" Scenario.empty_redis))
  = Some [ {| Queue.job_taskId := "no such task"; Queue.attemptsMade := 1 |} ].
Proof.
  refine (proj2 (proj2 (workerStep_runs_job
                   (Scenario.core Scenario.skill_ok Scenario.store_ok)
                   (Scenario.times 3000)
                   (Queue.enqueue "no such task" Scenario.empty_redis)
                   {| Queue.job_taskId := "no such task"; Queue.attemptsMade := 0 |} []
                   eq_refl _))).
  intros id t Hget. discriminate Hget.
Defined.

(** ** The orchestrator *)

(** X14. What the request fixed stays fixed: under every sequence of payment
    messages, executions and processor steps, in either store mode, every
    task keeps its id, channel, channel message id, sender id, description,
    category, price and creation instant. In particular the price that a
    later payment is checked against is the price quoted at the request. *)
Theorem request_fields_never_change `{host : Host} `{!HostLaws host}
    (a : Core.AgentCore) (ops : list Core.Op) (q : Queue.TaskQueue) :
  preserves same_request q (Core.run a ops q).
Proof.
  apply run_preserves.
  - intros t. by repeat split.
  - intros t1 t2 t3 H12 H23. unfold same_request in *.
    destruct H12 as (?&?&?&?&?&?&?&?), H23 as (?&?&?&?&?&?&?&?).
    repeat split; congruence.
  - intros op q' id existing u now _ Hu _.
    assert (Queue.u_channel u = None /\ Queue.u_channelMessageId u = None
            /\ Queue.u_senderId u = None /\ Queue.u_description u = None
            /\ Queue.u_category u = None /\ Queue.u_priceUsdc u = None)
      as (H1 & H2 & H3 & H4 & H5 & H6).
    { destruct op; cbn [update_of] in Hu.
      - by destruct Hu as (? & ? & ? & ->).
      - by destruct Hu as [(? & ->)|[(? & ? & ->)|(? & ->)]].
      - by destruct Hu as [(? & ->)|[(? & ? & ->)|(? & ->)]].
      - by destruct Hu as [(? & ->)|[(? & ? & ->)|(? & ->)]]. }
    unfold same_request, observed. destruct (Queue.useInMemory q');
      cbn [Queue.deserializeTask Queue.serializeTask Queue.merge Queue.id Queue.channel
           Queue.channelMessageId Queue.senderId Queue.description Queue.category
           Queue.priceUsdc Queue.createdAt Queue.s_id Queue.s_channel
           Queue.s_channelMessageId Queue.s_senderId Queue.s_description
           Queue.s_category Queue.s_priceUsdc Queue.s_createdAt];
      rewrite H1, H2, H3, H4, H5, H6, ?Date_parse_toISOString; by repeat split.
Qed.

(** With the backing store: the request is paid and executed by the worker. *)
Lemma request_fields_never_change_witness :
  let a := Scenario.core Scenario.skill_ok Scenario.store_ok in
  preserves same_request (Scenario.requested Scenario.empty_redis)
    (Core.run a [ Core.Payment (Scenario.payment_message Sample.tx) 2000 2001;
                  Core.Work (Scenario.times 3000) ]
       (Scenario.requested Scenario.empty_redis)).
Proof.
  intros a.
  exact (request_fields_never_change (host := ReferenceHost.host) a
           [ Core.Payment (Scenario.payment_message Sample.tx) 2000 2001;
             Core.Work (Scenario.times 3000) ]
           (Scenario.requested Scenario.empty_redis)).
Defined.

(** X15. A payment message whose proof verifies puts the id of its task at
    the end of the work queue of the mode in use, once, and leaves the other
    queue as it is; and it replaces the sender address of the task by the
    sender of the transfer, whatever address the request gave. *)
Theorem verified_payment_enqueues `{host : Host} `{!HostLaws host} (a : Core.AgentCore)
    (message : Core.IncomingMessage) (now1 now2 : Z) (q : Queue.TaskQueue)
    (taskId txHash : string) (task : Queue.Task) (v : X402.PaymentVerification) :
  JS.split ":" (Core.content message) !! 1%nat = Some taskId ->
  JS.split ":" (Core.content message) !! 2%nat = Some txHash ->
  Queue.getTask taskId q = Some task ->
  X402.verifyPayment (Core.payments a)
    {| X402.txHash := txHash; X402.proof_network := X402.base |}
    (Queue.priceUsdc task) None = JS.Normal v ->
  X402.valid v = true ->
  let q' := Core.step a (Core.Payment message now1 now2) q in
  Queue.inMemoryQueue q'
  = (if Queue.useInMemory q then (Queue.inMemoryQueue q ++ [taskId])%list
     else Queue.inMemoryQueue q)
  /\ Queue.queue q'
     = (if Queue.useInMemory q then Queue.queue q
        else (fun jobs => (jobs ++ [ {| Queue.job_taskId := taskId;
                                        Queue.attemptsMade := 0 |} ])%list)
               <$> Queue.queue q)
  /\ exists t', Queue.getTask taskId q' = Some t'
                /\ (X402.sender v <> Some EmptyString ->
                    Queue.senderAddress t' = X402.sender v).
Proof.
  intros H1 H2 Hget Hv Hvalid q'. subst q'. cbn [Core.step].
  rewrite (handlePaymentVerification_valid a message now1 now2 q taskId txHash task v)
    by assumption.
  cbn [snd].
  destruct (queues_updateTask taskId (Core.update_paid txHash now1 (X402.sender v)) now2 q)
    as [Hq1 Hq2].
  pose proof (useInMemory_updateTask taskId
                (Core.update_paid txHash now1 (X402.sender v)) now2 q) as Hmem.
  split; [|split].
  - unfold Queue.enqueue. rewrite Hmem. destruct (Queue.useInMemory q); cbn; by rewrite Hq1.
  - unfold Queue.enqueue. rewrite Hmem. destruct (Queue.useInMemory q); cbn; by rewrite Hq2.
  - rewrite getTask_after_payment, Hget, decide_True by done.
    eexists. split; [done|]. intros Hsender.
    unfold observed. destruct (Queue.useInMemory q); [done|].
    cbn [Queue.deserializeTask Queue.serializeTask Queue.senderAddress
         Queue.s_senderAddress Queue.merge Core.update_paid Queue.u_senderAddress
         default from_option Datatypes.id].
    by apply or_undefined_or_empty.
Qed.

(** With the backing store: the payment of the scenario puts one job on the
    work queue. *)
Lemma verified_payment_enqueues_witness :
  Queue.queue
    (Core.step (Scenario.core Scenario.skill_ok Scenario.store_ok)
       (Core.Payment (Scenario.payment_message Sample.tx) 2000 2001)
       (Scenario.requested Scenario.empty_redis))
  = Some [ {| Queue.job_taskId := Scenario.task_id; Queue.attemptsMade := 0 |} ].
Proof.
  exact (proj1 (proj2 (verified_payment_enqueues (host := ReferenceHost.host)
           (Scenario.core Scenario.skill_ok Scenario.store_ok)
           (Scenario.payment_message Sample.tx) 2000 2001
           (Scenario.requested Scenario.empty_redis)
           Scenario.task_id Sample.tx _ _ eq_refl eq_refl eq_refl eq_refl eq_refl))).
Defined.

(** ** The skill registry *)

Section RegistryFacts.
Import JS Registry.

Lemma Map_get_set {V} (k k' : string) (v : V) (m : list (string * V)) :
  Map_get k' (Map_set k v m) = if decide (k' = k) then Some v else Map_get k' m.
Proof.
  induction m as [|[k0 v0] m IH]; cbn [Map_set Map_get].
  - case_bool_decide; destruct (decide (k' = k)); congruence.
  - destruct (decide (k0 = k)) as [->|Hne].
    + rewrite bool_decide_eq_true_2 by done. cbn [Map_get].
      case_bool_decide; destruct (decide (k' = k)); congruence.
    + rewrite bool_decide_eq_false_2 by done. cbn [Map_get]. rewrite IH.
      case_bool_decide; destruct (decide (k' = k)); congruence.
Qed.

Lemma Map_get_register skill skills k :
  Map_get k (register skill skills)
  = if bool_decide (k ∈ categories skill) then Some skill else Map_get k skills.
Proof.
  unfold register. revert skills.
  induction (categories skill) as [|c cs IH]; intros skills; [done|].
  cbn [fold_left]. rewrite IH, Map_get_set.
  destruct (decide (k = c)) as [->|Hne].
  - rewrite (bool_decide_eq_true_2 (c ∈ c :: cs)) by left.
    by destruct (bool_decide (c ∈ cs)).
  - destruct (decide (k ∈ cs)) as [Hin|Hnotin].
    + rewrite !bool_decide_eq_true_2; [done|by right|done].
    + rewrite !bool_decide_eq_false_2; [done| |done].
      by intros [?|?]%elem_of_cons.
Qed.

Lemma Map_get_as_core skills k :
  as_core skills !! k = (fun s => {| Core.execute := execute s |}) <$> Map_get k skills.
Proof.
  unfold as_core. induction skills as [|[k0 s0] skills IH]; [done|].
  cbn [fmap list_fmap prod_map fst snd list_to_map foldr Map_get Datatypes.id].
  case_bool_decide as Hk.
  - subst k0. by rewrite lookup_insert_eq.
  - by rewrite lookup_insert_ne.
Qed.

Lemma getSkill_as_core (a : Core.AgentCore) skills category :
  Core.skills a = as_core skills ->
  Core.getSkill a category
  = (fun s => {| Core.execute := execute s |}) <$> getSkill skills category.
Proof.
  intros Ha. unfold Core.getSkill, getSkill. rewrite Ha, !Map_get_as_core.
  by destruct (Map_get category skills).
Qed.

End RegistryFacts.

(** X16. The dispatch of categories to skills once the built-in skills are
    loaded, whatever the registry held before: [research] and [analysis] go
    to the research skill, [website] and [design] to the website skill,
    [writing], [content] and [copywriting] to the writing skill, [code],
    [programming], [debug] and [other] to the code skill, a category
    registered before keeps its skill, and every other category goes to the
    code skill. So [getSkill] finds a skill for every category, and an
    orchestrator that reads this registry never fails a task for want of a
    skill. *)
Theorem loadSkills_dispatch
    (research website writing code : Core.SkillContext -> JS.completion Core.SkillResult)
    (skills : Registry.SkillRegistry) (category : string) :
  let loaded :=
    Registry.loadSkills (Registry.ResearchSkill research) (Registry.WebsiteSkill website)
      (Registry.WritingSkill writing) (Registry.CodeSkill code) skills in
  Registry.getSkill loaded category
  = Some (if bool_decide (category ∈ ["code"; "programming"; "debug"; "other"])
          then Registry.CodeSkill code
          else if bool_decide (category ∈ ["writing"; "content"; "copywriting"])
          then Registry.WritingSkill writing
          else if bool_decide (category ∈ ["website"; "design"])
          then Registry.WebsiteSkill website
          else if bool_decide (category ∈ ["research"; "analysis"])
          then Registry.ResearchSkill research
          else default (Registry.CodeSkill code) (Registry.Map_get category skills))
  /\ forall a : Core.AgentCore,
       Core.skills a = Registry.as_core loaded ->
       is_Some (Core.getSkill a category).
Proof.
  intros loaded.
  assert (forall k, Registry.Map_get k loaded
    = if bool_decide (k ∈ ["code"; "programming"; "debug"; "other"])
      then Some (Registry.CodeSkill code)
      else if bool_decide (k ∈ ["writing"; "content"; "copywriting"])
      then Some (Registry.WritingSkill writing)
      else if bool_decide (k ∈ ["website"; "design"])
      then Some (Registry.WebsiteSkill website)
      else if bool_decide (k ∈ ["research"; "analysis"])
      then Some (Registry.ResearchSkill research)
      else Registry.Map_get k skills) as Hget.
  { intros k. subst loaded. unfold Registry.loadSkills.
    by rewrite !Map_get_register. }
  match goal with |- ?A /\ _ => assert A as Hskill; [|split; [exact Hskill|]] end.
  { unfold Registry.getSkill. rewrite (Hget category), (Hget "other").
    rewrite (bool_decide_eq_true_2 ("other" ∈ _)) by (do 3 right; left).
    repeat case_bool_decide; try done. by destruct (Registry.Map_get category skills). }
  intros a Ha. rewrite (getSkill_as_core a loaded category Ha), Hskill. by eexists.
Qed.

Section RegistryNames.
Import JS Registry.

Lemma listSkills_fold (values : list Skill) seen result :
  result.*1 = seen ->
  let r := fold_left
             (fun '(seen, result) skill =>
                if bool_decide (name skill ∈ seen) then (seen, result)
                else (Queue.set_add (name skill) seen,
                      result ++ [(name skill, categories skill)])%list)
             values (seen, result) in
  r.2.*1 = r.1
  /\ r.1 = fold_left (fun seen skill => Queue.set_add (name skill) seen) values seen.
Proof.
  revert seen result. induction values as [|s values IH]; intros seen result Hseen; [done|].
  cbn [fold_left]. case_bool_decide as Hin.
  - replace (Queue.set_add (name s) seen) with seen
      by (unfold Queue.set_add; by rewrite bool_decide_eq_true_2).
    by apply IH.
  - apply IH. rewrite fmap_app, Hseen. unfold Queue.set_add.
    by rewrite bool_decide_eq_false_2.
Qed.

Lemma names_fold (values : list Skill) seen :
  NoDup seen ->
  NoDup (fold_left (fun seen skill => Queue.set_add (name skill) seen) values seen)
  /\ forall n, n ∈ fold_left (fun seen skill => Queue.set_add (name skill) seen) values seen
               <-> n ∈ seen \/ exists s, s ∈ values /\ name s = n.
Proof.
  revert seen. induction values as [|s values IH]; intros seen Hseen.
  - split; [done|]. intros n. split; [by left|]. intros [?|(s & Hs & _)]; [done|].
    by apply elem_of_nil in Hs.
  - cbn [fold_left]. destruct (IH (Queue.set_add (name s) seen)) as [Hnodup Hin].
    { by apply set_add_NoDup. }
    split; [done|]. intros n. rewrite Hin, elem_of_set_add. split.
    + intros [[->|?]|(s' & Hs' & Hn)]; [right; exists s; split; [left|done]|by left|].
      right. exists s'. split; [by right|done].
    + intros [?|(s' & [->|Hs']%elem_of_cons & Hn)]; [by left; right|by left; left|].
      right. by exists s'.
Qed.

End RegistryNames.

(** X17. [listSkills] and [count] agree on every registry: [listSkills]
    lists each name that a registered skill has, once, and [count] is the
    number of entries of that list. *)
Theorem listSkills_names (skills : Registry.SkillRegistry) :
  length (Registry.listSkills skills) = Registry.count skills
  /\ NoDup (Registry.listSkills skills).*1
  /\ forall n, n ∈ (Registry.listSkills skills).*1
               <-> exists s, s ∈ skills.*2 /\ Registry.name s = n.
Proof.
  unfold Registry.listSkills, Registry.count.
  destruct (listSkills_fold skills.*2 [] [] eq_refl) as [Hnames Hseen].
  destruct (names_fold skills.*2 [] (NoDup_nil_2 (A := string))) as [Hnodup Hin].
  cbv zeta in Hnames, Hseen. rewrite <- Hseen in *. rewrite <- Hnames in *.
  split; [by rewrite length_fmap|]. split; [done|].
  intros n. rewrite Hin. split; [|by right]. intros [Hn|?]; [|done].
  by apply elem_of_nil in Hn.
Qed.

(** ** The price as a formula *)

Section PriceFormula.
Import JS Pricing.

Lemma sum_list_app (l1 l2 : list Qc) :
  sum_list (l1 ++ l2)%list = (sum_list l1 + sum_list l2)%Qc.
Proof.
  unfold sum_list. induction l1 as [|x l1 IH]; cbn [foldr app].
  - change (num 0 1) with 0%Qc. ring.
  - rewrite IH. ring.
Qed.

Lemma Qc_le_this (x y : Qc) : (x <= y)%Qc <-> (this x <= this y)%Q.
Proof. reflexivity. Qed.

Lemma Qc_lt_this (x y : Qc) : (x < y)%Qc <-> (this x < this y)%Q.
Proof. reflexivity. Qed.

(** A whole number of hundredths. *)
Lemma cents_le (a b : Z) : (num a 1 / num 100 1 <= num b 1 / num 100 1)%Qc <-> (a <= b)%Z.
Proof.
  unfold Qcle, Qcdiv. rewrite !this_mult, !num_this. simpl.
  rewrite !Qred_correct. unfold Qle. simpl. lia.
Qed.

Lemma Math_round_mono (x y : Qc) :
  (x <= y)%Qc -> (Qfloor (x + num 1 2)%Qc <= Qfloor (y + num 1 2)%Qc)%Z.
Proof.
  intros Hle. apply Qfloor_resp_le. rewrite !this_plus.
  apply Qplus_le_compat; [exact Hle|apply Qle_refl].
Qed.

Lemma round_cents_mono (x y : Qc) :
  (x <= y)%Qc ->
  (Math_round (x * num 100 1) / num 100 1 <= Math_round (y * num 100 1) / num 100 1)%Qc.
Proof.
  intros Hle. rewrite !Math_round_integer. apply cents_le, Math_round_mono.
  unfold Qcle in *. rewrite !this_mult, num_this.
  apply Qmult_le_compat_r; [exact Hle|done].
Qed.

Lemma table_price_lower (c : string) : (num 2 1 <= table_price c)%Qc.
Proof.
  unfold table_price. destruct (BASE_PRICES !! c) as [v|] eqn:E; cbn; [|done].
  apply BASE_PRICES_keys in E.
  repeat (apply elem_of_cons in E as [E|E]; [injection E as -> ->; done|]).
  by apply elem_of_nil in E.
Qed.

Lemma sum_list_cons (x : Qc) (l : list Qc) : sum_list (x :: l) = (x + sum_list l)%Qc.
Proof. reflexivity. Qed.

Lemma sum_list_nil : sum_list [] = 0%Qc.
Proof. reflexivity. Qed.

(** The complexity line after a base price that is a number: with the base
    price it makes the base price times the multiplier. *)
Lemma complexity_part (base : Qc) (c : Complexity) (name : string) :
  (num 0 1 < base)%Qc ->
  let adjustment := times (Num base) (Num (COMPLEXITY_MULTIPLIERS c - num 1 1)) in
  let lines := if greater adjustment (num 0 1)
               then [ {| item := name; amount := adjustment |} ] else [] in
  Forall priced lines
  /\ (base + sum_list (price_of <$> lines))%Qc = (base * COMPLEXITY_MULTIPLIERS c)%Qc.
Proof.
  intros Hbase adjustment lines. subst adjustment lines.
  cbn [times ToNumber greater]. case_bool_decide as Hadj.
  - split; [by apply Forall_singleton|].
    cbn [fmap list_fmap]. unfold price_of at 1. cbn [amount ToNumber default from_option].
    rewrite sum_list_cons, sum_list_nil. cbn. change (num 1 1) with 1%Qc. ring.
  - split; [constructor|]. cbn [fmap list_fmap]. rewrite sum_list_nil.
    destruct c; cbn [COMPLEXITY_MULTIPLIERS] in *.
    + change (num 1 1) with 1%Qc. ring.
    + exfalso. apply Hadj. unfold Qclt in *.
      rewrite this_mult, this_minus, !num_this in *. simpl in *. lra.
    + exfalso. apply Hadj. unfold Qclt in *.
      rewrite this_mult, this_minus, !num_this in *. simpl in *. lra.
Qed.

(** A tool has a line when the table has a cost for it that is not 0. *)
Lemma tool_lines_cons (tool : string) (rest : list string) :
  tool_lines (tool :: rest)
  = match TOOL_COSTS !! tool with
    | Some toolCost =>
        if bool_decide (toolCost ≠ num 0 1) && bool_decide (num 0 1 < toolCost)%Qc
        then {| item := replace "-mcp" "" tool; amount := Num toolCost |} :: tool_lines rest
        else tool_lines rest
    | None => tool_lines rest
    end.
Proof.
  cbn [tool_lines]. unfold get. destruct (TOOL_COSTS !! tool); [done|].
  by destruct (bool_decide (tool ∈ Object_prototype)).
Qed.

Lemma sum_tool_lines (tools : list string) :
  Forall priced (tool_lines tools)
  /\ sum_list (price_of <$> tool_lines tools) = tools_cost tools.
Proof.
  unfold tools_cost. induction tools as [|tool rest [IH1 IH2]]; [by split; [constructor|]|].
  rewrite tool_lines_cons, fmap_cons, sum_list_cons.
  destruct (TOOL_COSTS !! tool) as [v|] eqn:E; cbn [default from_option Datatypes.id];
    [|split; [done|]; rewrite IH2; change (num 0 1) with 0%Qc; ring].
  apply elem_of_list_to_map_2 in E.
  repeat (apply elem_of_cons in E as [E|E];
    [injection E as -> ->;
     match goal with
     | |- context [if ?b then _ else _] =>
         let r := eval vm_compute in b in change b with r; cbv iota
     end;
     (split; [try (by constructor); done|]);
     rewrite ?fmap_cons, ?sum_list_cons, IH2;
     try reflexivity; change (num 0 1) with 0%Qc; ring|]).
  by apply elem_of_nil in E.
Qed.

Lemma tokenCost_nonneg (t : Qc) : (num 4000 1 < t)%Qc -> (num 0 1 <= tokenCost t)%Qc.
Proof.
  intros Ht. unfold tokenCost. rewrite Math_round_integer.
  replace (num 0 1) with (num 0 1 / num 100 1)%Qc by (by apply Qc_is_canon).
  apply cents_le.
  change 0%Z with (Qfloor 0). apply Qfloor_resp_le.
  unfold Qclt in Ht. rewrite this_plus, !this_mult, this_minus, !num_this in *.
  simpl in *. lra.
Qed.

Lemma sum_token_lines (t : Qc) :
  Forall priced (token_lines t)
  /\ sum_list (price_of <$> token_lines t)
     = if bool_decide (num 4000 1 < t)%Qc then tokenCost t else num 0 1.
Proof.
  unfold token_lines. case_bool_decide as Ht; [|by split; [constructor|]].
  case_bool_decide as Hpos.
  - split; [by apply Forall_singleton|].
    cbn [fmap list_fmap]. unfold price_of. cbn [amount ToNumber default from_option].
    rewrite sum_list_cons, sum_list_nil. cbn. ring.
  - split; [constructor|]. cbn [fmap list_fmap]. rewrite sum_list_nil.
    apply Qcle_antisym.
    + by apply tokenCost_nonneg.
    + by apply Qcnot_lt_le.
Qed.

Lemma tools_cost_nonneg (tools : list string) : (num 0 1 <= tools_cost tools)%Qc.
Proof.
  unfold tools_cost. induction tools as [|tool rest IH]; [done|].
  rewrite fmap_cons, sum_list_cons.
  assert (num 0 1 <= default (num 0 1) (TOOL_COSTS !! tool))%Qc as Htool.
  { destruct (TOOL_COSTS !! tool) as [v|] eqn:E; [|done].
    apply elem_of_list_to_map_2 in E.
    repeat (apply elem_of_cons in E as [E|E]; [injection E as -> ->; done|]).
    by apply elem_of_nil in E. }
  unfold Qcle in *. rewrite this_plus, !num_this in *. simpl in *. lra.
Qed.

Lemma multiplier_lower (c : Complexity) : (num 1 1 <= COMPLEXITY_MULTIPLIERS c)%Qc.
Proof. by destruct c. Qed.

Lemma price_formula_lower (analysis : TaskAnalysis) (tools : list string) :
  (num 2 1 <= price_formula analysis tools)%Qc.
Proof.
  unfold price_formula.
  pose proof (table_price_lower (category analysis)) as Hbase.
  pose proof (multiplier_lower (complexity analysis)) as Hmult.
  pose proof (tools_cost_nonneg tools) as Htools.
  assert (num 0 1 <= if bool_decide (num 4000 1 < estimatedTokens analysis)%Qc
                     then tokenCost (estimatedTokens analysis) else num 0 1)%Qc as Htok.
  { case_bool_decide; [by apply tokenCost_nonneg|done]. }
  set (base := table_price _) in *. set (m := COMPLEXITY_MULTIPLIERS _) in *.
  set (tk := if bool_decide _ then _ else _) in *. set (tl := tools_cost _) in *.
  clearbody base m tk tl.
  unfold Qcle in *. rewrite !this_plus, this_mult, !num_this in *. simpl in *.
  set (b := this base) in *. set (mm := this m) in *. clearbody b mm. nra.
Qed.

(** [calculate] on an array of tools, for a category whose name the table of
    base prices does not inherit: every amount is a positive number, the
    amounts add up to the formula, and the minimum price never applies. *)
Lemma calculate_priced (analysis : TaskAnalysis) (tools : list string) :
  toolsRequired analysis = Array tools ->
  category analysis ∉ Object_prototype ->
  exists r,
    calculate analysis = Normal r
    /\ Forall priced (breakdown r)
    /\ sum_amounts (breakdown r) = Number (price_formula analysis tools)
    /\ total r = Num (Math_round (price_formula analysis tools * num 100 1) / num 100 1)%Qc.
Proof.
  intros Htools Hcategory. unfold calculate.
  rewrite Htools, (basePrice_table _ Hcategory).
  eexists. split; [reflexivity|]. cbn [breakdown total].
  pose proof (table_price_lower (category analysis)) as Hlow.
  assert (num 0 1 < table_price (category analysis))%Qc as Hbase.
  { unfold Qclt, Qcle in *. rewrite !num_this in *. simpl in *. lra. }
  destruct (complexity_part (table_price (category analysis)) (complexity analysis)
              (complexity_name (complexity analysis) +:+ " complexity") Hbase)
    as [Hc1 Hc2].
  destruct (sum_tool_lines tools) as [Ht1 Ht2].
  destruct (sum_token_lines (estimatedTokens analysis)) as [Hk1 Hk2].
  match goal with
  | |- Forall priced ?b /\ _ =>
      assert (Forall priced b) as Hpriced;
      [|assert (sum_list (price_of <$> b) = price_formula analysis tools) as Hsum]
  end.
  { rewrite !Forall_app. repeat split; try done. by apply Forall_singleton. }
  { rewrite !fmap_app, !sum_list_app, Ht2, Hk2.
    cbn [fmap list_fmap]. unfold price_of at 1. cbn [amount ToNumber default from_option].
    rewrite sum_list_cons, sum_list_nil. unfold price_formula.
    rewrite <- Hc2. cbn. ring. }
  split; [exact Hpriced|].
  rewrite (sum_amounts_sum_list _ Hpriced), Hsum. split; [done|].
  cbn [round_cents Math_max_value ToNumber]. f_equal.
  unfold Math_max. rewrite bool_decide_eq_false_2; [done|].
  apply Qcle_not_lt. etrans; [|apply round_cents_mono, (price_formula_lower analysis tools)].
  done.
Qed.



Lemma tokenCost_mono (t t' : Qc) : (t <= t')%Qc -> (tokenCost t <= tokenCost t')%Qc.
Proof.
  intros Hle. unfold tokenCost. rewrite !Math_round_integer.
  apply cents_le, Math_round_mono. unfold Qcle in *.
  rewrite !this_mult, !this_minus, !num_this. simpl. lra.
Qed.

Lemma multiplier_mono (c c' : Complexity) :
  (complexity_rank c <= complexity_rank c')%nat ->
  (COMPLEXITY_MULTIPLIERS c <= COMPLEXITY_MULTIPLIERS c')%Qc.
Proof. destruct c, c'; cbn; intros Hle; try done; lia. Qed.

Lemma price_formula_mono (a a' : TaskAnalysis) (tools : list string) :
  category a = category a' ->
  (complexity_rank (complexity a) <= complexity_rank (complexity a'))%nat ->
  (estimatedTokens a <= estimatedTokens a')%Qc ->
  (price_formula a tools <= price_formula a' tools)%Qc.
Proof.
  intros Hcat Hrank Htokens. unfold price_formula. rewrite Hcat.
  pose proof (table_price_lower (category a')) as Hbase.
  pose proof (multiplier_mono _ _ Hrank) as Hmult.
  assert ((if bool_decide (num 4000 1 < estimatedTokens a)%Qc
           then tokenCost (estimatedTokens a) else num 0 1)
          <= (if bool_decide (num 4000 1 < estimatedTokens a')%Qc
              then tokenCost (estimatedTokens a') else num 0 1))%Qc as Htok.
  { case_bool_decide as Ht.
    - rewrite bool_decide_eq_true_2 by (by eapply Qclt_le_trans).
      by apply tokenCost_mono.
    - case_bool_decide; [by apply tokenCost_nonneg|done]. }
  set (base := table_price _) in *.
  set (m := COMPLEXITY_MULTIPLIERS (complexity a)) in *.
  set (m' := COMPLEXITY_MULTIPLIERS (complexity a')) in *.
  set (tk := if bool_decide (num 4000 1 < estimatedTokens a)%Qc then _ else _) in *.
  set (tk' := if bool_decide (num 4000 1 < estimatedTokens a')%Qc then _ else _) in *.
  set (tl := tools_cost _) in *.
  clearbody base m m' tk tk' tl.
  unfold Qcle in *. rewrite !this_plus, !this_mult, ?num_this in *. simpl in *.
  set (b := this base) in *. set (x := this m) in *. set (x' := this m') in *.
  clearbody b x x'. nra.
Qed.

End PriceFormula.


(** X19. The total of [calculate] does not go down when the task gets harder
    or longer: for a category whose name [BASE_PRICES] does not inherit and
    the same array of tools, a complexity that is not lower and a number of
    tokens that is not smaller give a total that is not smaller. *)
Theorem calculate_monotone (a a' : Pricing.TaskAnalysis) (tools : list string) :
  Pricing.category a ∉ JS.Object_prototype ->
  Pricing.category a = Pricing.category a' ->
  Pricing.toolsRequired a = Pricing.Array tools ->
  Pricing.toolsRequired a' = Pricing.Array tools ->
  (complexity_rank (Pricing.complexity a) <= complexity_rank (Pricing.complexity a'))%nat ->
  (Pricing.estimatedTokens a <= Pricing.estimatedTokens a')%Qc ->
  exists r r' x x',
    Pricing.calculate a = JS.Normal r /\ Pricing.calculate a' = JS.Normal r'
    /\ Pricing.total r = JS.Num x /\ Pricing.total r' = JS.Num x'
    /\ (x <= x')%Qc.
Proof.
  intros Hname Hcat Htools Htools' Hrank Htokens.
  destruct (calculate_priced a tools Htools Hname) as (r & Hr & _ & _ & Htotal).
  destruct (calculate_priced a' tools Htools') as (r' & Hr' & _ & _ & Htotal');
    [by rewrite <- Hcat|].
  exists r, r'. do 2 eexists. split; [done|]. split; [done|].
  split; [exact Htotal|]. split; [exact Htotal'|].
  by apply round_cents_mono, price_formula_mono.
Qed.

(** A simple research task of 1500 tokens and a complex one of 9000. *)
Lemma calculate_monotone_witness :
  exists r r' x x',
    Pricing.calculate
      {| Pricing.category := "research"; Pricing.complexity := Pricing.simple;
         Pricing.estimatedTokens := Pricing.num 1500 1;
         Pricing.toolsRequired := Pricing.Array ["exa-mcp"] |} = JS.Normal r
    /\ Pricing.calculate
         {| Pricing.category := "research"; Pricing.complexity := Pricing.complex;
            Pricing.estimatedTokens := Pricing.num 9000 1;
            Pricing.toolsRequired := Pricing.Array ["exa-mcp"] |} = JS.Normal r'
    /\ Pricing.total r = JS.Num x /\ Pricing.total r' = JS.Num x'
    /\ (x <= x')%Qc.
Proof.
  apply (calculate_monotone _ _ ["exa-mcp"]);
    [|reflexivity|reflexivity|reflexivity|cbn; lia|vm_compute; discriminate].
  intros Hin. vm_compute in Hin.
  repeat (apply elem_of_cons in Hin as [Hin|Hin]; [discriminate Hin|]).
  by apply elem_of_nil in Hin.
Defined.

(** ** Creating tasks *)

Section CreateFacts.
Import JS Queue.
Context `{host : Host}.

Lemma getTask_createTask data uuid now1 now2 score q id' :
  getTask id' (createTask data uuid now1 now2 score q).2
  = if decide (id' = uuid)
    then (if useInMemory q then Some (createTask data uuid now1 now2 score q).1
          else match redis q with
               | Some _ => Some (deserializeTask
                                   (serializeTask (createTask data uuid now1 now2 score q).1))
               | None => None
               end)
    else getTask id' q.
Proof.
  unfold createTask, getTask. destruct (useInMemory q) eqn:Hmem; cbn [snd fst].
  - rewrite ?Hmem. cbn [inMemoryTasks id].
    destruct (decide (id' = uuid)) as [->|Hne].
    + by rewrite lookup_insert_eq.
    + by rewrite lookup_insert_ne.
  - destruct (redis q) as [r|] eqn:Hredis; cbn [snd fst].
    + cbn [set_redis useInMemory redis]. rewrite ?Hmem.
      unfold hgetall, zadd, sadd, hset. cbn [hashes id].
      destruct (decide (id' = uuid)) as [->|Hne].
      * by rewrite lookup_insert_eq.
      * rewrite lookup_insert_ne; [done|]. intros Heq. by apply task_key_inj in Heq.
    + rewrite ?Hmem, ?Hredis. by destruct (decide (id' = uuid)).
Qed.

Lemma collect_ext ids q q' :
  (forall id, id ∈ ids -> getTask id q' = getTask id q) ->
  collect ids q' = collect ids q.
Proof.
  unfold collect. induction ids as [|id ids IH]; intros Hsame; [done|].
  cbn [omap list_omap]. rewrite (Hsame id) by left.
  rewrite IH; [done|]. intros id' Hid'. apply Hsame. by right.
Qed.

End CreateFacts.

(** X20. [createTask] and [getTask], in either mode. The task made has the
    given id, the status asked for or [pending_payment], the instants of the
    call, and no payment, execution or result field. Reading its id back
    gives the task as the store keeps it, which is the task itself unless
    its sender address is the empty string; every other id reads as before.
    Without a store to write to (neither fallback mode nor a backing store)
    the task is returned but not kept. *)
Theorem createTask_then_getTask `{host : Host} `{!HostLaws host}
    (data : Queue.CreateData) (uuid : string) (now1 now2 score : Z) (q : Queue.TaskQueue) :
  let r := Queue.createTask data uuid now1 now2 score q in
  (Queue.id r.1 = uuid
   /\ Queue.status r.1 = default Queue.pending_payment (Queue.d_status data)
   /\ Queue.priceUsdc r.1 = Queue.d_priceUsdc data
   /\ Queue.createdAt r.1 = now1 /\ Queue.updatedAt r.1 = now2
   /\ Queue.paidTxHash r.1 = None /\ Queue.paidAt r.1 = None
   /\ Queue.startedAt r.1 = None /\ Queue.completedAt r.1 = None
   /\ Queue.deliverable r.1 = None /\ Queue.error r.1 = None)
  /\ Queue.getTask uuid r.2
     = (if Queue.useInMemory q then Some r.1
        else match Queue.redis q with
             | Some _ =>
                 Some (if bool_decide (Queue.d_senderAddress data = Some EmptyString)
                       then Queue.deserializeTask (Queue.serializeTask r.1) else r.1)
             | None => None
             end)
  /\ forall id', id' <> uuid -> Queue.getTask id' r.2 = Queue.getTask id' q.
Proof.
  intros r. subst r. split; [|split].
  - unfold Queue.createTask.
    destruct (Queue.useInMemory q); [by repeat split|].
    destruct (Queue.redis q); by repeat split.
  - rewrite getTask_createTask, decide_True by done.
    destruct (Queue.useInMemory q); [done|].
    destruct (Queue.redis q) as [r|]; [|done].
    case_bool_decide as Hsender; [done|]. by rewrite created_clean.
  - intros id' Hne. by rewrite getTask_createTask, decide_False.
Qed.

Lemma createTask_then_getTask_witness :
  Queue.getTask Scenario.task_id
    (Queue.createTask Scenario.request Scenario.task_id 1000 1000 1000
       Scenario.empty_redis).2
  = Some (Queue.createTask Scenario.request Scenario.task_id 1000 1000 1000
            Scenario.empty_redis).1.
Proof.
  exact (proj1 (proj2 (createTask_then_getTask (host := ReferenceHost.host)
                         Scenario.request Scenario.task_id 1000 1000 1000
                         Scenario.empty_redis))).
Defined.

(** X21. In fallback mode [getTasksBySender] looks at the first [limit] ids
    of the sender in the order of their creation, so a sender who has that
    many tasks does not see a newer one: after [createTask] with a fresh id
    for a sender whose set already holds [limit] ids or more, the list that
    [getTasksBySender] returns for this limit is what it was. *)
Theorem getTasksBySender_misses_newer_tasks `{host : Host}
    (data : Queue.CreateData) (uuid : string) (now1 now2 score : Z)
    (limit : nat) (q : Queue.TaskQueue) (ids : list string) :
  Queue.useInMemory q = true ->
  Queue.inMemoryBySender q !! Queue.d_senderId data = Some ids ->
  uuid ∉ ids ->
  (limit <= length ids)%nat ->
  Queue.getTasksBySender (Queue.d_senderId data) limit
    (Queue.createTask data uuid now1 now2 score q).2
  = Queue.getTasksBySender (Queue.d_senderId data) limit q.
Proof.
  intros Hmem Hids Hfresh Hlimit.
  unfold Queue.getTasksBySender.
  rewrite useInMemory_createTask, Hmem, Hids.
  assert (Queue.inMemoryBySender (Queue.createTask data uuid now1 now2 score q).2
            !! Queue.d_senderId data = Some (ids ++ [uuid])%list) as ->.
  { unfold Queue.createTask. rewrite Hmem. cbn [snd Queue.inMemoryBySender Queue.id].
    rewrite lookup_insert_eq, Hids. cbn [default from_option Datatypes.id].
    unfold Queue.set_add. by rewrite bool_decide_eq_false_2. }
  rewrite take_app_le by done. f_equal. apply collect_ext.
  intros id Hid. rewrite getTask_createTask, decide_False; [done|].
  intros ->. apply Hfresh. apply elem_of_take in Hid as (i & Hi & _).
  by eapply list_elem_of_lookup_2.
Qed.

(** A sender with one task, asked for one: the second task is not seen. *)
Lemma getTasksBySender_misses_newer_tasks_witness :
  Queue.getTasksBySender (Queue.d_senderId Scenario.request) 1
    (Queue.createTask Scenario.request "1b4e28ba-2fa1-41d2-883f-0016d3cca427" 5000 5000 5000
       (Scenario.requested Scenario.empty_memory)).2
  = Queue.getTasksBySender (Queue.d_senderId Scenario.request) 1
      (Scenario.requested Scenario.empty_memory).
Proof.
  apply (getTasksBySender_misses_newer_tasks Scenario.request
           "1b4e28ba-2fa1-41d2-883f-0016d3cca427" 5000 5000 5000 1
           (Scenario.requested Scenario.empty_memory) [Scenario.task_id]).
  - reflexivity.
  - reflexivity.
  - intros Hin. apply list_elem_of_singleton in Hin. discriminate Hin.
  - cbn. lia.
Defined.

(** ** Sending a payment *)

(** X22. [sendPayment] never throws, and what it passes to [writeContract]
    is bounded by the balance. When the amount is no decimal number or the
    balance cannot be read, it makes no call and returns the failure with
    the message of the error; when the balance is below the amount, it makes
    no call and returns the failure [Insufficient balance]. Otherwise it
    makes exactly one call, for the recipient and the amount in base units;
    it then reports success only when that call returned a hash and the
    receipt awaited for the hash has succeeded, and every other result
    carries an error and no hash. *)
Theorem sendPayment_within_balance `{host : Host} (h : X402.X402PaymentHandler)
    (c : X402.Clients) (to amount : string) :
  let failure error :=
    {| X402.send_success := false; X402.send_txHash := None;
       X402.send_error := Some error |} in
  match Viem.parseUnits amount X402.USDC_DECIMALS,
        X402.balanceOf c (X402.account_address h) with
  | JS.Normal amountWei, JS.Normal balance =>
      if (balance <? amountWei)%Z
      then X402.sendPayment h c to amount
           = (JS.Normal (failure "Insufficient balance"), [])
      else exists r,
             X402.sendPayment h c to amount = (JS.Normal r, [(to, amountWei)])
             /\ if X402.send_success r
                then exists txHash receipt,
                       X402.writeContract_transfer c to amountWei = JS.Normal txHash
                       /\ X402.waitForTransactionReceipt c txHash = JS.Normal receipt
                       /\ X402.status receipt = X402.success
                       /\ X402.send_txHash r = Some txHash /\ X402.send_error r = None
                else is_Some (X402.send_error r) /\ X402.send_txHash r = None
  | JS.Throw e, _ | JS.Normal _, JS.Throw e =>
      X402.sendPayment h c to amount
      = (JS.Normal (failure ("Payment failed: " +:+ error_message e)), [])
  end.
Proof.
  intros failure.
  unfold X402.sendPayment, X402.sendPayment_try, X402.sending_bind, X402.quiet,
    X402.transfer.
  destruct (Viem.parseUnits amount X402.USDC_DECIMALS) as [wei|e] eqn:Hwei; [|done].
  destruct (X402.balanceOf c (X402.account_address h)) as [balance|e] eqn:Hbalance;
    [|done].
  destruct (Z.ltb_spec balance wei) as [Hlt|Hle]; [done|].
  destruct (X402.writeContract_transfer c to wei) as [txHash|e] eqn:Hwrite;
    [|eexists; split; [done|]; by split; [eexists|]].
  destruct (X402.waitForTransactionReceipt c txHash) as [receipt|e] eqn:Hwait;
    [|eexists; split; [done|]; by split; [eexists|]].
  destruct (X402.status receipt) eqn:Hstatus; eexists; (split; [done|]).
  - by exists txHash, receipt.
  - by split; [eexists|].
Qed.

(** ** Quick estimates *)

Section QuickEstimate.
Import JS Pricing.

Lemma estimateTokens_value (description : string) :
  estimateTokens description
  = num (3 * ((Z.of_nat (str_length description) + 3) / 4) + 1000) 1.
Proof.
  unfold estimateTokens, Math_ceil. set (n := Z.of_nat (str_length description)).
  assert (Qceiling (num n 1 / num 4 1)%Qc = ((n + 3) / 4)%Z) as ->.
  { transitivity (Qceiling (n # 4)).
    - apply Qceiling_comp. unfold Qcdiv. rewrite this_mult, !num_this. simpl.
      rewrite Qred_correct. unfold Qeq. simpl. lia.
    - unfold Qceiling, Qfloor. simpl. Z.div_mod_to_equations. lia. }
  apply Qc_is_canon. rewrite this_plus, this_mult, !num_this. simpl.
  rewrite Qred_correct. unfold Qeq. simpl. lia.
Qed.

Lemma tokenCost_integer (T : Z) :
  tokenCost (num T 1) = (num ((T - 3950) / 100) 1 / num 100 1)%Qc.
Proof.
  unfold tokenCost. rewrite Math_round_integer. do 2 f_equal.
  transitivity (Qfloor ((T - 3950) # 100)); [|reflexivity].
  apply Qfloor_comp. rewrite this_plus, !this_mult, this_minus, !num_this.
  unfold Qeq. simpl. lia.
Qed.

Lemma token_lines_integer (T : Z) :
  token_lines (num T 1)
  = if bool_decide (4050 <= T)%Z
    then [ {| item := "extended output"; amount := Num (tokenCost (num T 1)) |} ]
    else [].
Proof.
  unfold token_lines. rewrite tokenCost_integer.
  assert ((num 4000 1 < num T 1)%Qc <-> (4000 < T)%Z) as Hgt.
  { unfold Qclt. rewrite !num_this. unfold Qlt. simpl. lia. }
  pose proof (hundredths_positive ((T - 3950) / 100)) as Hpos.
  repeat case_bool_decide; try done; exfalso.
  - apply Hpos in H0. Z.div_mod_to_equations. lia.
  - apply H0, Hpos. Z.div_mod_to_equations. lia.
  - apply H, Hgt. lia.
Qed.

(** What [inferTools] returns: an array, unless the table of tools inherits
    the name of the category. *)
Lemma inferTools_array (category : string) :
  category ∉ Object_prototype -> exists tools, inferTools category = Array tools.
Proof.
  intros Hcategory. unfold inferTools, get.
  destruct (CATEGORY_TOOLS !! category); [by eexists|].
  rewrite bool_decide_eq_false_2 by done. by eexists.
Qed.

Lemma inferTools_inherited (category : string) :
  category ∈ Object_prototype -> inferTools category = NotIterable category.
Proof.
  intros Hcategory. unfold inferTools, get.
  destruct (inherited_names category Hcategory) as (_ & -> & _).
  by rewrite bool_decide_eq_true_2.
Qed.

(** The lines of a breakdown that [calculate] returns. *)
Lemma calculate_breakdown (analysis : TaskAnalysis) (tools : list string) :
  toolsRequired analysis = Array tools ->
  exists r lines,
    calculate analysis = Normal r
    /\ breakdown r = (lines ++ token_lines (estimatedTokens analysis))%list
    /\ Forall (fun l => item l <> "extended output") lines.
Proof.
  intros Htools. unfold calculate. rewrite Htools. do 2 eexists.
  split; [reflexivity|]. cbn [breakdown]. split; [by rewrite !app_assoc|].
  apply Forall_app. split; [apply head_item_names|apply tool_item_names].
Qed.

End QuickEstimate.

(** X23. [quickEstimate] for a category whose name [CATEGORY_TOOLS] does
    not inherit from [Object.prototype] charges for extended output exactly
    when the description is longer than 4064 code units, whatever the
    complexity found: [estimateTokens] gives three tokens for every started
    group of four code units and a thousand more, and the [extended output]
    line needs 4050 tokens to have a positive amount. For a category with an
    inherited name, [inferTools] returns the inherited function or object,
    and [quickEstimate] throws a [TypeError] when [calculate] iterates it. *)
Theorem quickEstimate_extended_output (description category : string) :
  Pricing.estimateTokens description
  = Pricing.num (3 * ((Z.of_nat (JS.str_length description) + 3) / 4) + 1000) 1
  /\ if bool_decide (category ∈ JS.Object_prototype)
     then exists message,
            Pricing.quickEstimate description category = JS.Throw (JS.TypeError message)
     else exists r,
            Pricing.quickEstimate description category = JS.Normal r
            /\ (Exists (fun l => Pricing.item l = "extended output") (Pricing.breakdown r)
                <-> (4064 < JS.str_length description)%nat).
Proof.
  split; [apply estimateTokens_value|].
  unfold Pricing.quickEstimate. case_bool_decide as Hcategory.
  - unfold Pricing.calculate. cbn [Pricing.toolsRequired].
    rewrite (inferTools_inherited category Hcategory). by eexists.
  - destruct (inferTools_array category Hcategory) as [tools Htools].
    rewrite Htools.
    match goal with
    | |- exists r, Pricing.calculate ?analysis = _ /\ _ =>
        destruct (calculate_breakdown analysis tools eq_refl)
          as (r & lines & Hr & Hbreakdown & Hlines)
    end.
    exists r. split; [exact Hr|]. rewrite Hbreakdown.
    cbn [Pricing.estimatedTokens]. rewrite estimateTokens_value, token_lines_integer.
    rewrite Exists_app.
    assert (~ Exists (fun x => Pricing.item x = "extended output") lines) as Hnone.
    { intros Hex. apply Exists_exists in Hex as (x & Hx & Heq).
      rewrite Forall_forall in Hlines. by apply (Hlines x). }
    split.
    + intros [Hex|Htokens]; [done|].
      case_bool_decide as HT; [|by apply Exists_nil in Htokens].
      Z.div_mod_to_equations. lia.
    + intros Hlen. right.
      rewrite bool_decide_eq_true_2 by (Z.div_mod_to_equations; lia).
      by left.
Qed.

(** ** Incoming messages *)

Section Messages.
Import JS Queue Core.
Context `{host : Host}.

(** What [handleBountyRequest] does to the store: nothing when the price
    cannot be calculated, and else the [createTask] of the request. *)
Lemma handleBountyRequest_store w a message intent c q :
  (handleBountyRequest w a message intent c q).2
  = match quote intent with
    | Normal price =>
        (createTask
           {| d_channel := msg_channel message;
              d_channelMessageId := msg_channelMessageId message;
              d_senderId := msg_senderId message;
              d_senderAddress := msg_senderAddress message;
              d_description := content message;
              d_category := or_else (intent_category intent) "other";
              d_priceUsdc := value_toString (Pricing.total price);
              d_status := Some pending_payment |}
           (c_uuid c) (c_createdAt c) (c_updatedAt c) (c_score c) q).2
    | Throw _ => q
    end.
Proof.
  unfold handleBountyRequest. unfold mbind at 1, await at 1.
  destruct (quote intent) as [price|e]; [|done].
  destruct (createTask _ _ _ _ _ q) as [task q1].
  unfold mbind, await, ret. cbn [snd].
  destruct (X402.generatePaymentDeepLink _ _); [|done].
  by destruct (generateBountyResponse w intent price).
Qed.

Lemma queues_createTask data uuid now1 now2 score q :
  inMemoryQueue (createTask data uuid now1 now2 score q).2 = inMemoryQueue q
  /\ queue (createTask data uuid now1 now2 score q).2 = queue q.
Proof.
  unfold createTask. destruct (useInMemory q); [done|]. by destruct (redis q).
Qed.

(** What a message that is no payment message does to the store. *)
Lemma handleMessage_store w a message c q :
  startsWith (content message) "PAYMENT:" = false ->
  (handleMessage w a message c q).2
  = if includes (toLowerCase (content message)) "status" then q
    else match analyzeIntent w (content message) with
         | Normal intent =>
             if bool_decide (intent_type intent = "bounty_request")
             then (handleBountyRequest w a message intent c q).2
             else q
         | Throw _ => q
         end.
Proof.
  intros Hpayment. unfold handleMessage. rewrite Hpayment.
  destruct (includes _ "status").
  - unfold mbind, handleStatusCheck, ret.
    destruct (match_task_id (content message)).
    + by destruct (getTask _ q).
    + by destruct (getTasksBySender _ _ q).
  - unfold mbind, await, ret.
    destruct (analyzeIntent w (content message)) as [intent|e]; [|done].
    case_bool_decide; [done|].
    case_bool_decide.
    + by destruct (answerQuestion w message).
    + by destruct (converse w message).
Qed.

End Messages.

(** X24. The payment gate. Whatever the message, [handleMessage] either
    leaves both work queues as they are, or the message is a payment message
    that names a stored task and a transaction whose proof verifies against
    the price of that task, and then the id of that task, and nothing else,
    has been put at the end of the work queue. No other message, and no
    answer of the language model, gets a task executed. *)
Theorem enqueue_only_after_verified_payment `{host : Host} (w : Core.World)
    (a : Core.AgentCore) (message : Core.IncomingMessage) (c : Core.Clock)
    (q : Queue.TaskQueue) :
  let q' := (Core.handleMessage w a message c q).2 in
  (Queue.inMemoryQueue q' = Queue.inMemoryQueue q /\ Queue.queue q' = Queue.queue q)
  \/ exists taskId txHash task v,
       JS.startsWith (Core.content message) "PAYMENT:" = true
       /\ JS.split ":" (Core.content message) !! 1%nat = Some taskId
       /\ JS.split ":" (Core.content message) !! 2%nat = Some txHash
       /\ Queue.getTask taskId q = Some task
       /\ X402.verifyPayment (Core.payments a)
            {| X402.txHash := txHash; X402.proof_network := X402.base |}
            (Queue.priceUsdc task) None = JS.Normal v
       /\ X402.valid v = true
       /\ q' = Queue.enqueue taskId
                 (Queue.updateTask taskId
                    (Core.update_paid txHash (Core.c_paidAt c) (X402.sender v))
                    (Core.c_paidUpdate c) q).2.
Proof.
  intros q'. subst q'.
  destruct (JS.startsWith (Core.content message) "PAYMENT:") eqn:Hpayment.
  - assert ((Core.handleMessage w a message c q).2
            = (Core.handlePaymentVerification a message (Core.c_paidAt c)
                 (Core.c_paidUpdate c) q).2) as ->.
    { unfold Core.handleMessage. rewrite Hpayment. unfold Core.mbind, Core.ret.
      by destruct (Core.handlePaymentVerification _ _ _ _ q) as [[r|e] q1]. }
    destruct (handlePaymentVerification_effect a message (Core.c_paidAt c)
                (Core.c_paidUpdate c) q)
      as [->|(taskId & txHash & task & v & H1 & H2 & Hget & Hv & Hvalid & ->)];
      [by left|].
    right. by exists taskId, txHash, task, v.
  - left. rewrite handleMessage_store by done.
    destruct (JS.includes _ "status"); [done|].
    destruct (Core.analyzeIntent w (Core.content message)) as [intent|e]; [|done].
    case_bool_decide; [|done].
    rewrite handleBountyRequest_store.
    destruct (Core.quote intent); [apply queues_createTask|done].
Qed.

(** ** The quoted price *)

Section QuotedPrice.
Import JS Viem.

Lemma parse_digits_acc (s : string) (acc : Z) :
  parse_digits 10 s acc
  = (fun v => acc * 10 ^ Z.of_nat (String.length s) + v)%Z <$> parse_digits 10 s 0.
Proof.
  revert acc. induction s as [|c s IH]; intros acc.
  - cbn. f_equal. lia.
  - cbn [parse_digits String.length]. destruct (digit_value c) as [d|]; [|done].
    destruct (d <? 10)%Z; [|done]. rewrite (IH (acc * 10 + d)%Z), (IH (0 * 10 + d)%Z).
    destruct (parse_digits 10 s 0) as [v|]; [|done].
    cbn [fmap option_fmap option_map]. f_equal.
    rewrite Nat2Z.inj_succ, Z.pow_succ_r; [ring|lia].
Qed.

Lemma fraction_checked (f : Z) : (0 <= f < 100)%Z -> fraction_check f = true.
Proof.
  intros Hf.
  assert (forallb fraction_check (seqZ 0 100) = true) as Hall by (vm_compute; reflexivity).
  rewrite forallb_forall in Hall. apply Hall.
  apply list_elem_of_In, elem_of_seqZ. lia.
Qed.

Lemma Qfloor_hundredths (n : Z) :
  Qfloor (Q2Qc (n # 1) / Q2Qc (100 # 1) * Q2Qc (100 # 1))%Qc = n.
Proof.
  transitivity (Qfloor (inject_Z n)); [|apply Qfloor_Z].
  apply Qfloor_comp. unfold Qcdiv. rewrite !this_mult. simpl. rewrite !Qred_correct.
  unfold Qeq, inject_Z. simpl. lia.
Qed.

(** The text of a price reads back as its base units. *)
Lemma parseUnits_Number_toString (n : Z) :
  (0 <= n)%Z ->
  parseUnits (Number_toString (Pricing.num n 1 / Pricing.num 100 1)%Qc) 6
  = Normal (n * 10000)%Z.
Proof.
  intros Hn. unfold Number_toString.
  change (Pricing.num n 1) with (Q2Qc (n # 1)).
  change (Pricing.num 100 1) with (Q2Qc (100 # 1)).
  rewrite Qfloor_hundredths. cbv zeta.
  set (i := (n / 100)%Z). set (f := (n mod 100)%Z).
  assert (0 <= f < 100)%Z as Hf by (subst f; apply Z.mod_pos_bound; lia).
  assert (0 <= i)%Z as Hi by (subst i; apply Z.div_pos; lia).
  pose proof (fraction_checked f Hf) as Hcheck. unfold fraction_check in Hcheck.
  cbv zeta in Hcheck.
  apply andb_prop in Hcheck as [Hcheck Hparse].
  apply andb_prop in Hcheck as [Hcheck Hlen].
  apply andb_prop in Hcheck as [Htext Hdigits].
  apply String.eqb_eq in Htext. apply Nat.eqb_eq in Hlen.
  apply bool_decide_eq_true in Hparse.
  rewrite Htext.
  destruct (pretty_nonneg i Hi) as (Hall & Hne & Hvalue).
  replace (n * 10000)%Z with (i * 1000000 + f * 10000)%Z
    by (subst i f; Z.div_mod_to_equations; lia).
  apply (parseUnits_digits false (pretty i) _ _ 6 Hall Hne Hdigits Hlen).
  rewrite parse_digits_app, Hvalue. cbn [mbind option_bind].
  rewrite parse_digits_acc, Hparse, Hlen. cbn. f_equal; lia.
Qed.

End QuotedPrice.

Section Bounties.
Import JS Queue Core.
Context `{host : Host}.

Lemma quote_table_other (category : string) (c : Pricing.Complexity) :
  Pricing.BASE_PRICES !! category = None ->
  quote_table category c = quote_table "other" c.
Proof.
  intros Hbase. apply not_elem_of_list_to_map_2 in Hbase.
  assert (category ∉ ["research"; "website"; "writing"; "code"; "design"; "other"])
    as Hnot by exact Hbase.
  repeat (apply not_elem_of_cons in Hnot as [? Hnot]).
  unfold quote_table. by rewrite !bool_decide_eq_false_2 by done.
Qed.

(** The formula at the input of a bounty request is the price of the list,
    a whole number of hundredths. *)
Lemma quote_formula (category : string) (c : Pricing.Complexity) (tools : list string) :
  Pricing.inferTools category = Pricing.Array tools ->
  price_formula
    {| Pricing.category := category; Pricing.complexity := c;
       Pricing.estimatedTokens := Pricing.num 2000 1;
       Pricing.toolsRequired := Pricing.Array tools |} tools
  = (Pricing.num (quote_table category c) 1 / Pricing.num 100 1)%Qc.
Proof.
  intros Htools. unfold Pricing.inferTools, get in Htools.
  destruct (Pricing.BASE_PRICES !! category) as [v|] eqn:Hbase.
  - apply BASE_PRICES_keys in Hbase.
    repeat (apply elem_of_cons in Hbase as [Hbase|Hbase];
            [injection Hbase as -> _; injection Htools as <-; destruct c;
             apply Qc_is_canon; vm_compute; reflexivity|]).
    by apply elem_of_nil in Hbase.
  - rewrite (quote_table_other category c Hbase).
    assert (Pricing.CATEGORY_TOOLS !! category = None) as Hnone.
    { apply not_elem_of_list_to_map_2 in Hbase. by apply not_elem_of_list_to_map_1. }
    rewrite Hnone in Htools.
    destruct (bool_decide (category ∈ Object_prototype)); [done|].
    injection Htools as <-. unfold price_formula, table_price.
    cbn [Pricing.category Pricing.complexity Pricing.estimatedTokens]. rewrite Hbase.
    destruct c; apply Qc_is_canon; vm_compute; reflexivity.
Qed.

(** The quote of a bounty request whose category has no inherited name. *)
Lemma quote_returns (intent : Intent) :
  or_else (intent_category intent) "other" ∉ Object_prototype ->
  exists price,
    quote intent = Normal price
    /\ Pricing.total price
       = Num (Pricing.num (quote_table (or_else (intent_category intent) "other")
                             (complexity_of (intent_complexity intent))) 1
              / Pricing.num 100 1)%Qc
    /\ Pricing.sum_amounts (Pricing.breakdown price)
       = Pricing.Number
           (Pricing.num (quote_table (or_else (intent_category intent) "other")
                           (complexity_of (intent_complexity intent))) 1
            / Pricing.num 100 1)%Qc
    /\ Forall (fun l => Pricing.item l <> "extended output") (Pricing.breakdown price).
Proof.
  intros Hcategory. unfold quote.
  set (category := or_else _ "other") in *. set (c := complexity_of _).
  destruct (inferTools_array category Hcategory) as [tools Htools]. rewrite Htools.
  set (analysis := {| Pricing.category := category; Pricing.complexity := c;
                      Pricing.estimatedTokens := Pricing.num 2000 1;
                      Pricing.toolsRequired := Pricing.Array tools |}).
  destruct (calculate_priced analysis tools eq_refl Hcategory)
    as (r & Hr & _ & Hsum & Htotal).
  destruct (calculate_breakdown analysis tools eq_refl)
    as (r' & lines & Hr' & Hbreakdown & Hlines).
  rewrite Hr in Hr'. injection Hr' as <-.
  pose proof (quote_formula category c tools Htools) as Hformula.
  fold analysis in Hformula. rewrite Hformula in Hsum, Htotal.
  exists r. split; [done|]. split; [|split; [done|]].
  - rewrite Htotal. f_equal. rewrite Math_round_integer.
    f_equal. f_equal. unfold Qcdiv. rewrite <- Qcmult_assoc.
    replace (/ Pricing.num 100 1 * Pricing.num 100 1)%Qc with 1%Qc
      by (by apply Qc_is_canon).
    rewrite Qcmult_1_r.
    transitivity (Qfloor (inject_Z (quote_table category c) + (1 # 2))%Q).
    + apply Qfloor_comp. rewrite this_plus, !num_this. reflexivity.
    + unfold Qfloor, inject_Z. simpl. Z.div_mod_to_equations. lia.
  - rewrite Hbreakdown. cbn [Pricing.estimatedTokens analysis].
    replace (Pricing.token_lines (Pricing.num 2000 1)) with (@nil Pricing.PriceBreakdown)
      by (by rewrite token_lines_integer).
    by rewrite app_nil_r.
Qed.

(** The quote of a bounty request whose category has an inherited name. *)
Lemma quote_throws (intent : Intent) :
  or_else (intent_category intent) "other" ∈ Object_prototype ->
  quote intent = Throw (TypeError "analysis.toolsRequired is not iterable").
Proof.
  intros Hcategory. unfold quote, Pricing.calculate. cbn [Pricing.toolsRequired].
  by rewrite (inferTools_inherited _ Hcategory).
Qed.

End Bounties.

Section QuoteFacts.
Import JS Queue Core.

Lemma Normal_inj {A} (x y : A) : Normal x = Normal y -> x = y.
Proof. intros Heq. by injection Heq. Qed.

Lemma quote_table_bounds (category : string) (c : Pricing.Complexity) :
  (225 <= quote_table category c <= 5200)%Z.
Proof. unfold quote_table. destruct c; repeat case_bool_decide; lia. Qed.

Lemma quote_parses (intent : Intent) :
  or_else (intent_category intent) "other" ∉ Object_prototype ->
  exists price,
    quote intent = Normal price
    /\ Viem.parseUnits (value_toString (Pricing.total price)) X402.USDC_DECIMALS
       = Normal (quote_table (or_else (intent_category intent) "other")
                   (complexity_of (intent_complexity intent)) * 10000)%Z.
Proof.
  intros Hcategory.
  destruct (quote_returns intent Hcategory) as (price & Hquote & Htotal & _).
  exists price. split; [done|]. rewrite Htotal. cbn [value_toString].
  apply parseUnits_Number_toString.
  pose proof (quote_table_bounds (or_else (intent_category intent) "other")
                (complexity_of (intent_complexity intent))). lia.
Qed.

End QuoteFacts.

(** X25. A bounty request, that is a message that is no payment message,
    does not mention a status and is found by the model to ask for a
    bounty. When the name of its category is one that the pricing tables
    inherit from [Object.prototype], [handleMessage] throws the [TypeError]
    of [calculate] and the store is as it was. Otherwise the request stores
    one new task and changes no other: the task has the id drawn for it, the
    status [pending_payment], the text of the quoted total as its price, the
    message as its description and no payment field. The task is stored
    whether or not the reply to the sender can then be written; a reply that
    is written names the task and asks for the same amount. *)
Theorem bounty_request_creates_pending_task `{host : Host} (w : Core.World)
    (a : Core.AgentCore) (message : Core.IncomingMessage) (c : Core.Clock)
    (q : Queue.TaskQueue) (intent : Core.Intent) :
  JS.startsWith (Core.content message) "PAYMENT:" = false ->
  JS.includes (JS.toLowerCase (Core.content message)) "status" = false ->
  Core.analyzeIntent w (Core.content message) = JS.Normal intent ->
  Core.intent_type intent = "bounty_request" ->
  let r := Core.handleMessage w a message c q in
  if bool_decide (Core.or_else (Core.intent_category intent) "other" ∈ JS.Object_prototype)
  then exists message, r = (JS.Throw (JS.TypeError message), q)
  else
    exists price,
      Core.quote intent = JS.Normal price
      /\ (forall id, id <> Core.c_uuid c -> Queue.getTask id r.2 = Queue.getTask id q)
      /\ (Queue.useInMemory q = true \/ is_Some (Queue.redis q) ->
          exists task,
            Queue.getTask (Core.c_uuid c) r.2 = Some task
            /\ Queue.id task = Core.c_uuid c
            /\ Queue.status task = Queue.pending_payment
            /\ Queue.priceUsdc task = JS.value_toString (Pricing.total price)
            /\ Queue.description task = Core.content message
            /\ Queue.senderId task = Core.msg_senderId message
            /\ Queue.paidTxHash task = None /\ Queue.paidAt task = None)
      /\ (forall reply, r.1 = JS.Normal reply ->
            Core.r_taskId (Core.response reply) = Some (Core.c_uuid c)
            /\ exists url,
                 Core.requiresPayment reply
                 = Some {| Core.pr_taskId := Core.c_uuid c;
                           Core.pr_amount := JS.value_toString (Pricing.total price);
                           Core.pr_paymentUrl := url |}).
Proof.
  intros Hpayment Hstatus Hintent Htype r. subst r.
  case_bool_decide as Hcategory.
  - unfold Core.handleMessage. rewrite Hpayment, Hstatus.
    unfold Core.mbind at 1, Core.await at 1.
    rewrite Hintent, bool_decide_eq_true_2 by done.
    unfold Core.handleBountyRequest, Core.mbind, Core.await.
    rewrite (quote_throws intent Hcategory). by eexists.
  - destruct (quote_returns intent Hcategory) as (price & Hquote & _).
    exists price. split; [done|].
    split; [|split].
    + intros id Hne.
      rewrite handleMessage_store, Hstatus, Hintent, bool_decide_eq_true_2 by done.
      rewrite handleBountyRequest_store, Hquote.
      by rewrite getTask_createTask, decide_False.
    + intros Hstore.
      rewrite handleMessage_store, Hstatus, Hintent, bool_decide_eq_true_2 by done.
      rewrite handleBountyRequest_store, Hquote, getTask_createTask, decide_True by done.
      unfold Queue.createTask.
      destruct (Queue.useInMemory q) eqn:Hmem; cbn [fst]; [by eexists|].
      destruct Hstore as [?|[r Hr]]; [done|]. rewrite Hr. cbn [fst].
      eexists. split; [done|]. by repeat split.
    + intros reply. unfold Core.handleMessage.
      rewrite Hpayment, Hstatus. unfold Core.mbind at 1, Core.await at 1.
      rewrite Hintent, bool_decide_eq_true_2 by done.
      unfold Core.handleBountyRequest. unfold Core.mbind at 1, Core.await at 1.
      rewrite Hquote.
      assert (forall data, (Queue.createTask data (Core.c_uuid c) (Core.c_createdAt c)
                              (Core.c_updatedAt c) (Core.c_score c) q).1.(Queue.id)
                           = Core.c_uuid c) as Hid.
      { intros data. unfold Queue.createTask. destruct (Queue.useInMemory q); [done|].
        by destruct (Queue.redis q). }
      match goal with
      | |- context [Queue.createTask ?data _ _ _ _ q] => specialize (Hid data)
      end.
      destruct (Queue.createTask _ _ _ _ _ q) as [task q1] eqn:Hcreate.
      cbn [fst] in Hid. rename Hid into Hid'.
      unfold Core.mbind, Core.await, Core.ret. cbn [fst].
      destruct (X402.generatePaymentDeepLink _ _) as [url|e]; [|done].
      destruct (Core.generateBountyResponse w intent price); [|done].
      intros Heq%Normal_inj. subst reply.
      cbn [Core.response Core.r_taskId Core.requiresPayment].
      rewrite Hid'. split; [done|]. by exists url.
Qed.

(** The request of the scenario is quoted at 2.25. *)
Lemma bounty_request_creates_pending_task_witness :
  exists task,
    Queue.getTask Scenario.task_id
      (Core.handleMessage Scenario.world (Scenario.core Scenario.skill_ok Scenario.store_ok)
         Scenario.bounty_message Scenario.clock Scenario.empty_memory).2 = Some task
    /\ Queue.id task = Scenario.task_id
    /\ Queue.status task = Queue.pending_payment
    /\ Queue.priceUsdc task = "2.25"
    /\ Queue.description task = "Summarise the x402 protocol"
    /\ Queue.senderId task = "anonymous"
    /\ Queue.paidTxHash task = None /\ Queue.paidAt task = None.
Proof.
  destruct (bounty_request_creates_pending_task Scenario.world
              (Scenario.core Scenario.skill_ok Scenario.store_ok)
              Scenario.bounty_message Scenario.clock Scenario.empty_memory
              Scenario.research_intent eq_refl eq_refl eq_refl eq_refl)
    as (price & Hquote & _ & Htask & _).
  destruct (Htask (or_introl eq_refl)) as (task & Hget & H1 & H2 & H3 & H4).
  exists task. split; [exact Hget|]. split; [exact H1|]. split; [exact H2|].
  split; [|exact H4].
  rewrite H3. vm_compute in Hquote. injection Hquote as <-. reflexivity.
Defined.

(** X26. The price list of bounty requests. For a category whose name the
    pricing tables inherit from [Object.prototype], the quote throws the
    [TypeError] of [calculate]. For every other category the total that
    [handleBountyRequest] quotes depends on the category and the complexity
    alone: in USDC, for simple, medium and complex, research costs 2.25,
    3.25 and 5.25, a website 16.50, 24 and 39, writing 5, 7.50 and 12.50,
    code 10.50, 15.50 and 25.50, design 22, 32 and 52, and any other
    category, named or not, 5, 7.50 and 12.50; a request without a
    complexity is medium. The quote never has a line for extended output,
    and its breakdown adds up to the total without rounding. *)
Theorem bounty_price_list (intent : Core.Intent) :
  let category := Core.or_else (Core.intent_category intent) "other" in
  let quoted :=
    (Pricing.num (quote_table category (Core.complexity_of (Core.intent_complexity intent))) 1
     / Pricing.num 100 1)%Qc in
  (if bool_decide (category ∈ JS.Object_prototype)
   then exists message, Core.quote intent = JS.Throw (JS.TypeError message)
   else exists price,
          Core.quote intent = JS.Normal price
          /\ Pricing.total price = JS.Num quoted
          /\ Pricing.sum_amounts (Pricing.breakdown price) = Pricing.Number quoted
          /\ Forall (fun l => Pricing.item l <> "extended output")
               (Pricing.breakdown price))
  /\ Core.complexity_of None = Pricing.medium.
Proof.
  intros category quoted. split; [|reflexivity].
  case_bool_decide as Hcategory.
  - eexists. by apply quote_throws.
  - by apply quote_returns.
Qed.

(** X27. The quoted price is the price checked, for a bounty request whose
    category has no name that the pricing tables inherit. The text of the
    total that the request stores as the price of its task reads back, in
    [verifyPayment] and in the payment link alike, as the quoted total in
    base units (the price in hundredths times ten thousand): the link asks
    for that many base units, a transfer to the agent of that many or more is
    accepted, and a transfer of fewer is rejected as insufficient. *)
Theorem quoted_price_is_checked `{host : Host} (intent : Core.Intent)
    (h : X402.X402PaymentHandler) (proof : X402.PaymentProof)
    (receipt : X402.TransactionReceipt) (transferLog : X402.Log) (amount : Z)
    (taskId description : string) (now : Z) :
  Core.or_else (Core.intent_category intent) "other" ∉ JS.Object_prototype ->
  X402.getTransactionReceipt h (X402.txHash proof) = JS.Normal (Some receipt) ->
  X402.status receipt = X402.success ->
  List.find (X402.is_usdc_transfer h) (X402.logs receipt) = Some transferLog ->
  JS.BigInt (X402.data transferLog) = JS.Normal amount ->
  JS.toLowerCase (X402.topic_address (X402.topics transferLog !! 2%nat))
  = JS.toLowerCase (X402.account_address h) ->
  let wei := (quote_table (Core.or_else (Core.intent_category intent) "other")
                (Core.complexity_of (Core.intent_complexity intent)) * 10000)%Z in
  exists quoted,
    Core.quote intent = JS.Normal quoted
    /\ let price := JS.value_toString (Pricing.total quoted) in
       Viem.parseUnits price X402.USDC_DECIMALS = JS.Normal wei
       /\ X402.generatePaymentDeepLink h
            (X402.generatePaymentRequest h taskId price description 30 now)
          = JS.Normal ("https://go.cb-w.com/dapp?cb_url="
                         +:+ JS.encodeURIComponent
                               (X402.universalLink h (X402.account_address h) wei)
                         +:+ "&chain=base")
       /\ X402.verifyPayment h proof price None
          = JS.Normal
              (if (amount <? wei)%Z
               then X402.invalid ("Insufficient payment: received "
                                    +:+ Viem.formatUnits amount X402.USDC_DECIMALS
                                    +:+ " USDC, expected " +:+ price +:+ " USDC")
               else {| X402.valid := true;
                       X402.sender :=
                         Some (X402.topic_address (X402.topics transferLog !! 1%nat));
                       X402.amount := Some (Viem.formatUnits amount X402.USDC_DECIMALS);
                       X402.error := None |}).
Proof.
  intros Hcategory Hreceipt Hstatus Hfind Hamount Hrecipient wei. subst wei.
  destruct (quote_parses intent Hcategory) as (quoted & Hquote & Hparse).
  exists quoted. split; [done|]. cbv zeta.
  split; [exact Hparse|]. split.
  - unfold X402.generatePaymentDeepLink, X402.generatePaymentRequest.
    cbn [X402.req_amount X402.req_recipient]. by rewrite Hparse.
  - rewrite (verifyPayment_found h proof _ None receipt transferLog amount) by assumption.
    rewrite bool_decide_eq_false_2 by (intros Hne; apply Hne, Hrecipient).
    rewrite Hparse. by destruct (_ <? _)%Z.
Qed.

(** The payment of 5.00 of the scenario pays the research bounty of 2.25. *)
Lemma quoted_price_is_checked_witness :
  X402.verifyPayment
    (Sample.handler [Sample.transfer Sample.payer Sample.agent Sample.word_5_00])
    Sample.proof "2.25" None
  = JS.Normal {| X402.valid := true; X402.sender := Some Sample.payer;
                 X402.amount := Some "5"; X402.error := None |}.
Proof.
  destruct (quoted_price_is_checked Scenario.research_intent
              (Sample.handler [Sample.transfer Sample.payer Sample.agent Sample.word_5_00])
              Sample.proof _ _ 5000000%Z "t" "d" 0
              ltac:(apply (bool_decide_eq_false_1 _); vm_compute; reflexivity)
              eq_refl eq_refl eq_refl eq_refl eq_refl)
    as (quoted & Hquote & _ & _ & Hverify).
  vm_compute in Hquote. injection Hquote as <-. exact Hverify.
Defined.

(** ** From the request to the deliverable *)

Section Lifecycle.
Import JS Queue Core.
Context `{host : Host}.

Lemma split_nonempty (sep : ascii) (s : string) : split sep s <> [].
Proof.
  destruct s as [|c s]; [done|]. cbn [split].
  destruct (Ascii.eqb c sep); [done|]. by destruct (split sep s).
Qed.

(** The parts of a payment message whose task id has no colon. *)
Lemma split_prefix (a b : string) :
  split ":" a = [a] -> split ":" (a +:+ ":" +:+ b) = a :: split ":" b.
Proof.
  induction a as [|c a IH]; [done|].
  change (String c a +:+ ":" +:+ b) with (String c (a +:+ ":" +:+ b)).
  cbn [split]. destruct (Ascii.eqb c ":"); [intros Heq; inversion Heq|].
  destruct (split ":" a) as [|h t] eqn:Ha; [by apply split_nonempty in Ha|].
  intros Heq. injection Heq as -> ->. by rewrite IH.
Qed.

Lemma split_payment (taskId txHash : string) :
  split ":" taskId = [taskId] -> split ":" txHash = [txHash] ->
  split ":" ("PAYMENT:" +:+ taskId +:+ ":" +:+ txHash) = ["PAYMENT"; taskId; txHash].
Proof.
  intros Hid Htx.
  change ("PAYMENT:" +:+ taskId +:+ ":" +:+ txHash)
    with ("PAYMENT" +:+ ":" +:+ (taskId +:+ ":" +:+ txHash)).
  rewrite (split_prefix "PAYMENT") by done.
  by rewrite (split_prefix taskId), Htx.
Qed.

Lemma handleMessage_payment w a message c q :
  startsWith (content message) "PAYMENT:" = true ->
  (handleMessage w a message c q).2
  = (handlePaymentVerification a message (c_paidAt c) (c_paidUpdate c) q).2.
Proof.
  intros Hpayment. unfold handleMessage. rewrite Hpayment. unfold mbind, ret.
  by destruct (handlePaymentVerification _ _ _ _ q) as [[r|e] q1].
Qed.

End Lifecycle.

(** X28. From the request to the execution, in fallback mode with an empty
    work queue. A bounty request whose category has no name that the pricing
    tables inherit is accepted, which stores a task with a fresh id awaiting
    payment; a payment message then names that task and a
    transaction that pays the agent at least the quoted price; and the
    processor runs once. Then the task is paid with that transaction and
    alone on the work queue after the payment message, and after the run of
    the processor it is completed or failed and the work queue is empty. *)
Theorem paid_bounty_is_executed `{host : Host} (w : Core.World) (a : Core.AgentCore)
    (request payment : Core.IncomingMessage) (c c' : Core.Clock) (t : Core.ExecTimes)
    (q : Queue.TaskQueue) (intent : Core.Intent) (txHash : string)
    (receipt : X402.TransactionReceipt) (transferLog : X402.Log) (amount : Z) :
  Queue.useInMemory q = true ->
  Queue.inMemoryQueue q = [] ->
  Queue.inMemoryTasks q !! Core.c_uuid c = None ->
  JS.startsWith (Core.content request) "PAYMENT:" = false ->
  JS.includes (JS.toLowerCase (Core.content request)) "status" = false ->
  Core.analyzeIntent w (Core.content request) = JS.Normal intent ->
  Core.intent_type intent = "bounty_request" ->
  Core.or_else (Core.intent_category intent) "other" ∉ JS.Object_prototype ->
  Core.content payment = "PAYMENT:" +:+ Core.c_uuid c +:+ ":" +:+ txHash ->
  JS.split ":" (Core.c_uuid c) = [Core.c_uuid c] ->
  JS.split ":" txHash = [txHash] ->
  X402.getTransactionReceipt (Core.payments a) txHash = JS.Normal (Some receipt) ->
  X402.status receipt = X402.success ->
  List.find (X402.is_usdc_transfer (Core.payments a)) (X402.logs receipt)
  = Some transferLog ->
  JS.BigInt (X402.data transferLog) = JS.Normal amount ->
  JS.toLowerCase (X402.topic_address (X402.topics transferLog !! 2%nat))
  = JS.toLowerCase (X402.account_address (Core.payments a)) ->
  (quote_table (Core.or_else (Core.intent_category intent) "other")
     (Core.complexity_of (Core.intent_complexity intent)) * 10000 <= amount)%Z ->
  let q1 := (Core.handleMessage w a request c q).2 in
  let q2 := (Core.handleMessage w a payment c' q1).2 in
  let q3 := Core.step a (Core.Tick t) q2 in
  (exists task, Queue.getTask (Core.c_uuid c) q1 = Some task
                /\ Queue.status task = Queue.pending_payment)
  /\ Queue.inMemoryQueue q1 = []
  /\ (exists task, Queue.getTask (Core.c_uuid c) q2 = Some task
                   /\ Queue.status task = Queue.paid
                   /\ Queue.paidTxHash task = Some txHash
                   /\ Queue.paidAt task = Some (Core.c_paidAt c'))
  /\ Queue.inMemoryQueue q2 = [Core.c_uuid c]
  /\ (exists task, Queue.getTask (Core.c_uuid c) q3 = Some task
                   /\ (Queue.status task = Queue.completed
                       \/ Queue.status task = Queue.failed))
  /\ Queue.inMemoryQueue q3 = [].
Proof.
  intros Hmem Hqueue Hfresh Hnopay Hnostatus Hintent Htype Hcategory Hcontent Hid Htx
    Hreceipt Hstatus Hfind Hamount Hrecipient Hpaid q1 q2 q3.
  destruct (quote_parses intent Hcategory) as (quoted & Hquote & Hparse).
  set (amount_text := JS.value_toString (Pricing.total quoted)) in *.
  set (data := {| Queue.d_channel := Core.msg_channel request;
                  Queue.d_channelMessageId := Core.msg_channelMessageId request;
                  Queue.d_senderId := Core.msg_senderId request;
                  Queue.d_senderAddress := Core.msg_senderAddress request;
                  Queue.d_description := Core.content request;
                  Queue.d_category := Core.or_else (Core.intent_category intent) "other";
                  Queue.d_priceUsdc := amount_text;
                  Queue.d_status := Some Queue.pending_payment |}).
  set (created := Queue.createTask data (Core.c_uuid c) (Core.c_createdAt c)
                    (Core.c_updatedAt c) (Core.c_score c) q).
  assert (q1 = created.2) as Hq1.
  { subst q1. rewrite handleMessage_store, Hnostatus, Hintent, bool_decide_eq_true_2 by done.
    by rewrite handleBountyRequest_store, Hquote. }
  assert (Queue.getTask (Core.c_uuid c) q1 = Some created.1) as Hget1.
  { rewrite Hq1. subst created. by rewrite getTask_createTask, decide_True, Hmem. }
  assert (Queue.status created.1 = Queue.pending_payment
          /\ Queue.priceUsdc created.1 = amount_text) as [Hstatus1 Hprice1].
  { subst created. unfold Queue.createTask. by rewrite Hmem. }
  assert (Queue.useInMemory q1 = true) as Hmem1.
  { rewrite Hq1. subst created. by rewrite useInMemory_createTask. }
  assert (Queue.inMemoryQueue q1 = []) as Hqueue1.
  { rewrite Hq1. subst created.
    by rewrite (proj1 (queues_createTask _ _ _ _ _ _)). }
  set (v := {| X402.valid := true;
               X402.sender := Some (X402.topic_address (X402.topics transferLog !! 1%nat));
               X402.amount := Some (Viem.formatUnits amount X402.USDC_DECIMALS);
               X402.error := None |}).
  assert (X402.verifyPayment (Core.payments a)
            {| X402.txHash := txHash; X402.proof_network := X402.base |}
            (Queue.priceUsdc created.1) None = JS.Normal v) as Hv.
  { rewrite Hprice1.
    rewrite (verifyPayment_found (Core.payments a) _ amount_text None receipt transferLog
               amount) by assumption.
    rewrite bool_decide_eq_false_2 by (intros Hne; apply Hne, Hrecipient).
    rewrite Hparse.
    by rewrite (proj2 (Z.ltb_ge _ _)) by lia. }
  assert (JS.split ":" (Core.content payment)
          = ["PAYMENT"; Core.c_uuid c; txHash]) as Hparts.
  { rewrite Hcontent. by apply split_payment. }
  set (update := Core.update_paid txHash (Core.c_paidAt c') (X402.sender v)).
  assert (q2 = Queue.enqueue (Core.c_uuid c)
                 (Queue.updateTask (Core.c_uuid c) update (Core.c_paidUpdate c') q1).2)
    as Hq2.
  { subst q2. rewrite handleMessage_payment
      by (rewrite Hcontent; apply startsWith_empty).
    rewrite (handlePaymentVerification_valid a payment _ _ q1 (Core.c_uuid c) txHash
               created.1 v); try done; by rewrite Hparts. }
  assert (Queue.getTask (Core.c_uuid c) q2
          = Some (Queue.merge created.1 update (Core.c_paidUpdate c'))) as Hget2.
  { rewrite Hq2, getTask_after_payment, Hget1, decide_True by done.
    unfold observed. by rewrite Hmem1. }
  assert (Queue.useInMemory q2 = true) as Hmem2.
  { rewrite Hq2. unfold Queue.enqueue. by rewrite useInMemory_updateTask, Hmem1. }
  assert (Queue.inMemoryQueue q2 = [Core.c_uuid c]) as Hqueue2.
  { rewrite Hq2. unfold Queue.enqueue. rewrite useInMemory_updateTask, Hmem1.
    cbn [Queue.inMemoryQueue].
    by rewrite (proj1 (queues_updateTask _ _ _ _)), Hqueue1. }
  split; [by exists created.1|]. split; [done|].
  split; [eexists; split; [exact Hget2|by repeat split]|]. split; [done|].
  subst q3. cbn [Core.step]. unfold Queue.processTick. rewrite Hqueue2.
  set (q2' := {| Queue.redis := Queue.redis q2; Queue.queue := Queue.queue q2;
                 Queue.useInMemory := Queue.useInMemory q2;
                 Queue.inMemoryTasks := Queue.inMemoryTasks q2;
                 Queue.inMemoryBySender := Queue.inMemoryBySender q2;
                 Queue.inMemoryByStatus := Queue.inMemoryByStatus q2;
                 Queue.inMemoryQueue := [] |}).
  assert (Queue.getTask (Core.c_uuid c) q2'
          = Some (Queue.merge created.1 update (Core.c_paidUpdate c'))) as -> by exact Hget2.
  set (task2 := Queue.merge created.1 update (Core.c_paidUpdate c')).
  assert (Queue.id task2 = Core.c_uuid c) as Hid2.
  { subst task2 created. unfold Queue.createTask. by rewrite Hmem. }
  destruct (executeTask_outcome a task2 t q2') as (_ & Hq & _ & _ & Hdone & _).
  rewrite Hid2 in Hdone. split; [by apply (Hdone task2)|exact Hq].
Qed.

(** The request of the scenario, paid with the payment of 5.00. *)
Lemma paid_bounty_is_executed_witness :
  let a := Scenario.core Scenario.skill_ok Scenario.store_ok in
  let q1 := (Core.handleMessage Scenario.world a Scenario.bounty_message Scenario.clock
               Scenario.empty_memory).2 in
  let q2 := (Core.handleMessage Scenario.world a (Scenario.payment_message Sample.tx)
               Scenario.clock q1).2 in
  let q3 := Core.step a (Core.Tick (Scenario.times 3000)) q2 in
  exists task, Queue.getTask Scenario.task_id q3 = Some task
               /\ (Queue.status task = Queue.completed
                   \/ Queue.status task = Queue.failed).
Proof.
  intros a q1 q2 q3.
  refine (proj1 (proj2 (proj2 (proj2 (proj2
            (paid_bounty_is_executed Scenario.world a Scenario.bounty_message
               (Scenario.payment_message Sample.tx) Scenario.clock Scenario.clock
               (Scenario.times 3000) Scenario.empty_memory Scenario.research_intent
               Sample.tx _ _ 5000000%Z
               eq_refl eq_refl eq_refl eq_refl eq_refl eq_refl eq_refl _ eq_refl
               eq_refl eq_refl eq_refl eq_refl eq_refl eq_refl eq_refl _)))))).
  - apply (bool_decide_eq_false_1 _). vm_compute. reflexivity.
  - vm_compute. discriminate.
Defined.

(** ** The payment route *)

Section PaymentRoute.
Import JS Queue Core Web.
Context `{host : Host}.

Lemma startsWith_app (sub rest : string) : startsWith (sub +:+ rest) sub = true.
Proof.
  induction sub as [|c sub IH]; [apply startsWith_empty|].
  change (String c sub +:+ rest) with (String c (sub +:+ rest)).
  cbn [startsWith]. by rewrite Ascii.eqb_refl.
Qed.

Lemma includes_app (pre sub rest : string) :
  includes (pre +:+ sub +:+ rest) sub = true.
Proof.
  induction pre as [|c pre IH].
  - change ("" +:+ sub +:+ rest) with (sub +:+ rest).
    destruct (sub +:+ rest) eqn:Heq; cbn [includes];
      by rewrite <- Heq, startsWith_app.
  - change (String c pre +:+ sub +:+ rest) with (String c (pre +:+ sub +:+ rest)).
    cbn [includes]. rewrite IH. apply orb_true_r.
Qed.

Lemma verified_reply_includes (taskId priceUsdc txHash : string) :
  includes (payment_verified_reply taskId priceUsdc txHash) "verified" = true.
Proof. apply (includes_app "✅ Payment " "verified"). Qed.

End PaymentRoute.

(** X29. [POST /payment/verify] for a task id and a transaction hash that
    are not empty and hold no colon. The route never answers an error: the
    orchestrator gets the payment message of exactly this task and
    transaction, and its reply comes back with status 200. A proof that
    verifies gives [verified: true], marks the task paid and queues it. The
    flag is read off the text of the reply, though: for an unknown task and
    for a proof that fails it is true exactly when the text of the failure
    holds the word [verified], and the store is as it was. *)
Theorem payment_verify_route `{host : Host} (w : Core.World) (a : Core.AgentCore)
    (body : Web.VerifyBody) (channelMessageId : string) (c : Core.Clock)
    (q : Queue.TaskQueue) (taskId txHash : string) :
  Web.body_taskId body = Some taskId -> Web.body_txHash body = Some txHash ->
  taskId <> EmptyString -> txHash <> EmptyString ->
  JS.split ":" taskId = [taskId] -> JS.split ":" txHash = [txHash] ->
  match Queue.getTask taskId q with
  | None =>
      Web.payment_verify w a body channelMessageId c q
      = (Web.VerifyResult
           (JS.includes ("Task " +:+ taskId +:+ " not found.") "verified")
           ("Task " +:+ taskId +:+ " not found.") None, q)
  | Some task =>
      exists v,
        X402.verifyPayment (Core.payments a)
          {| X402.txHash := txHash; X402.proof_network := X402.base |}
          (Queue.priceUsdc task) None = JS.Normal v
        /\ Web.payment_verify w a body channelMessageId c q
           = if X402.valid v
             then (Web.VerifyResult true
                     (Core.payment_verified_reply taskId (Queue.priceUsdc task) txHash)
                     (Some taskId),
                   Queue.enqueue taskId
                     (Queue.updateTask taskId
                        (Core.update_paid txHash (Core.c_paidAt c) (X402.sender v))
                        (Core.c_paidUpdate c) q).2)
             else (Web.VerifyResult
                     (JS.includes ("Payment verification failed: "
                                     +:+ default "undefined" (X402.error v)) "verified")
                     ("Payment verification failed: "
                        +:+ default "undefined" (X402.error v)) None, q)
  end.
Proof.
  intros HtaskId HtxHash Hid Htx Hidparts Htxparts.
  assert (JS.truthy (Some taskId) = true) as Htruthy1 by (by destruct taskId).
  assert (JS.truthy (Some txHash) = true) as Htruthy2 by (by destruct txHash).
  set (message := Web.verify_message body channelMessageId).
  assert (Core.content message = "PAYMENT:" +:+ taskId +:+ ":" +:+ txHash) as Hcontent.
  { subst message. unfold Web.verify_message. cbn [Core.content].
    by rewrite HtaskId, HtxHash. }
  assert (JS.split ":" (Core.content message) = ["PAYMENT"; taskId; txHash]) as Hparts.
  { rewrite Hcontent. by apply split_payment. }
  assert (JS.split ":" (Core.content message) !! 1%nat = Some taskId) as H1
    by (by rewrite Hparts).
  assert (JS.split ":" (Core.content message) !! 2%nat = Some txHash) as H2
    by (by rewrite Hparts).
  assert (JS.startsWith (Core.content message) "PAYMENT:" = true) as Hpayment.
  { rewrite Hcontent. apply startsWith_empty. }
  assert (Core.handleMessage w a message c q
          = match Core.handlePaymentVerification a message (Core.c_paidAt c)
                    (Core.c_paidUpdate c) q with
            | (JS.Normal r, q') => (JS.Normal (Core.plain r), q')
            | (JS.Throw e, q') => (JS.Throw e, q')
            end) as Hhandle.
  { unfold Core.handleMessage. rewrite Hpayment. unfold Core.mbind, Core.ret.
    by destruct (Core.handlePaymentVerification _ _ _ _ q) as [[r|e] q1]. }
  unfold Web.payment_verify. rewrite HtaskId, HtxHash, Htruthy1, Htruthy2.
  cbn [negb orb]. fold message. rewrite Hhandle.
  destruct (Queue.getTask taskId q) as [task|] eqn:Hget.
  - destruct (verifyPayment_returns (Core.payments a)
                {| X402.txHash := txHash; X402.proof_network := X402.base |}
                (Queue.priceUsdc task) None) as [v [Hv _]].
    exists v. split; [exact Hv|].
    destruct (X402.valid v) eqn:Hvalid.
    + rewrite (handlePaymentVerification_valid a message _ _ q taskId txHash task v
                 H1 H2 Hget Hv Hvalid).
      cbn [Core.plain Core.response Core.r_content Core.r_taskId].
      by rewrite verified_reply_includes.
    + by rewrite (handlePaymentVerification_invalid a message _ _ q taskId txHash task v
                    H1 H2 Hget Hv Hvalid).
  - unfold Core.handlePaymentVerification. rewrite Hparts.
    cbn [length Nat.ltb Nat.leb lookup list_lookup default from_option Datatypes.id].
    by rewrite Hget.
Qed.

(** No task has the id [verified], and the route says [verified: true]. *)
Lemma payment_verify_route_witness :
  Web.payment_verify Scenario.world (Scenario.core Scenario.skill_ok Scenario.store_ok)
    {| Web.body_taskId := Some "verified"; Web.body_txHash := Some Sample.tx;
       Web.body_sender := None |}
    "m-3" Scenario.clock Scenario.empty_memory
  = (Web.VerifyResult true "Task verified not found." None, Scenario.empty_memory).
Proof.
  refine (payment_verify_route Scenario.world
            (Scenario.core Scenario.skill_ok Scenario.store_ok)
            {| Web.body_taskId := Some "verified"; Web.body_txHash := Some Sample.tx;
               Web.body_sender := None |}
            "m-3" Scenario.clock Scenario.empty_memory "verified" Sample.tx
            eq_refl eq_refl _ _ eq_refl eq_refl); discriminate.
Defined.

(** ** The in-process processor over time *)

Section Draining.
Import JS Queue Core.
Context `{host : Host}.

(** One tick on a queue that is not empty, with what the next tick needs. *)
Lemma tick_head a t q taskId rest :
  useInMemory q = true -> stored_under_own_id q ->
  inMemoryQueue q = taskId :: rest ->
  useInMemory (step a (Tick t) q) = true
  /\ stored_under_own_id (step a (Tick t) q)
  /\ inMemoryQueue (step a (Tick t) q) = rest
  /\ (forall id', id' <> taskId -> getTask id' (step a (Tick t) q) = getTask id' q)
  /\ match getTask taskId q with
     | None => getTask taskId (step a (Tick t) q) = None
     | Some _ =>
         exists t', getTask taskId (step a (Tick t) q) = Some t'
                    /\ (status t' = completed \/ status t' = failed)
     end.
Proof.
  intros Hmem Hown Hqueue. cbn [step]. unfold processTick. rewrite Hqueue.
  set (q1 := {| redis := redis q; queue := queue q; useInMemory := useInMemory q;
                inMemoryTasks := inMemoryTasks q;
                inMemoryBySender := inMemoryBySender q;
                inMemoryByStatus := inMemoryByStatus q; inMemoryQueue := rest |}).
  assert (forall id, getTask id q1 = getTask id q) as Hsame by done.
  rewrite Hsame.
  destruct (getTask taskId q) as [task|] eqn:Hget.
  - pose proof (Hown taskId task Hget) as Hid.
    destruct (executeTask_outcome a task t q1) as (_ & Hq & _ & Hm & Hdone & Hother).
    rewrite Hid in *.
    split; [by rewrite Hm|]. split; [|split; [by rewrite Hq|split]].
    + intros id' t' Hget'. destruct (decide (id' = taskId)) as [->|Hne].
      * assert (preserves (fun t1 t2 => id t2 = id t1) q1 (executeTask a task t q1).2)
          as Hkeep.
        { apply executeTask_preserves; [done|congruence|].
          intros q' existing u now _ _. by rewrite observed_id. }
        destruct (Hkeep taskId task) as (t'' & Hget'' & Heq);
          [by rewrite Hsame|].
        rewrite Hget' in Hget''. injection Hget'' as <-. by rewrite Heq.
      * rewrite Hother in Hget' by done. rewrite Hsame in Hget'. by apply Hown.
    + intros id' Hne. by rewrite Hother, Hsame.
    + apply (Hdone task). by rewrite Hsame.
  - split; [done|]. split; [|done].
    intros id' t' Hget'. rewrite Hsame in Hget'. by apply Hown.
Qed.

End Draining.

(** X30. The in-process processor empties its queue. In fallback mode, as
    many ticks as the queue is long (or more) take every id off the queue,
    the first one first: every queued id whose task the store holds ends
    completed or failed, whatever the skill did; a queued id without a task
    is dropped and gets none; a task that was not queued is as it was; and
    the queue is empty at the end, since the processor never puts an id
    back. *)
Theorem processor_empties_queue `{host : Host} (a : Core.AgentCore)
    (ts : list Core.ExecTimes) (q : Queue.TaskQueue) :
  Queue.useInMemory q = true -> stored_under_own_id q ->
  (length (Queue.inMemoryQueue q) <= length ts)%nat ->
  Queue.inMemoryQueue (Core.run a (Core.Tick <$> ts) q) = []
  /\ (forall id, id ∈ Queue.inMemoryQueue q ->
        match Queue.getTask id q with
        | None => Queue.getTask id (Core.run a (Core.Tick <$> ts) q) = None
        | Some _ =>
            exists t', Queue.getTask id (Core.run a (Core.Tick <$> ts) q) = Some t'
                       /\ (Queue.status t' = Queue.completed
                           \/ Queue.status t' = Queue.failed)
        end)
  /\ (forall id, id ∉ Queue.inMemoryQueue q ->
        Queue.getTask id (Core.run a (Core.Tick <$> ts) q) = Queue.getTask id q).
Proof.
  revert q. induction ts as [|t ts IH]; intros q Hmem Hown Hlen.
  - destruct (Queue.inMemoryQueue q) as [|taskId rest] eqn:Hqueue;
      [|cbn in Hlen; lia].
    split; [done|]. split; [|done]. intros id Hin. by apply elem_of_nil in Hin.
  - change (Core.run a (Core.Tick <$> t :: ts) q)
      with (Core.run a (Core.Tick <$> ts) (Core.step a (Core.Tick t) q)).
    destruct (Queue.inMemoryQueue q) as [|taskId rest] eqn:Hqueue.
    + assert (Core.step a (Core.Tick t) q = q) as ->.
      { cbn [Core.step]. unfold Queue.processTick. by rewrite Hqueue. }
      destruct (IH q Hmem Hown) as (Hempty & _ & Hother);
        [rewrite Hqueue; cbn; lia|].
      split; [done|]. split; [|intros id _; apply Hother; rewrite Hqueue; apply not_elem_of_nil].
      intros id Hin. by apply elem_of_nil in Hin.
    + destruct (tick_head a t q taskId rest Hmem Hown Hqueue)
        as (Hmem1 & Hown1 & Hqueue1 & Hother1 & Hhead).
      destruct (IH (Core.step a (Core.Tick t) q) Hmem1 Hown1)
        as (Hempty & Hqueued & Hother);
        [rewrite Hqueue1; cbn in Hlen; lia|].
      rewrite Hqueue1 in Hqueued, Hother.
      assert (forall id, id ∈ rest -> id <> taskId ->
                match Queue.getTask id q with
                | None => Queue.getTask id (Core.run a (Core.Tick <$> ts)
                                              (Core.step a (Core.Tick t) q)) = None
                | Some _ =>
                    exists t', Queue.getTask id (Core.run a (Core.Tick <$> ts)
                                                   (Core.step a (Core.Tick t) q)) = Some t'
                               /\ (Queue.status t' = Queue.completed
                                   \/ Queue.status t' = Queue.failed)
                end) as Hrest.
      { intros id Hin Hne. specialize (Hqueued id Hin).
        by rewrite (Hother1 id Hne) in Hqueued. }
      split; [done|]. split.
      * intros id Hin. destruct (decide (id = taskId)) as [->|Hne].
        -- destruct (decide (taskId ∈ rest)) as [Hin'|Hnin].
           ++ specialize (Hqueued taskId Hin').
              destruct (Queue.getTask taskId q) as [task|].
              ** destruct Hhead as (t' & Hget' & _). by rewrite Hget' in Hqueued.
              ** by rewrite Hhead in Hqueued.
           ++ rewrite (Hother taskId Hnin).
              destruct (Queue.getTask taskId q); exact Hhead.
        -- apply Hrest; [|done]. apply elem_of_cons in Hin. by destruct Hin.
      * intros id Hnin. apply not_elem_of_cons in Hnin as [Hne Hnin].
        by rewrite (Hother id Hnin), (Hother1 id Hne).
Qed.

(** The request of the scenario and an id without a task, queued in this
    order: two ticks empty the queue. *)
Lemma processor_empties_queue_witness :
  let a := Scenario.core Scenario.skill_ok Scenario.store_ok in
  let q := Queue.enqueue "no such task"
             (Queue.enqueue Scenario.task_id (Scenario.requested Scenario.empty_memory)) in
  Queue.inMemoryQueue q = [Scenario.task_id; "no such task"]
  /\ Queue.inMemoryQueue
       (Core.run a [Core.Tick (Scenario.times 3000); Core.Tick (Scenario.times 4000)] q)
     = [].
Proof.
  intros a q. split; [reflexivity|].
  refine (proj1 (processor_empties_queue a
                   [Scenario.times 3000; Scenario.times 4000] q eq_refl _ _)).
  - intros id t. subst q. rewrite !getTask_enqueue. revert id t.
    apply own_id_in_memory; [reflexivity|].
    apply (index_consistent_createTask Scenario.request Scenario.task_id 1000 1000 1000
             Scenario.empty_memory); [reflexivity|exact index_consistent_empty|reflexivity].
  - vm_compute. lia.
Defined.
